(** * vsc-extension-manager: the sidebar collection and the installer workflow

    A shallow embedding of [ExtensionTreeProvider.ts] (the Item model and
    the Collection Store) and of the commands of [extension.ts] that work
    on it ([getCLIPath], [installExtension], [loadFile],
    [installSelected]), followed by the properties proved about them.

    Conventions of the embedding.
    - A JavaScript string is a [string]: for a text of ASCII characters
      the characters themselves, for any other text its UTF-8 bytes.
      Equality, concatenation, [startsWith] and [includes] are then the
      ones of the bytes. [toLowerCase] depends on the Unicode tables of
      the runtime and is an oracle of the host. [length] and
      [substring] count bytes, which are the UTF-16 units of the code on
      ASCII text only: what is proved about them is stated for ASCII
      text.
    - The provider's private array [this.extensions] is a
      [list ExtensionItem]; every method takes it and returns the new one.
      An [ExtensionItem] object lives in exactly one slot of that array,
      so its identity is its position.
    - The host (vscode, fs, child_process, the progress token) is a
      record of oracles, [Host]; everything the workflow shows, logs or
      asks is appended to a trace of [Event]s.
    - [this._onDidChangeTreeData.fire] only notifies the view and is not
      modelled. *)

From Stdlib Require Import Ascii.
From stdpp Require Import gmap strings list pretty.

(** ** JavaScript strings *)

Module Js.

(** The text is made of ASCII characters. *)
Fixpoint isAscii (s : string) : bool :=
  match s with
  | EmptyString => true
  | String c s' => (nat_of_ascii c <? 128)%nat && isAscii s'
  end.

Definition lower_ascii (c : ascii) : ascii :=
  let n := nat_of_ascii c in
  if (65 <=? n)%nat && (n <=? 90)%nat then ascii_of_nat (n + 32) else c.

(** What [s.toLowerCase()] is for a text [s] of ASCII characters: the
    letters A to Z are lowered. The example hosts lower with it. *)
Fixpoint toLowerCase (s : string) : string :=
  match s with
  | EmptyString => EmptyString
  | String c s' => String (lower_ascii c) (toLowerCase s')
  end.

(** [s.startsWith(p)] *)
Fixpoint startsWith (s p : string) : bool :=
  match p, s with
  | EmptyString, _ => true
  | String _ _, EmptyString => false
  | String a p', String b s' => bool_decide (a = b) && startsWith s' p'
  end.

(** [s.includes(sub)] *)
Fixpoint includes (s sub : string) : bool :=
  startsWith s sub ||
  match s with
  | EmptyString => false
  | String _ s' => includes s' sub
  end.

(** [s.substring(0, n)], for a text of ASCII characters *)
Fixpoint take (n : nat) (s : string) : string :=
  match n, s with
  | S n', String c s' => String c (take n' s')
  | _, _ => EmptyString
  end.

(** Truthiness of a string: only the empty string is falsy. *)
Definition truthy (s : string) : bool := negb (bool_decide (s = EmptyString)).

(** [o || d] for an optional string [o] ([None] is [undefined]). *)
Definition or_else (o : option string) (d : string) : string :=
  match o with
  | Some s => if truthy s then s else d
  | None => d
  end.

(** The optional string when it is truthy. *)
Definition if_truthy (o : option string) : option string :=
  match o with
  | Some s => if truthy s then Some s else None
  | None => None
  end.

Definition newline : string := String (ascii_of_nat 10) EmptyString.
Definition dquote : string := String (ascii_of_nat 34) EmptyString.

(** [lines.join("\n")] *)
Fixpoint join_lines (lines : list string) : string :=
  match lines with
  | [] => EmptyString
  | [l] => l
  | l :: rest => l +:+ newline +:+ join_lines rest
  end.

(** Position of the last ["."] of [s], counting from [i]. *)
Fixpoint last_dot (s : string) (i : nat) (acc : option nat) : option nat :=
  match s with
  | EmptyString => acc
  | String c s' =>
      last_dot s' (S i) (if bool_decide (c = "."%char) then Some i else acc)
  end.

(** [path.parse(f).name] for a directory entry [f] (a name without a
    path separator, as [readdirSync] returns them): the name up to its
    last dot, except that a dot in first position starts no extension
    and that [".."] has none. *)
Definition parse_name (f : string) : string :=
  match last_dot f 0 None with
  | None => f
  | Some 0 => f
  | Some d => if bool_decide (f = "..") then f else take d f
  end.

End Js.

(** ** JSON values, as [jsonc.parse] returns them

    Numbers are integers here; the commands never compute with them. *)

#[local] Unset Elimination Schemes.
Inductive json : Type :=
| JNull
| JBool (b : bool)
| JNum (n : Z)
| JStr (s : string)
| JArr (l : list json)
| JObj (m : gmap string json).
#[local] Set Elimination Schemes.

(** Truthiness of an optional value ([None] is [undefined]). *)
Definition json_truthy (v : option json) : bool :=
  match v with
  | None | Some JNull => false
  | Some (JBool b) => b
  | Some (JNum n) => negb (n =? 0)%Z
  | Some (JStr s) => Js.truthy s
  | Some (JArr _) | Some (JObj _) => true
  end.

Fixpoint chars (s : string) : list json :=
  match s with
  | EmptyString => []
  | String c s' => JStr (String c EmptyString) :: chars s'
  end.

Definition indexed (l : list json) : gmap string json :=
  list_to_map (imap (λ i x, (pretty i, x)) l).

(** The own enumerable properties that [{...v}] copies: those of an
    object, the indices of an array or of a string, none otherwise. *)
Definition own_props (v : option json) : gmap string json :=
  match v with
  | Some (JObj m) => m
  | Some (JArr l) => indexed l
  | Some (JStr s) => indexed (chars s)
  | _ => ∅
  end.

(** [{...a, ...b}]: the properties of [b] win over those of [a]. *)
Definition spread2 (a b : option json) : gmap string json :=
  own_props b ∪ own_props a.

(** ** The Item model (ExtensionTreeProvider.ts) *)

Inductive ExtensionStatus : Set :=
| Pending
| Installing
| Success
| Failed
| AlreadyInstalled.

#[global] Instance ExtensionStatus_eq_dec : EqDecision ExtensionStatus.
Proof. solve_decision. Defined.

Record ExtensionData : Type := mkExtensionData {
  id : string;
  displayName : option string;
  description : option string;
  version : option string;
  publisher : option string
}.

Inductive TreeItemCheckboxState : Set := Unchecked | Checked.

#[global] Instance TreeItemCheckboxState_eq_dec :
  EqDecision TreeItemCheckboxState.
Proof. solve_decision. Defined.

Record ThemeIcon : Type := mkThemeIcon {
  iconId : string;
  iconColor : option string
}.

(** [vscode.Command]; its [arguments] are the item itself and are left
    out. *)
Record Command : Type := mkCommand {
  command : string;
  title : string
}.

(** An [ExtensionItem]. [this.id] is assigned once, from
    [extensionData.id], and is read through [item_id]. *)
Record ExtensionItem : Type := mkExtensionItem {
  extensionData : ExtensionData;
  status : ExtensionStatus;
  errorMessage : option string;
  selected : bool;
  settingsData : option json;
  label : string;
  itemDescription : string;
  tooltip : string;
  contextValue : string;
  checkboxState : TreeItemCheckboxState;
  iconPath : ThemeIcon;
  itemCommand : option Command
}.

Definition item_id (e : ExtensionItem) : string := id (extensionData e).

Definition SETTINGS : string := "settings".

Definition set_selected (b : bool) (e : ExtensionItem) : ExtensionItem :=
  mkExtensionItem (extensionData e) (status e) (errorMessage e) b
    (settingsData e) (label e) (itemDescription e) (tooltip e)
    (contextValue e) (checkboxState e) (iconPath e) (itemCommand e).

Definition set_checkboxState (c : TreeItemCheckboxState) (e : ExtensionItem)
  : ExtensionItem :=
  mkExtensionItem (extensionData e) (status e) (errorMessage e) (selected e)
    (settingsData e) (label e) (itemDescription e) (tooltip e)
    (contextValue e) c (iconPath e) (itemCommand e).

Definition set_status (s : ExtensionStatus) (m : option string)
  (e : ExtensionItem) : ExtensionItem :=
  mkExtensionItem (extensionData e) s m (selected e)
    (settingsData e) (label e) (itemDescription e) (tooltip e)
    (contextValue e) (checkboxState e) (iconPath e) (itemCommand e).

Definition set_iconPath (i : ThemeIcon) (e : ExtensionItem) : ExtensionItem :=
  mkExtensionItem (extensionData e) (status e) (errorMessage e) (selected e)
    (settingsData e) (label e) (itemDescription e) (tooltip e)
    (contextValue e) (checkboxState e) i (itemCommand e).

Definition set_itemCommand (c : option Command) (e : ExtensionItem)
  : ExtensionItem :=
  mkExtensionItem (extensionData e) (status e) (errorMessage e) (selected e)
    (settingsData e) (label e) (itemDescription e) (tooltip e)
    (contextValue e) (checkboxState e) (iconPath e) c.

Definition updateCheckbox (e : ExtensionItem) : ExtensionItem :=
  set_checkboxState (if selected e then Checked else Unchecked) e.

Definition showErrorCommand : Command :=
  mkCommand "vscode-extension-manager.showError" "Show Error".

Definition updateIcon (e : ExtensionItem) : ExtensionItem :=
  match status e with
  | Success =>
      set_iconPath (mkThemeIcon "check" (Some "testing.iconPassed")) e
  | Failed =>
      set_itemCommand (Some showErrorCommand)
        (set_iconPath (mkThemeIcon "error" (Some "testing.iconFailed")) e)
  | Installing => set_iconPath (mkThemeIcon "sync~spin" None) e
  | AlreadyInstalled =>
      set_iconPath (mkThemeIcon "verified" (Some "testing.iconPassed")) e
  | Pending =>
      set_iconPath
        (if bool_decide (item_id e = SETTINGS)
         then mkThemeIcon "settings-gear" None
         else mkThemeIcon "extensions" None) e
  end.

(** The secondary text the constructor gives an item. [String.length]
    and [Js.take] are the [length] and the [substring] of the code on a
    description of ASCII characters; the code counts UTF-16 units, so
    the test and the cut are those of the code for such descriptions
    only. *)
Definition shortDescription (d : ExtensionData) : string :=
  match Js.if_truthy (description d) with
  | Some s => if (50 <? String.length s)%nat
              then Js.take 47 s +:+ "..." else s
  | None => id d
  end.

Definition tooltipLines (d : ExtensionData) : list string :=
  [ "**" +:+ Js.or_else (displayName d) (id d) +:+ "**"; EmptyString;
    "**ID:** " +:+ id d ]
  ++ match Js.if_truthy (publisher d) with
     | Some p => ["**Publisher:** " +:+ p] | None => [] end
  ++ match Js.if_truthy (version d) with
     | Some v => ["**Version:** " +:+ v] | None => [] end
  ++ match Js.if_truthy (description d) with
     | Some s => [EmptyString; s] | None => [] end.

(** [new ExtensionItem(extensionData, settingsData)]. The field
    initialisers give [status = Pending] and [selected = true]; the
    constructor body then fills the rest. *)
Definition newExtensionItem (d : ExtensionData) (sd : option json)
  : ExtensionItem :=
  let is_settings := bool_decide (id d = SETTINGS) in
  let e0 :=
    mkExtensionItem d Pending None true sd
      (Js.or_else (displayName d) (id d))
      (shortDescription d)
      (Js.join_lines (tooltipLines d))
      "extensionItem"
      Unchecked
      (mkThemeIcon "extensions" None)
      None in
  let e1 := updateCheckbox e0 in
  if is_settings
  then mkExtensionItem (extensionData e1) (status e1) (errorMessage e1)
         (selected e1) (settingsData e1) (label e1) (itemDescription e1)
         (tooltip e1) "settingsItem" (checkboxState e1)
         (mkThemeIcon "settings-gear" None) (itemCommand e1)
  else e1.

(** ** The Collection Store (class ExtensionTreeProvider) *)

Definition loadExtensions (extensionDataList : list ExtensionData)
  (this : list ExtensionItem) : list ExtensionItem :=
  (λ data, newExtensionItem data None) <$> extensionDataList.

Definition settingsDescriptor : ExtensionData :=
  mkExtensionData SETTINGS (Some "VS Code Settings")
    (Some "User settings.json configuration") (Some "Current") (Some "User").

Definition addSettingsItem (sd : option json) (this : list ExtensionItem)
  : list ExtensionItem :=
  newExtensionItem settingsDescriptor sd
    :: filter (λ e, item_id e ≠ SETTINGS) this.

Definition getExtensions (this : list ExtensionItem) : list ExtensionItem :=
  this.

Definition getSelectedExtensions (this : list ExtensionItem)
  : list ExtensionItem :=
  filter (λ ext, selected ext = true) this.

Definition selectAll (this : list ExtensionItem) : list ExtensionItem :=
  (λ ext, updateCheckbox (set_selected true ext)) <$> this.

Definition deselectAll (this : list ExtensionItem) : list ExtensionItem :=
  (λ ext, updateCheckbox (set_selected false ext)) <$> this.

(** What [updateExtensionStatus] does to the item it found. *)
Definition markStatus (s : ExtensionStatus) (m : option string)
  (e : ExtensionItem) : ExtensionItem :=
  updateIcon (set_status s m e).

(** [find] stops at the first item with the id; that object is mutated
    in place, nothing happens when there is none. *)
Fixpoint updateExtensionStatus (i : string) (s : ExtensionStatus)
  (m : option string) (this : list ExtensionItem) : list ExtensionItem :=
  match this with
  | [] => []
  | e :: rest =>
      if bool_decide (item_id e = i)
      then markStatus s m e :: rest
      else e :: updateExtensionStatus i s m rest
  end.

(** [handleCheckboxChange(item, state)] mutates the item it is given. *)
Definition handleCheckboxChange (item : ExtensionItem)
  (state : TreeItemCheckboxState) : ExtensionItem :=
  updateCheckbox (set_selected (bool_decide (state = Checked)) item).

(** The same call seen from the collection, for the item in slot [n]. *)
Definition handleCheckboxChangeAt (n : nat) (state : TreeItemCheckboxState)
  (this : list ExtensionItem) : list ExtensionItem :=
  match this !! n with
  | Some item => <[n := handleCheckboxChange item state]> this
  | None => this
  end.

(** ** The host: vscode, fs, path, child_process *)

(** What the callback of [cp.exec] receives. *)
Record ExecResult : Type := mkExecResult {
  execError : option string;   (* [error.message] when [error] is set *)
  stdout : string;
  stderr : string
}.

Record Host : Type := mkHost {
  (* vscode.workspace.getConfiguration("extensionManager").get("cliCommand") *)
  cliCommand : option string;
  (* vscode.env.appRoot and vscode.env.appName *)
  appRoot : string;
  appName : option string;
  (* context.globalStorageUri.fsPath *)
  globalStoragePath : string;
  path_join : string → string → string;
  (* String.prototype.toLowerCase *)
  toLowerCase : string → string;
  existsSync : string → bool;
  (* [None]: the call throws *)
  readdirSync : string → option (list string);
  (* fs.readFileSync(p, "utf8"): the text of what is thrown, or the
     content of the file *)
  readFileSync : string → string + string;
  (* jsonc.parse(text): the parser is fault tolerant and does not throw;
     on a text that is not well formed it returns what it could read
     ([None] is [undefined]) *)
  jsoncParse : string → option json;
  (* JSON.stringify followed by writeFileSync: [Some m] when it throws an
     error with message [m] *)
  writeFileSync : string → gmap string json → option string;
  (* vscode.extensions.getExtension(id) is defined *)
  getExtension : string → bool;
  exec : string → ExecResult;
  (* the value of token.isCancellationRequested when iteration [i] of
     the extension loop reads it *)
  isCancellationRequested : nat → bool
}.

(** [jsonc.parse(fs.readFileSync(p, "utf8"))]: the text of what
    [readFileSync] threw, or the value parsed from the content. *)
Definition readJsonc (h : Host) (p : string) : string + option json :=
  match readFileSync h p with
  | inl e => inl e
  | inr text => inr (jsoncParse h text)
  end.

#[global] Arguments readJsonc : simpl never.

(** Everything the commands show, log or ask, in order. The fractional
    [increment] of a progress report is left out. *)
Inductive Event : Type :=
| ShowInformationMessage (m : string)
| ShowWarningMessage (m : string)
| ShowErrorMessage (m : string)
| AppendLine (l : string)
| ProgressReport (message : string)
| CancelCheck (i : nat)
| GetExtension (i : string)
| Exec (cmd : string)
| WriteFile (file : string) (content : gmap string json).

(** ** The CLI resolver ([getCLIPath]) *)

Definition isCandidate (f : string) : bool :=
  negb (Js.startsWith f ".") && negb (Js.includes f "tunnel").

Definition matchesAppName (lower : string → string) (appName f : string)
  : bool :=
  Js.includes (lower appName) (lower (Js.parse_name f)).

Definition isKnownEditor (lower : string → string) (f : string) : bool :=
  let name := lower (Js.parse_name f) in
  bool_decide (name = "code") || bool_decide (name = "cursor")
  || bool_decide (name = "codium").

(** [o || d] where [o] is the result of [Array.prototype.find]. *)
Definition found_or (o : option string) (d : string) : string :=
  match o with
  | Some s => if Js.truthy s then s else d
  | None => d
  end.

(** The body of [if (candidates.length > 0)]: the value of [bestMatch]
    when the test [if (bestMatch)] is reached, and its initial empty string when
    there is no candidate. *)
Definition bestMatch (lower : string → string) (candidates : list string)
  (appName : string) : string :=
  match candidates with
  | [] => EmptyString
  | first :: _ =>
      let found := List.find (matchesAppName lower appName) candidates in
      if Js.truthy (found_or found EmptyString)
      then found_or found EmptyString
      else found_or (List.find (isKnownEditor lower) candidates) first
  end.

Definition getCLIPath (h : Host) : string :=
  let cliCommand := Js.or_else (cliCommand h) "auto" in
  let cliPath := cliCommand in
  if bool_decide (cliCommand = "auto") then
    let binDir := path_join h (appRoot h) "bin" in
    if existsSync h binDir then
      match readdirSync h binDir with
      | Some files =>
          let appName := Js.or_else (appName h) EmptyString in
          let candidates := List.filter isCandidate files in
          let best := bestMatch (toLowerCase h) candidates appName in
          if Js.truthy best
          then Js.dquote +:+ path_join h binDir best +:+ Js.dquote
          else cliPath
      | None => cliPath
      end
    else cliPath
  else cliPath.

(** ** [installExtension] *)

Record InstallResult : Type := mkInstallResult {
  success : bool;
  error : option string
}.

Definition installCommand (cliPath extensionId : string) : string :=
  cliPath +:+ " --install-extension " +:+ extensionId.

Definition installExtension (h : Host) (extensionId cliPath : string)
  : list Event * InstallResult :=
  let cmd := installCommand cliPath extensionId in
  let r := exec h cmd in
  match execError r with
  | Some message =>
      ([Exec cmd;
        AppendLine ("Error installing " +:+ extensionId +:+ ": " +:+ message)]
       ++ (if Js.truthy (stderr r)
           then [AppendLine ("Stderr: " +:+ stderr r)] else []),
       mkInstallResult false (Some message))
  | None =>
      ([Exec cmd] ++ (if Js.truthy (stdout r)
                      then [AppendLine (stdout r)] else []),
       mkInstallResult true None)
  end.

(** ** The [loadFile] command *)

(** The value of [data.extensions] when [data] is not an array. *)
Inductive ExtensionsProp : Type :=
| XArray (l : list ExtensionData)
| XOther (truthy : bool).   (* null, a boolean, number, string or object *)

(** The value [jsonc.parse] returned, as far as the command inspects it.
    The elements of an array are taken at the type the code casts them
    to, [ExtensionData]. *)
Inductive FileData : Type :=
| DUndefined                                  (* empty text *)
| DNull
| DArray (l : list ExtensionData)             (* the legacy shape *)
| DValue (extensions : option ExtensionsProp) (settings : option json).
   (* any other value, read through its properties [extensions] and
      [settings]; a boolean, number or string has neither *)

(** The outcome of the file dialog followed by [readFileSync]. *)
Inductive Picked : Type :=
| Dismissed
| ReadThrows (e : string)
| ReadOk (data : FileData).

(** The text of the TypeError that [data.extensions] throws when [data]
    is [undefined] or [null]. *)
Definition typeErrorText (what : string) : string :=
  "TypeError: Cannot read properties of " +:+ what
  +:+ " (reading 'extensions')".

(** [Array.isArray(data) ? data : data.extensions || []] and the test
    that follows it: the list to load, or the text of what is thrown. *)
Definition extensionsOf (data : FileData) : string + list ExtensionData :=
  match data with
  | DUndefined => inl (typeErrorText "undefined")
  | DNull => inl (typeErrorText "null")
  | DArray l => inr l
  | DValue None _ => inr []
  | DValue (Some (XArray l)) _ => inr l
  | DValue (Some (XOther false)) _ => inr []
  | DValue (Some (XOther true)) _ =>
      inl "Error: Invalid extensions file format"
  end.

(** [data.settings], read after [extensionsOf] succeeded. *)
Definition settingsOf (data : FileData) : option json :=
  match data with
  | DValue _ s => s
  | _ => None
  end.

Definition loadFileCommand (picked : Picked) (this : list ExtensionItem)
  : list ExtensionItem * list Event :=
  match picked with
  | Dismissed => (this, [])
  | ReadThrows e => (this, [ShowErrorMessage ("Error loading file: " +:+ e)])
  | ReadOk data =>
      match extensionsOf data with
      | inl e => (this, [ShowErrorMessage ("Error loading file: " +:+ e)])
      | inr extensions =>
          let this1 := loadExtensions extensions this in
          let withSettings := json_truthy (settingsOf data) in
          let this2 := if withSettings
                       then addSettingsItem (settingsOf data) this1
                       else this1 in
          (this2,
           [ShowInformationMessage
              ("Loaded " +:+ pretty (length extensions) +:+ " extensions"
               +:+ (if withSettings then " and settings" else EmptyString)
               +:+ ".")])
      end
  end.

(** ** The [installSelected] command *)

(** The provider's array, the trace so far and the two counters of the
    extension loop. *)
Record RunState : Type := mkRunState {
  exts : list ExtensionItem;
  trace : list Event;
  installedCount : nat;
  errorCount : nat
}.

Definition emit (evs : list Event) (s : RunState) : RunState :=
  mkRunState (exts s) (trace s ++ evs) (installedCount s) (errorCount s).

Definition setStatus (i : string) (st : ExtensionStatus) (m : option string)
  (s : RunState) : RunState :=
  mkRunState (updateExtensionStatus i st m (exts s)) (trace s)
    (installedCount s) (errorCount s).

Definition countInstalled (s : RunState) : RunState :=
  mkRunState (exts s) (trace s) (S (installedCount s)) (errorCount s).

Definition countError (s : RunState) : RunState :=
  mkRunState (exts s) (trace s) (installedCount s) (S (errorCount s)).

Definition getSettingsPath (h : Host) : string :=
  path_join h (globalStoragePath h) "../../settings.json".

(** [currentSettings] after the inner [try]: [{}] when the file does
    not exist and when [readFileSync] threw, which logs the warning;
    what the parser returned for the content otherwise. *)
Definition readCurrentSettings (h : Host) (settingsPath : string)
  : option json * list Event :=
  if existsSync h settingsPath then
    match readJsonc h settingsPath with
    | inr v => (v, [])
    | inl e =>
        (Some (JObj ∅),
         [AppendLine
            ("Warning: Could not parse current settings.json: " +:+ e)])
    end
  else (Some (JObj ∅), []).

(** Step 1, "Install Settings if selected". *)
Definition settingsPhase (h : Host) (settingsItem : option ExtensionItem)
  (s : RunState) : RunState :=
  match settingsItem with
  | Some item =>
      if json_truthy (settingsData item) then
        let s := emit [ProgressReport "Applying Settings..."] s in
        let settingsPath := getSettingsPath h in
        let '(currentSettings, warn) := readCurrentSettings h settingsPath in
        let s := emit warn s in
        let newSettings := spread2 currentSettings (settingsData item) in
        let s := emit [WriteFile settingsPath newSettings] s in
        match writeFileSync h settingsPath newSettings with
        | None =>
            emit [AppendLine "Successfully applied settings."]
              (setStatus SETTINGS Success None s)
        | Some message =>
            emit [AppendLine ("Failed to apply settings: " +:+ message)]
              (setStatus SETTINGS Failed (Some message) s)
        end
      else s
  | None => s
  end.

Definition progressMessage (extensionId : string) (i total : nat) : string :=
  "Installing " +:+ extensionId +:+ " (" +:+ pretty (i + 1) +:+ "/"
  +:+ pretty total +:+ ")...".

(** One iteration of the extension loop once the token was read and was
    not cancelled. *)
Definition installStep (h : Host) (cliPath : string) (total i : nat)
  (ext : ExtensionItem) (s : RunState) : RunState :=
  let extensionId := id (extensionData ext) in
  let s := emit [GetExtension extensionId] s in
  if getExtension h extensionId then
    setStatus extensionId AlreadyInstalled None s
  else
    let s := emit [ProgressReport (progressMessage extensionId i total)] s in
    let s := setStatus extensionId Installing None s in
    let s := emit [AppendLine ("Installing " +:+ extensionId +:+ "...")] s in
    let '(evs, result) := installExtension h extensionId cliPath in
    let s := emit evs s in
    if success result then
      emit [AppendLine ("Successfully installed " +:+ extensionId)]
        (setStatus extensionId Success None (countInstalled s))
    else
      emit [AppendLine ("Failed to install " +:+ extensionId)]
        (setStatus extensionId Failed (error result) (countError s)).

(** Step 2, [for (let i = 0; i < total; i++)], run from index [i] over
    the items [extensionItems[i..]]. *)
Fixpoint installLoop (h : Host) (cliPath : string) (total i : nat)
  (items : list ExtensionItem) (s : RunState) : RunState :=
  match items with
  | [] => s
  | ext :: rest =>
      let s := emit [CancelCheck i] s in
      if isCancellationRequested h i
      then emit [AppendLine "Operation cancelled."] s
      else installLoop h cliPath total (S i) rest
             (installStep h cliPath total i ext s)
  end.

Definition summaryMessage (installed : nat) (settingsSelected : bool)
  : string :=
  "Process complete. Installed: " +:+ pretty installed
  +:+ " extensions. Settings applied: "
  +:+ (if settingsSelected then "Yes" else "No") +:+ ".".

Definition isSettings (item : ExtensionItem) : bool :=
  bool_decide (item_id item = SETTINGS).

Definition installSelectedCommand (h : Host) (this : list ExtensionItem)
  : RunState :=
  let selectedItems := getSelectedExtensions this in
  if bool_decide (length selectedItems = 0) then
    mkRunState this [ShowWarningMessage "No items selected."] 0 0
  else
    let cliPath := getCLIPath h in
    let s := mkRunState this [AppendLine "Starting installation..."] 0 0 in
    let settingsItem := List.find isSettings selectedItems in
    let extensionItems :=
      filter (λ item, item_id item ≠ SETTINGS) selectedItems in
    let s := settingsPhase h settingsItem s in
    let s := installLoop h cliPath (length extensionItems) 0
               extensionItems s in
    emit [ShowInformationMessage
            (summaryMessage (installedCount s)
               (bool_decide (is_Some settingsItem)))] s.

(** ** Concrete hosts and collections used in the examples *)

Definition posix_join (a b : string) : string := a +:+ "/" +:+ b.

Definition okResult : ExecResult :=
  mkExecResult None EmptyString EmptyString.
Definition koResult (m : string) : ExecResult :=
  mkExecResult (Some m) EmptyString EmptyString.

(** A host with override [cfg], the entries [files] in its bin
    directory and display name [name]; nothing is installed, every
    install succeeds, the token is never cancelled, there is no settings
    file and writes succeed. The names of the examples are ASCII, and
    the host lowers them as such. *)
Definition plainHost (cfg : option string) (files : list string)
  (name : string) : Host :=
  mkHost cfg "/app" (Some name) "/data/User/globalStorage/ext" posix_join
    Js.toLowerCase
    (λ p, bool_decide (p = "/app/bin")) (λ _, Some files)
    (λ _, inr EmptyString) (λ _, None) (λ _ _, None) (λ _, false)
    (λ _, okResult) (λ _, false).

Definition withInstaller (h : Host) (installed : string → bool)
  (run : string → ExecResult) (cancel : nat → bool) : Host :=
  mkHost (cliCommand h) (appRoot h) (appName h) (globalStoragePath h)
    (path_join h) (toLowerCase h) (existsSync h) (readdirSync h)
    (readFileSync h) (jsoncParse h) (writeFileSync h) installed run cancel.

(** The text of the settings file of the example hosts that say what
    the file parses to and not what it holds. *)
Definition settingsText : string := "(the text of settings.json)".

(** The host [h] with a settings file: it exists when [present];
    reading it throws [e] when [content] is [inl e]; when [content] is
    [inr v] it holds a text that parses to [v]; writing it throws
    [write]. *)
Definition withSettingsFile (h : Host) (present : bool)
  (content : string + option json) (write : option string) : Host :=
  mkHost (cliCommand h) (appRoot h) (appName h) (globalStoragePath h)
    (path_join h) (toLowerCase h)
    (λ p, if bool_decide (p = getSettingsPath h) then present
          else existsSync h p)
    (readdirSync h)
    (λ _, match content with
          | inl e => inl e
          | inr _ => inr settingsText
          end)
    (λ _, match content with
          | inl _ => None
          | inr v => v
          end)
    (λ _ _, write)
    (getExtension h) (exec h) (isCancellationRequested h).


Definition descriptor (i : string) : ExtensionData :=
  mkExtensionData i None None None None.

(** ** Collection states and the properties stated about them *)

(** The Collection states the store can be brought into, starting from
    the empty array of a new provider, when every raw descriptor handed to
    [loadExtensions] satisfies [P]. *)
Inductive reachable (P : ExtensionData → Prop)
  : list ExtensionItem → Prop :=
| reach_new : reachable P []
| reach_loadExtensions l this :
    Forall P l → reachable P this → reachable P (loadExtensions l this)
| reach_addSettingsItem sd this :
    reachable P this → reachable P (addSettingsItem sd this)
| reach_selectAll this : reachable P this → reachable P (selectAll this)
| reach_deselectAll this : reachable P this → reachable P (deselectAll this)
| reach_updateExtensionStatus i s m this :
    reachable P this → reachable P (updateExtensionStatus i s m this)
| reach_handleCheckboxChange n state this :
    reachable P this → reachable P (handleCheckboxChangeAt n state this).

Definition anyDescriptor (d : ExtensionData) : Prop := True.
Definition notReserved (d : ExtensionData) : Prop := id d ≠ SETTINGS.

(** The checkbox shows the selection. *)
Definition checkboxInSync (e : ExtensionItem) : Prop :=
  checkboxState e = Checked ↔ selected e = true.

Definition settingsCount (this : list ExtensionItem) : nat :=
  length (filter (λ e, item_id e = SETTINGS) this).

(** At most one item has the reserved id, and it is the first one. *)
Definition settingsFirst (this : list ExtensionItem) : Prop :=
  settingsCount this ≤ 1 ∧
  ∀ n e, this !! n = Some e → item_id e = SETTINGS → n = 0.

Definition terminal (s : ExtensionStatus) : Prop :=
  s = Success ∨ s = Failed ∨ s = AlreadyInstalled.

(** Successive calls of [addSettingsItem], one per payload. *)
Definition addSettingsItems (sds : list (option json))
  (this : list ExtensionItem) : list ExtensionItem :=
  foldl (λ acc sd, addSettingsItem sd acc) this sds.

(** ** The run of [installSelected], item by item *)

(** [extensionItems]: the selected items other than the settings item,
    in the order of the collection. *)
Definition extensionItemsOf (this : list ExtensionItem)
  : list ExtensionItem :=
  filter (λ item, item_id item ≠ SETTINGS) (getSelectedExtensions this).

(** What an iteration that is not cancelled makes of the item with id
    [i]: [updateExtensionStatus] is called once when the host has the
    extension, twice ([Installing], then the result) otherwise. *)
Definition outcomeFor (h : Host) (cliPath i : string) (e : ExtensionItem)
  : ExtensionItem :=
  if getExtension h i then markStatus AlreadyInstalled None e
  else
    match execError (exec h (installCommand cliPath i)) with
    | None => markStatus Success None (markStatus Installing None e)
    | Some message =>
        markStatus Failed (Some message) (markStatus Installing None e)
    end.

Definition outcome (h : Host) (cliPath : string) (e : ExtensionItem)
  : ExtensionItem :=
  outcomeFor h cliPath (item_id e) e.

(** The install command of an item, when the loop runs one for it. *)
Definition installOf (h : Host) (cliPath : string) (e : ExtensionItem)
  : option string :=
  if getExtension h (item_id e) then None
  else Some (installCommand cliPath (item_id e)).

(** The item is installed by its iteration. *)
Definition installs (h : Host) (cliPath : string) (e : ExtensionItem)
  : bool :=
  negb (getExtension h (item_id e))
  && bool_decide
       (execError (exec h (installCommand cliPath (item_id e))) = None).

(** Number of iterations the loop completes from index [i] with [n]
    items left: it stops at the first index where the token reads
    cancelled. *)
Fixpoint iterationsRun (cancel : nat → bool) (i n : nat) : nat :=
  match n with
  | 0 => 0
  | S n' => if cancel i then 0 else S (iterationsRun cancel (S i) n')
  end.

(** The events of iteration [i] after its cancellation check. *)
Definition stepEvents (h : Host) (cliPath : string) (total i : nat)
  (ext : ExtensionItem) : list Event :=
  let extensionId := item_id ext in
  GetExtension extensionId ::
  if getExtension h extensionId then []
  else
    [ProgressReport (progressMessage extensionId i total);
     AppendLine ("Installing " +:+ extensionId +:+ "...")]
    ++ (installExtension h extensionId cliPath).1
    ++ [AppendLine
          ((if success (installExtension h extensionId cliPath).2
            then "Successfully installed " else "Failed to install ")
           +:+ extensionId)].

(** The events of the iterations [i], [i+1], ... over [items], each
    opened by its cancellation check. *)
Fixpoint iterationEvents (h : Host) (cliPath : string) (total i : nat)
  (items : list ExtensionItem) : list Event :=
  match items with
  | [] => []
  | ext :: rest =>
      (CancelCheck i :: stepEvents h cliPath total i ext)
      ++ iterationEvents h cliPath total (S i) rest
  end.

(** The events of the settings phase. *)
Definition settingsEvents (h : Host) (settingsItem : option ExtensionItem)
  : list Event :=
  match settingsItem with
  | Some item =>
      if json_truthy (settingsData item) then
        let p := getSettingsPath h in
        let newSettings :=
          spread2 (readCurrentSettings h p).1 (settingsData item) in
        [ProgressReport "Applying Settings..."]
        ++ (readCurrentSettings h p).2
        ++ [WriteFile p newSettings;
            AppendLine
              match writeFileSync h p newSettings with
              | None => "Successfully applied settings."
              | Some message => "Failed to apply settings: " +:+ message
              end]
      else []
  | None => []
  end.

Definition cancelChecksOf (tr : list Event) : list nat :=
  omap (λ ev, match ev with CancelCheck i => Some i | _ => None end) tr.

Definition execsOf (tr : list Event) : list string :=
  omap (λ ev, match ev with Exec c => Some c | _ => None end) tr.

Definition outputOf (tr : list Event) : list string :=
  omap (λ ev, match ev with AppendLine l => Some l | _ => None end) tr.

(** The final notification(s) of a run. *)
Definition summaryOf (tr : list Event) : list string :=
  omap (λ ev, match ev with
              | ShowInformationMessage m => Some m
              | _ => None
              end) tr.

Definition writesOf (tr : list Event) : list (string * gmap string json) :=
  omap (λ ev, match ev with WriteFile f c => Some (f, c) | _ => None end) tr.

Definition countStatus (st : ExtensionStatus) (this : list ExtensionItem)
  : nat :=
  length (filter (λ e, status e = st) this).

(** [this.extensions.find((e) => e.id === id)]: the item the store
    holds under an id. *)
Definition itemById (i : string) (this : list ExtensionItem)
  : option ExtensionItem :=
  List.find (λ e, bool_decide (item_id e = i)) this.

(** The status and the error message of an item. *)
Definition marks (e : ExtensionItem) : ExtensionStatus * option string :=
  (status e, errorMessage e).

(** The status and the error message an iteration leaves under the id
    [i]. *)
Definition outcomeMarks (h : Host) (cliPath i : string)
  : ExtensionStatus * option string :=
  if getExtension h i then (AlreadyInstalled, None)
  else
    match execError (exec h (installCommand cliPath i)) with
    | None => (Success, None)
    | Some message => (Failed, Some message)
    end.

Definition queriesOf (tr : list Event) : list string :=
  omap (λ ev, match ev with GetExtension i => Some i | _ => None end) tr.

(** The token read cancelled during the run over [n] extension items. *)
Definition wasCancelled (h : Host) (n : nat) : bool :=
  bool_decide (iterationsRun (isCancellationRequested h) 0 n < n).

(** [f] applied to the items with id [i]. *)
Definition touch (f : ExtensionItem → ExtensionItem) (i : string)
  (this : list ExtensionItem) : list ExtensionItem :=
  (λ e, if bool_decide (item_id e = i) then f e else e) <$> this.

(** No item after the first has the reserved id. *)
Definition tailClean (ids : list string) : Prop :=
  Forall (λ i, i ≠ SETTINGS) (tail ids).

(** The resolver in the words of the specification: drop the hidden
    names and the names containing "tunnel"; take the first remaining
    name whose lowercased base name occurs in the lowercased host name;
    failing that the first whose lowercased base name is one of the three
    known editors; failing that the first remaining name; [None] when no
    name remains. *)
Definition spec_resolve (lower : string → string) (files : list string)
  (hostName : string) : option string :=
  let remaining :=
    List.filter
      (λ f, negb (Js.startsWith f ".") && negb (Js.includes f "tunnel"))
      files in
  let base f := lower (Js.parse_name f) in
  match List.find (λ f, Js.includes (lower hostName) (base f))
          remaining with
  | Some f => Some f
  | None =>
      match List.find
              (λ f, bool_decide (base f ∈ ["code"; "cursor"; "codium"]))
              remaining with
      | Some f => Some f
      | None => head remaining
      end
  end.

(** ** Examples *)

Definition sampleCollection : list ExtensionItem :=
  loadExtensions [descriptor "pub.a"; descriptor "pub.b"; descriptor "pub.c"]
    [].

Definition exampleCurrent : gmap string json :=
  <["a" := JNum 1]> (<["b" := JNum 2]> ∅).
Definition examplePayload : gmap string json :=
  <["b" := JNum 3]> (<["c" := JNum 4]> ∅).
Definition exampleMerged : gmap string json :=
  <["a" := JNum 1]> (<["b" := JNum 3]> (<["c" := JNum 4]> ∅)).

Definition settingsHost : Host :=
  withSettingsFile (plainHost None [] "Code") true
    (inr (Some (JObj exampleCurrent))) None.

Definition exampleSettingsItem : ExtensionItem :=
  newExtensionItem settingsDescriptor (Some (JObj examplePayload)).

(** A host for the runs of the examples: the extensions [installed] are
    already there, installing one of [failing] fails with "boom", and the
    token reads cancelled at iteration [cancelAt]. Its CLI path is
    "auto". *)
Definition scriptedHost (installed failing : list string)
  (cancelAt : option nat) : Host :=
  withInstaller (plainHost None [] "Code")
    (λ i, bool_decide (i ∈ installed))
    (λ c, if bool_decide (c ∈ installCommand "auto" <$> failing)
          then koResult "boom" else okResult)
    (λ i, bool_decide (cancelAt = Some i)).

Definition fiveItems : list ExtensionItem :=
  loadExtensions
    [descriptor "pub.a"; descriptor "pub.b"; descriptor "pub.c";
     descriptor "pub.d"; descriptor "pub.e"] [].

(** A host whose settings write fails with "EACCES" and whose install of
    [pub.b] fails with "boom". *)
Definition failingHost : Host :=
  withSettingsFile (scriptedHost [] ["pub.b"] None) false (inr None)
    (Some "EACCES").

Definition collectionWithSettings : list ExtensionItem :=
  addSettingsItem (Some (JObj examplePayload)) sampleCollection.

(** The sample collection behind a deselected item that has the id of
    its first item. *)
Definition shadowedCollection : list ExtensionItem :=
  handleCheckboxChangeAt 0 Unchecked
    (loadExtensions
       [descriptor "pub.a"; descriptor "pub.a"; descriptor "pub.b";
        descriptor "pub.c"] []).

(** Five items, the first two with the same id. *)
Definition repeatedItems : list ExtensionItem :=
  loadExtensions
    [descriptor "pub.a"; descriptor "pub.a"; descriptor "pub.c";
     descriptor "pub.d"; descriptor "pub.e"] [].

(** [f] keeps the id and the selection of every item. *)
Definition keeps_identity (f : ExtensionItem → ExtensionItem) : Prop :=
  ∀ e, item_id (f e) = item_id e ∧ selected (f e) = selected e.

(** ** The remaining commands of extension.ts *)

(** The [showError] command, bound to the click on a failed item. *)
Definition showErrorHandler (item : ExtensionItem) : list Event :=
  match Js.if_truthy (errorMessage item) with
  | Some m => [ShowErrorMessage ("Error: " +:+ m)]
  | None => []
  end.

(** [getChildren(element)]: the collection at the root, nothing below an
    item. *)
Definition getChildren (element : option ExtensionItem)
  (this : list ExtensionItem) : list ExtensionItem :=
  match element with
  | Some _ => []
  | None => this
  end.

(** *** The [exportExtensions] command *)

(** An entry of [vscode.extensions.all], with the fields of its
    [packageJSON] that the command reads. *)
Record HostExtension : Type := mkHostExtension {
  extId : string;
  pkgIsBuiltin : bool;
  pkgVersion : option string;
  pkgDisplayName : option string;
  pkgPublisher : option string;
  pkgDescription : option string
}.

(** What the export asks besides the [Host]: [vscode.extensions.all],
    the path picked in the save dialog ([None] when it is dismissed) and
    [new Date().toISOString()]. *)
Record ExportEnv : Type := mkExportEnv {
  allExtensions : list HostExtension;
  saveDialog : option string;
  exportedAt : string
}.

(** The value the filter callback returns; the [isSystem] it computes
    first is not used. *)
Definition isExported (ext : HostExtension) : bool :=
  negb (Js.startsWith (extId ext) "vscode.")
  && negb (Js.startsWith (extId ext) "ms-vscode.js-debug")
  && negb (Js.startsWith (extId ext) "ms-vscode.references-view").

Definition toDescriptor (ext : HostExtension) : ExtensionData :=
  mkExtensionData (extId ext) (pkgDisplayName ext) (pkgDescription ext)
    (pkgVersion ext) (pkgPublisher ext).

Definition extensionList (all : list HostExtension) : list ExtensionData :=
  toDescriptor <$> List.filter isExported all.

(** [Object.keys(v).length]; [None] when [Object.keys] throws, on
    [undefined] and on [null]. *)
Definition keyCount (v : option json) : option nat :=
  match v with
  | None | Some JNull => None
  | Some (JObj m) => Some (size m)
  | Some (JArr l) => Some (length l)
  | Some (JStr s) => Some (String.length s)
  | Some (JBool _) | Some (JNum _) => Some 0
  end.

Definition keysTypeError : string :=
  "TypeError: Cannot convert undefined or null to object".

(** [settingsData] after the inner [try] of the export, and what the
    [try] logged and showed. *)
Definition exportSettings (h : Host) : option json * list Event :=
  let settingsPath := getSettingsPath h in
  if existsSync h settingsPath then
    let found := AppendLine ("Found settings.json at: " +:+ settingsPath) in
    match readJsonc h settingsPath with
    | inl e =>
        (Some (JObj ∅),
         [found; AppendLine ("Error reading settings.json: " +:+ e);
          ShowErrorMessage ("Error reading settings.json: " +:+ e)])
    | inr v =>
        match keyCount v with
        | Some n =>
            (v, [found; AppendLine ("Read " +:+ pretty n +:+ " settings.")])
        | None =>
            (v,
             [found;
              AppendLine ("Error reading settings.json: " +:+ keysTypeError);
              ShowErrorMessage
                ("Error reading settings.json: " +:+ keysTypeError)])
        end
    end
  else
    (Some (JObj ∅),
     [AppendLine ("WARNING: settings.json NOT found at: " +:+ settingsPath);
      ShowWarningMessage
        ("Could not find settings.json at: " +:+ settingsPath
         +:+ ". If you are in Debug mode, this is expected "
         +:+ "(separate profile).")]).

(** A value as [JSON.stringify] keeps it: an optional string field is
    left out when it is [undefined]. *)
Definition optField (k : string) (o : option string)
  (m : gmap string json) : gmap string json :=
  match o with
  | Some s => <[k := JStr s]> m
  | None => m
  end.

Definition descriptorJson (d : ExtensionData) : json :=
  JObj (optField "displayName" (displayName d)
          (optField "description" (description d)
             (optField "version" (version d)
                (optField "publisher" (publisher d)
                   (<["id" := JStr (id d)]> ∅))))).

(** [exportData]. *)
Definition exportData (h : Host) (env : ExportEnv) (settings : json)
  : gmap string json :=
  <["meta" := JObj (optField "source" (appName h)
                      (<["exportedAt" := JStr (exportedAt env)]> ∅))]>
    (<["extensions" := JArr (descriptorJson <$>
                               extensionList (allExtensions env))]>
       (<["settings" := settings]> ∅)).

(** The command: the settings are read, the save dialog is shown, the
    file is written. What [Object.keys] or [writeFileSync] throws ends in
    the outer [catch]; a thrown system error prints as "Error: " followed
    by its message. *)
Definition exportCommand (h : Host) (env : ExportEnv) : list Event :=
  let '(settingsData, evs) := exportSettings h in
  match keyCount settingsData, settingsData with
  | Some _, Some settings =>
      match saveDialog env with
      | None => evs
      | Some file =>
          let data := exportData h env settings in
          evs ++ [WriteFile file data]
          ++ match writeFileSync h file data with
             | None =>
                 [ShowInformationMessage
                    ("Successfully exported "
                     +:+ pretty (length (extensionList (allExtensions env)))
                     +:+ " extensions and settings to " +:+ file)]
             | Some message =>
                 [ShowErrorMessage
                    ("Error exporting extensions: Error: " +:+ message)]
             end
      end
  | _, _ =>
      evs ++ [ShowErrorMessage
                ("Error exporting extensions: " +:+ keysTypeError)]
  end.

(** What [jsonc.parse] makes of a descriptor that [JSON.stringify]
    wrote: an object with a string [id] and optional string fields;
    [None] for any other value. *)
Definition stringField (k : string) (m : gmap string json)
  : option (option string) :=
  match m !! k with
  | None => Some None
  | Some (JStr s) => Some (Some s)
  | Some _ => None
  end.

Definition readDescriptor (v : json) : option ExtensionData :=
  match v with
  | JObj m =>
      match m !! "id" with
      | Some (JStr i) =>
          dn ← stringField "displayName" m;
          de ← stringField "description" m;
          ve ← stringField "version" m;
          pu ← stringField "publisher" m;
          Some (mkExtensionData i dn de ve pu)
      | _ => None
      end
  | _ => None
  end.

(** The [FileData] that [loadFile] sees when it reads back a file
    holding the object [data]: its [extensions] and [settings]
    properties, the array elements read as descriptors. [None] when an
    array element is not a descriptor. *)
Definition readBack (data : gmap string json) : option FileData :=
  match data !! "extensions" with
  | None => Some (DValue None (data !! "settings"))
  | Some (JArr l) =>
      ds ← mapM readDescriptor l;
      Some (DValue (Some (XArray ds)) (data !! "settings"))
  | Some v =>
      Some (DValue (Some (XOther (json_truthy (Some v))))
              (data !! "settings"))
  end.

(** *** The [importExtensions] command *)

Record ImportState : Type := mkImportState {
  importTrace : list Event;
  importInstalled : nat;
  importFailed : nat
}.

Definition importEmit (evs : list Event) (s : ImportState) : ImportState :=
  mkImportState (importTrace s ++ evs) (importInstalled s) (importFailed s).

(** One iteration of the import loop after its cancellation check: the
    command run and the lines logged are those of [installExtension]. *)
Definition importStep (h : Host) (cliPath : string) (total i : nat)
  (ext : ExtensionData) (s : ImportState) : ImportState :=
  let extensionId := id ext in
  let s := importEmit
             [ProgressReport (progressMessage extensionId i total);
              AppendLine ("Installing " +:+ extensionId +:+ "...")] s in
  let '(evs, result) := installExtension h extensionId cliPath in
  let s := importEmit evs s in
  if success result then
    importEmit [AppendLine ("Successfully installed " +:+ extensionId)]
      (mkImportState (importTrace s) (S (importInstalled s))
         (importFailed s))
  else
    importEmit [AppendLine ("Failed to install " +:+ extensionId)]
      (mkImportState (importTrace s) (importInstalled s)
         (S (importFailed s))).

Fixpoint importLoop (h : Host) (cliPath : string) (total i : nat)
  (items : list ExtensionData) (s : ImportState) : ImportState :=
  match items with
  | [] => s
  | ext :: rest =>
      let s := importEmit [CancelCheck i] s in
      if isCancellationRequested h i
      then importEmit [AppendLine "Operation cancelled by user."] s
      else importLoop h cliPath total (S i) rest
             (importStep h cliPath total i ext s)
  end.

Definition importSummary (installed failed : nat) : string :=
  "Installation complete. Installed: " +:+ pretty installed
  +:+ ", Failed: " +:+ pretty failed
  +:+ ". Check 'Extension Manager' output for details.".

(** [extensions.filter((ext) => !getExtension(ext.id))] *)
Definition extensionsToInstall (h : Host) (extensions : list ExtensionData)
  : list ExtensionData :=
  List.filter (λ ext, negb (getExtension h (id ext))) extensions.

(** The command, for the outcome [picked] of the file dialog and the
    answer [confirmation] of the quick pick. The CLI path is computed by
    a copy of the body of [getCLIPath]. *)
Definition importCommand (h : Host) (picked : Picked)
  (confirmation : option string) : ImportState :=
  match picked with
  | Dismissed => mkImportState [] 0 0
  | ReadThrows e =>
      mkImportState
        [ShowErrorMessage ("Error importing extensions: " +:+ e)] 0 0
  | ReadOk data =>
      match extensionsOf data with
      | inl e =>
          mkImportState
            [ShowErrorMessage ("Error importing extensions: " +:+ e)] 0 0
      | inr extensions =>
          if bool_decide (confirmation = Some "Yes") then
            let cliPath := getCLIPath h in
            let todo := extensionsToInstall h extensions in
            let asked := (λ ext, GetExtension (id ext)) <$> extensions in
            if bool_decide (length todo = 0) then
              mkImportState
                (asked ++ [ShowInformationMessage
                             "All extensions are already installed."]) 0 0
            else
              let s :=
                mkImportState
                  (asked ++
                   [AppendLine ("Starting installation of "
                                +:+ pretty (length todo)
                                +:+ " extensions...");
                    AppendLine ("CLI Command: " +:+ cliPath)]) 0 0 in
              let s := importLoop h cliPath (length todo) 0 todo s in
              importEmit
                [ShowInformationMessage
                   (importSummary (importInstalled s) (importFailed s))] s
          else mkImportState [] 0 0
      end
  end.

(** *** The batched import of the first version of extension.ts *)

Definition BATCH_SIZE : nat := 10.

(** [[cliPath, "--install-extension", id, ...].join(" ")] *)
Definition batchCommand (cliPath : string) (batch : list ExtensionData)
  : string :=
  foldl (λ acc part, acc +:+ " " +:+ part) cliPath
    (batch ≫= λ ext, ["--install-extension"; id ext]).

(** [for (let i = 0; i < xs.length; i += BATCH_SIZE)] collecting
    [xs.slice(i, i + BATCH_SIZE)]; [fuel] bounds the iterations. *)
Fixpoint batchesFrom (fuel i : nat) (xs : list ExtensionData)
  : list (list ExtensionData) :=
  match fuel with
  | 0 => []
  | S fuel' =>
      if (i <? length xs)%nat
      then take BATCH_SIZE (drop i xs)
             :: batchesFrom fuel' (i + BATCH_SIZE) xs
      else []
  end.

(** The batches of the loop: it runs at most [length xs] times. *)
Definition batches (xs : list ExtensionData) : list (list ExtensionData) :=
  batchesFrom (length xs) 0 xs.

(** The lines the loop sends to the terminal. *)
Definition batchCommands (cliPath : string) (xs : list ExtensionData)
  : list string :=
  batchCommand cliPath <$> batches xs.

(** ** Properties stated about the items of reachable collections *)

(** The icon [updateIcon] draws for a status, and the click command of a
    failed item. *)
Definition iconInSync (e : ExtensionItem) : Prop :=
  iconPath e = iconPath (updateIcon e) ∧
  (status e = Failed → itemCommand e = Some showErrorCommand) ∧
  (itemCommand e = None ∨ itemCommand e = Some showErrorCommand).

(** The fields of an item that no status update writes. *)
Definition frameOf (e : ExtensionItem)
  : ExtensionData * bool * TreeItemCheckboxState * option json
    * (string * string * string * string) :=
  (extensionData e, selected e, checkboxState e, settingsData e,
   (label e, itemDescription e, tooltip e, contextValue e)).

(** The install of the item is run and fails. *)
Definition fails (h : Host) (cliPath : string) (e : ExtensionItem) : bool :=
  negb (getExtension h (item_id e))
  && negb (bool_decide
             (execError (exec h (installCommand cliPath (item_id e)))
              = None)).

(** The host already has the extension of the item. *)
Definition present (h : Host) (e : ExtensionItem) : bool :=
  getExtension h (item_id e).

Definition importExecsOf (s : ImportState) : list string :=
  execsOf (importTrace s).

(** The install of the extension succeeds. *)
Definition importOk (h : Host) (cliPath : string) (ext : ExtensionData)
  : bool :=
  bool_decide (execError (exec h (installCommand cliPath (id ext))) = None).

(** The host entry with its [isBuiltin] flag replaced. *)
Definition withBuiltin (flag : HostExtension → bool) (ext : HostExtension)
  : HostExtension :=
  mkHostExtension (extId ext) (flag ext) (pkgVersion ext)
    (pkgDisplayName ext) (pkgPublisher ext) (pkgDescription ext).

(** The test the export filter puts on an id. *)
Definition exportedId (i : string) : bool :=
  negb (Js.startsWith i "vscode.")
  && negb (Js.startsWith i "ms-vscode.js-debug")
  && negb (Js.startsWith i "ms-vscode.references-view").

(** ** More hosts for the examples *)

Definition sampleInstalled : list HostExtension :=
  [mkHostExtension "vscode.git" true (Some "1.0.0") (Some "Git") None None;
   mkHostExtension "esbenp.prettier-vscode" false (Some "11.0.0")
     (Some "Prettier") (Some "esbenp") (Some "Code formatter");
   mkHostExtension "ms-vscode.js-debug" true None None None None;
   mkHostExtension "ms-vscode.cpptools" true (Some "1.2.3") None
     (Some "ms-vscode") None].

Definition sampleExportEnv : ExportEnv :=
  mkExportEnv sampleInstalled (Some "/home/me/vscode-extensions.json")
    "2025-12-15T10:00:00.000Z".

(** Twelve extensions to install. *)
Definition twelveExtensions : list ExtensionData :=
  descriptor <$> ["p.a"; "p.b"; "p.c"; "p.d"; "p.e"; "p.f"; "p.g"; "p.h";
                  "p.i"; "p.j"; "p.k"; "p.l"].

(** The host of the settings example once its settings file holds the
    merged settings. *)
Definition mergedHost : Host :=
  withSettingsFile (plainHost None [] "Code") true
    (inr (Some (JObj exampleMerged))) None.




(** A host whose settings file is there and parses to [null]. *)
Definition nullSettingsHost : Host :=
  withSettingsFile (plainHost None [] "Code") true (inr (Some JNull)) None.

(** ** Basic facts about items *)

Section ItemFacts.

Implicit Types (e : ExtensionItem) (s : ExtensionStatus).

Lemma updateIcon_extensionData e :
  extensionData (updateIcon e) = extensionData e.
Proof. unfold updateIcon. by destruct (status e). Qed.

Lemma markStatus_extensionData s m e :
  extensionData (markStatus s m e) = extensionData e.
Proof. unfold markStatus. by rewrite updateIcon_extensionData. Qed.

Lemma markStatus_id s m e : item_id (markStatus s m e) = item_id e.
Proof. unfold item_id. by rewrite markStatus_extensionData. Qed.

Lemma markStatus_status s m e : status (markStatus s m e) = s.
Proof. by destruct s. Qed.

Lemma markStatus_errorMessage s m e : errorMessage (markStatus s m e) = m.
Proof. by destruct s. Qed.

Lemma markStatus_selected s m e : selected (markStatus s m e) = selected e.
Proof. by destruct s. Qed.

Lemma markStatus_checkboxState s m e :
  checkboxState (markStatus s m e) = checkboxState e.
Proof. by destruct s. Qed.

Lemma markStatus_settingsData s m e :
  settingsData (markStatus s m e) = settingsData e.
Proof. by destruct s. Qed.

Lemma markStatus_presentation s m e :
  label (markStatus s m e) = label e ∧
  itemDescription (markStatus s m e) = itemDescription e ∧
  tooltip (markStatus s m e) = tooltip e ∧
  contextValue (markStatus s m e) = contextValue e.
Proof. by destruct s. Qed.

(** The spinner of [Installing] leaves nothing behind. *)
Lemma markStatus_after_Installing s m m' e :
  markStatus s m (markStatus Installing m' e) = markStatus s m e.
Proof. by destruct s. Qed.

Lemma newExtensionItem_extensionData d sd :
  extensionData (newExtensionItem d sd) = d.
Proof. unfold newExtensionItem. by case_bool_decide. Qed.

Lemma newExtensionItem_fresh d sd :
  selected (newExtensionItem d sd) = true ∧
  status (newExtensionItem d sd) = Pending ∧
  errorMessage (newExtensionItem d sd) = None ∧
  checkboxState (newExtensionItem d sd) = Checked ∧
  settingsData (newExtensionItem d sd) = sd.
Proof. unfold newExtensionItem. by case_bool_decide. Qed.

Lemma newExtensionItem_inSync d sd : checkboxInSync (newExtensionItem d sd).
Proof.
  unfold checkboxInSync.
  destruct (newExtensionItem_fresh d sd) as (-> & _ & _ & -> & _). done.
Qed.

Lemma updateCheckbox_inSync e : checkboxInSync (updateCheckbox e).
Proof.
  unfold checkboxInSync, updateCheckbox. simpl.
  destruct (selected e); simpl; split; congruence.
Qed.

Lemma markStatus_inSync s m e :
  checkboxInSync e → checkboxInSync (markStatus s m e).
Proof.
  unfold checkboxInSync.
  by rewrite markStatus_checkboxState, markStatus_selected.
Qed.

End ItemFacts.

(** ** Basic facts about the store *)

#[global] Arguments markStatus : simpl never.
#[global] Arguments item_id : simpl never.
#[global] Arguments newExtensionItem : simpl never.

Section StoreFacts.

Implicit Types (this : list ExtensionItem) (e : ExtensionItem).

Lemma updateExtensionStatus_length i s m this :
  length (updateExtensionStatus i s m this) = length this.
Proof.
  induction this as [|e rest IH]; csimpl; [done|].
  case_bool_decide; csimpl; by rewrite ?IH.
Qed.

Lemma updateExtensionStatus_ids i s m this :
  item_id <$> updateExtensionStatus i s m this = item_id <$> this.
Proof.
  induction this as [|e rest IH]; csimpl; [done|].
  case_bool_decide; csimpl; by rewrite ?IH, ?markStatus_id.
Qed.

Lemma updateExtensionStatus_absent i s m this :
  i ∉ item_id <$> this → updateExtensionStatus i s m this = this.
Proof.
  induction this as [|e rest IH]; csimpl; [done|].
  intros Hno. apply not_elem_of_cons in Hno as [Hne Hno].
  rewrite bool_decide_false by congruence. by rewrite IH.
Qed.

(** The first item with the id, in slot [n], is the one that changes. *)
Lemma updateExtensionStatus_first i s m this n e :
  this !! n = Some e → item_id e = i →
  (∀ k e', k < n → this !! k = Some e' → item_id e' ≠ i) →
  updateExtensionStatus i s m this = <[n := markStatus s m e]> this.
Proof.
  revert n. induction this as [|x rest IH]; intros n Hn Hid Hbefore.
  - done.
  - destruct n as [|n]; simpl in *.
    + injection Hn as ->. by rewrite bool_decide_true.
    + rewrite bool_decide_false by (apply (Hbefore 0 x); [lia | done]).
      f_equal. apply IH; [done..|].
      intros k e' Hk He'. apply (Hbefore (S k) e'); [lia | done].
Qed.

Lemma updateExtensionStatus_selected i s m this :
  selected <$> updateExtensionStatus i s m this = selected <$> this.
Proof.
  induction this as [|e rest IH]; csimpl; [done|].
  case_bool_decide; csimpl; by rewrite ?IH, ?markStatus_selected.
Qed.

Lemma updateExtensionStatus_checkboxState i s m this :
  checkboxState <$> updateExtensionStatus i s m this
  = checkboxState <$> this.
Proof.
  induction this as [|e rest IH]; csimpl; [done|].
  case_bool_decide; csimpl; by rewrite ?IH, ?markStatus_checkboxState.
Qed.

Lemma updateExtensionStatus_inSync i s m this :
  Forall checkboxInSync this →
  Forall checkboxInSync (updateExtensionStatus i s m this).
Proof.
  induction 1 as [|e rest He Hrest IH]; simpl; [constructor|].
  case_bool_decide; constructor; auto using markStatus_inSync.
Qed.

Lemma loadExtensions_inSync l this :
  Forall checkboxInSync (loadExtensions l this).
Proof.
  unfold loadExtensions. apply Forall_fmap, Forall_forall.
  intros d _. apply newExtensionItem_inSync.
Qed.

Lemma addSettingsItem_inSync sd this :
  Forall checkboxInSync this →
  Forall checkboxInSync (addSettingsItem sd this).
Proof.
  intros H. unfold addSettingsItem. constructor.
  - apply newExtensionItem_inSync.
  - rewrite Forall_forall in H |- *. intros x Hx.
    apply list_elem_of_filter in Hx as [_ Hx]. auto.
Qed.

Lemma selectAll_inSync this : Forall checkboxInSync (selectAll this).
Proof.
  unfold selectAll. apply Forall_fmap, Forall_forall.
  intros e _. apply updateCheckbox_inSync.
Qed.

Lemma deselectAll_inSync this : Forall checkboxInSync (deselectAll this).
Proof.
  unfold deselectAll. apply Forall_fmap, Forall_forall.
  intros e _. apply updateCheckbox_inSync.
Qed.

Lemma handleCheckboxChangeAt_inSync n state this :
  Forall checkboxInSync this →
  Forall checkboxInSync (handleCheckboxChangeAt n state this).
Proof.
  intros H. unfold handleCheckboxChangeAt.
  destruct (this !! n) as [item|]; [|done].
  apply Forall_insert; [done|]. apply updateCheckbox_inSync.
Qed.

End StoreFacts.

(** ** Properties of the Collection Store *)

(** C6. For every list of raw descriptors, [loadExtensions] replaces the
    whole collection, whatever it held, by one fresh item per descriptor,
    in the order of the list, each selected and [Pending]. *)
Theorem loadExtensions_fresh_items (l : list ExtensionData)
  (this : list ExtensionItem) :
  length (loadExtensions l this) = length l ∧
  extensionData <$> loadExtensions l this = l ∧
  loadExtensions l this = loadExtensions l [] ∧
  (∀ n, loadExtensions l this !! n
        = (λ d, newExtensionItem d None) <$> l !! n) ∧
  Forall (λ e, selected e = true ∧ status e = Pending ∧
               errorMessage e = None ∧ checkboxState e = Checked)
    (loadExtensions l this).
Proof.
  unfold loadExtensions. split_and!.
  - by rewrite length_fmap.
  - rewrite <- list_fmap_compose. rewrite <- (list_fmap_id l) at 2.
    apply list_fmap_ext. intros n d _. apply newExtensionItem_extensionData.
  - done.
  - intros n. by rewrite list_lookup_fmap.
  - apply Forall_fmap, Forall_forall. intros d _. simpl.
    destruct (newExtensionItem_fresh d None) as (? & ? & ? & ? & _). done.
Qed.

(** C9, as stated: a matching call would change the status and the
    error message only. It also redraws the icon: marking the [Pending]
    item [pub.b] as [Success] replaces its icon, so the item is not the
    old one with the two fields set. *)
Lemma updateExtensionStatus_changes_icon :
  updateExtensionStatus "pub.b" Success None sampleCollection !! 1
    ≠ set_status Success None <$> sampleCollection !! 1 ∧
  iconPath <$> sampleCollection !! 1 = Some (mkThemeIcon "extensions" None) ∧
  iconPath <$> updateExtensionStatus "pub.b" Success None sampleCollection !! 1
    = Some (mkThemeIcon "check" (Some "testing.iconPassed")).
Proof. split_and!; [|done..]. vm_compute. discriminate. Qed.

(** C9, amended. [updateExtensionStatus] keeps the length and the order
    of the collection; with an id that no item has it changes nothing;
    otherwise it changes the first item with that id and no other, and of
    that item only the status, the error message and what [updateIcon]
    derives from the new status (the icon, and the click command when the
    status is [Failed]). *)
Theorem updateExtensionStatus_frame (i : string) (s : ExtensionStatus)
  (m : option string) (this : list ExtensionItem) :
  length (updateExtensionStatus i s m this) = length this ∧
  item_id <$> updateExtensionStatus i s m this = item_id <$> this ∧
  (i ∉ item_id <$> this → updateExtensionStatus i s m this = this) ∧
  (∀ n e, this !! n = Some e → item_id e = i →
     (∀ k e', k < n → this !! k = Some e' → item_id e' ≠ i) →
     updateExtensionStatus i s m this = <[n := markStatus s m e]> this ∧
     (∀ k, k ≠ n → updateExtensionStatus i s m this !! k = this !! k)) ∧
  (∀ e, status (markStatus s m e) = s ∧
        errorMessage (markStatus s m e) = m ∧
        extensionData (markStatus s m e) = extensionData e ∧
        selected (markStatus s m e) = selected e ∧
        checkboxState (markStatus s m e) = checkboxState e ∧
        settingsData (markStatus s m e) = settingsData e ∧
        label (markStatus s m e) = label e ∧
        itemDescription (markStatus s m e) = itemDescription e ∧
        tooltip (markStatus s m e) = tooltip e ∧
        contextValue (markStatus s m e) = contextValue e ∧
        (s ≠ Failed → itemCommand (markStatus s m e) = itemCommand e)).
Proof.
  split_and!.
  - apply updateExtensionStatus_length.
  - apply updateExtensionStatus_ids.
  - apply updateExtensionStatus_absent.
  - intros n e Hn Hid Hbefore.
    rewrite (updateExtensionStatus_first i s m this n e) by done.
    split; [done|]. intros k Hk. by rewrite list_lookup_insert_ne.
  - intros e. destruct (markStatus_presentation s m e) as (? & ? & ? & ?).
    split_and!; try done.
    + apply markStatus_status.
    + apply markStatus_errorMessage.
    + apply markStatus_extensionData.
    + apply markStatus_selected.
    + apply markStatus_checkboxState.
    + apply markStatus_settingsData.
    + by destruct s.
Qed.

Lemma updateExtensionStatus_frame_witness :
  updateExtensionStatus "pub.z" Failed (Some "boom") sampleCollection
    = sampleCollection ∧
  updateExtensionStatus "pub.b" Failed (Some "boom") sampleCollection
    = <[1 := markStatus Failed (Some "boom")
               (newExtensionItem (descriptor "pub.b") None)]>
        sampleCollection.
Proof.
  destruct (updateExtensionStatus_frame "pub.z" Failed (Some "boom")
              sampleCollection) as (_ & _ & Habsent & _).
  destruct (updateExtensionStatus_frame "pub.b" Failed (Some "boom")
              sampleCollection) as (_ & _ & _ & Hpresent & _).
  split.
  - apply Habsent. vm_compute. intros H.
    repeat (apply elem_of_cons in H as [H|H]; [discriminate H|]).
    by apply elem_of_nil in H.
  - apply (Hpresent 1 (newExtensionItem (descriptor "pub.b") None)).
    + reflexivity.
    + reflexivity.
    + intros k e' Hk He'. assert (k = 0) as -> by lia.
      vm_compute in He'. injection He' as <-. vm_compute. discriminate.
Defined.

(** C10. The checkbox of an item shows its selection: after
    construction, and in every collection reached through the store's
    operations; [updateExtensionStatus] touches neither field. *)
Theorem checkbox_mirrors_selected :
  (∀ d sd, checkboxInSync (newExtensionItem d sd)) ∧
  (∀ item state, checkboxInSync (handleCheckboxChange item state)) ∧
  (∀ this, reachable anyDescriptor this → Forall checkboxInSync this) ∧
  (∀ i s m this,
     selected <$> updateExtensionStatus i s m this = selected <$> this ∧
     checkboxState <$> updateExtensionStatus i s m this
       = checkboxState <$> this).
Proof.
  split_and!.
  - apply newExtensionItem_inSync.
  - intros item state. apply updateCheckbox_inSync.
  - induction 1.
    + constructor.
    + apply loadExtensions_inSync.
    + by apply addSettingsItem_inSync.
    + apply selectAll_inSync.
    + apply deselectAll_inSync.
    + by apply updateExtensionStatus_inSync.
    + by apply handleCheckboxChangeAt_inSync.
  - intros. split.
    + apply updateExtensionStatus_selected.
    + apply updateExtensionStatus_checkboxState.
Qed.

Lemma checkbox_mirrors_selected_witness :
  Forall checkboxInSync
    (handleCheckboxChangeAt 1 Unchecked
       (updateExtensionStatus "pub.a" Failed (Some "boom")
          (deselectAll (selectAll
             (addSettingsItem (Some (JObj ∅)) sampleCollection))))).
Proof.
  apply checkbox_mirrors_selected.
  apply reach_handleCheckboxChange, reach_updateExtensionStatus,
    reach_deselectAll, reach_selectAll, reach_addSettingsItem,
    reach_loadExtensions; [|apply reach_new].
  repeat constructor.
Defined.

(** *** The settings item *)

Section SettingsItem.

Implicit Types (this : list ExtensionItem) (e : ExtensionItem).

Lemma settingsCount_clean this :
  Forall (λ i, i ≠ SETTINGS) (item_id <$> this) → settingsCount this = 0.
Proof.
  unfold settingsCount.
  induction this as [|e rest IH]; csimpl; [done|].
  intros H. apply Forall_cons in H as [He Hrest].
  rewrite filter_cons_False by (intros ?; by apply He). by apply IH.
Qed.

Lemma tailClean_settingsFirst this :
  tailClean (item_id <$> this) → settingsFirst this.
Proof.
  unfold tailClean, settingsFirst.
  destruct this as [|e rest]; csimpl.
  - intros _. split; [unfold settingsCount; simpl; lia|].
    intros n x Hn. by rewrite lookup_nil in Hn.
  - intros Hrest. split.
    + pose proof (settingsCount_clean rest Hrest) as Hc.
      unfold settingsCount in *. rewrite filter_cons.
      destruct (decide (item_id e = SETTINGS)); simpl; lia.
    + intros [|n] x Hn Hx; [done|]. simpl in Hn.
      rewrite Forall_forall in Hrest. exfalso.
      apply (Hrest (item_id x)); [|done].
      apply list_elem_of_fmap. exists x. split; [done|].
      by apply list_elem_of_lookup_2 in Hn.
Qed.

Lemma newExtensionItem_id d sd : item_id (newExtensionItem d sd) = id d.
Proof. unfold item_id. by rewrite newExtensionItem_extensionData. Qed.

Lemma filter_not_settings_clean this :
  Forall (λ i, i ≠ SETTINGS)
    (item_id <$> filter (λ e, item_id e ≠ SETTINGS) this).
Proof.
  apply Forall_fmap, Forall_forall. intros x Hx.
  by apply list_elem_of_filter in Hx as [Hx _].
Qed.

Lemma addSettingsItem_ids_tailClean sd this :
  tailClean (item_id <$> addSettingsItem sd this).
Proof.
  unfold tailClean, addSettingsItem. csimpl.
  apply filter_not_settings_clean.
Qed.

Lemma selectAll_ids this : item_id <$> selectAll this = item_id <$> this.
Proof.
  unfold selectAll. rewrite <- list_fmap_compose. by apply list_fmap_ext.
Qed.

Lemma deselectAll_ids this : item_id <$> deselectAll this = item_id <$> this.
Proof.
  unfold deselectAll. rewrite <- list_fmap_compose. by apply list_fmap_ext.
Qed.

Lemma handleCheckboxChangeAt_ids n state this :
  item_id <$> handleCheckboxChangeAt n state this = item_id <$> this.
Proof.
  unfold handleCheckboxChangeAt.
  destruct (this !! n) as [item|] eqn:Hn; [|done].
  rewrite list_fmap_insert. apply list_insert_id.
  by rewrite list_lookup_fmap, Hn.
Qed.

Lemma reachable_tailClean this :
  reachable notReserved this → tailClean (item_id <$> this).
Proof.
  induction 1 as [|l this Hl _ _| | | | |].
  - constructor.
  - unfold tailClean, loadExtensions. rewrite <- list_fmap_compose.
    destruct l as [|d l]; csimpl; [constructor|].
    apply Forall_cons in Hl as [_ Hl].
    apply Forall_fmap. eapply Forall_impl; [exact Hl|].
    intros x Hx. simpl. by rewrite newExtensionItem_id.
  - apply addSettingsItem_ids_tailClean.
  - by rewrite selectAll_ids.
  - by rewrite deselectAll_ids.
  - by rewrite updateExtensionStatus_ids.
  - by rewrite handleCheckboxChangeAt_ids.
Qed.

Lemma filter_not_settings_addSettingsItem sd this :
  filter (λ e, item_id e ≠ SETTINGS) (addSettingsItem sd this)
  = filter (λ e, item_id e ≠ SETTINGS) this.
Proof.
  unfold addSettingsItem.
  rewrite filter_cons_False by (intros H; by apply H, newExtensionItem_id).
  rewrite list_filter_filter. apply list_filter_iff. tauto.
Qed.

Lemma filter_not_settings_addSettingsItems sds this :
  filter (λ e, item_id e ≠ SETTINGS) (addSettingsItems sds this)
  = filter (λ e, item_id e ≠ SETTINGS) this.
Proof.
  unfold addSettingsItems. revert this.
  induction sds as [|sd sds IH]; intros this; simpl; [done|].
  by rewrite IH, filter_not_settings_addSettingsItem.
Qed.

Lemma addSettingsItems_last sds sd this :
  addSettingsItems (sds ++ [sd]) this
  = newExtensionItem settingsDescriptor sd
      :: filter (λ e, item_id e ≠ SETTINGS) this.
Proof.
  unfold addSettingsItems. rewrite foldl_app. simpl.
  unfold addSettingsItem at 1. f_equal.
  apply filter_not_settings_addSettingsItems.
Qed.

End SettingsItem.

(** C5, as stated: the invariant would hold in every reachable
    collection. Nothing keeps a raw descriptor from carrying the reserved
    id: loading [pub.a] and then [settings] gives a reachable collection
    whose settings item is in slot 1, not in slot 0. *)
Lemma settings_invariant_broken_by_load :
  let this := loadExtensions [descriptor "pub.a"; descriptor "settings"] [] in
  reachable anyDescriptor this ∧ ¬ settingsFirst this ∧
  item_id <$> this !! 1 = Some SETTINGS ∧
  contextValue <$> this !! 1 = Some "settingsItem".
Proof.
  split_and!.
  - apply reach_loadExtensions; [by repeat constructor | constructor].
  - intros [_ H]. specialize (H 1 _ eq_refl eq_refl). discriminate H.
  - reflexivity.
  - reflexivity.
Qed.

(** C5, amended. In every collection reached while no raw descriptor
    handed to [loadExtensions] carries the reserved id, at most one item
    has it and that item is in slot 0. From any collection at all, one or
    more calls of [addSettingsItem] leave exactly one settings item, in
    slot 0, holding the payload of the last call, in front of the
    non-settings items in their former order. *)
Theorem settings_item_single_and_first :
  (∀ this, reachable notReserved this → settingsFirst this) ∧
  (∀ sds sd this,
     let after := addSettingsItems (sds ++ [sd]) this in
     after = newExtensionItem settingsDescriptor sd
               :: filter (λ e, item_id e ≠ SETTINGS) this ∧
     settingsFirst after ∧ settingsCount after = 1 ∧
     item_id <$> after !! 0 = Some SETTINGS ∧
     settingsData <$> after !! 0 = Some sd ∧
     filter (λ e, item_id e ≠ SETTINGS) after
       = filter (λ e, item_id e ≠ SETTINGS) this).
Proof.
  split.
  - intros this H. by apply tailClean_settingsFirst, reachable_tailClean.
  - intros sds sd this after. subst after.
    rewrite addSettingsItems_last. split_and!.
    + done.
    + apply tailClean_settingsFirst. unfold tailClean. csimpl.
      apply filter_not_settings_clean.
    + unfold settingsCount.
      rewrite filter_cons_True by apply newExtensionItem_id.
      simpl. f_equal.
      apply (settingsCount_clean _ (filter_not_settings_clean this)).
    + change (Some (item_id (newExtensionItem settingsDescriptor sd))
              = Some SETTINGS).
      by rewrite newExtensionItem_id.
    + change (Some (settingsData (newExtensionItem settingsDescriptor sd))
              = Some sd).
      by destruct (newExtensionItem_fresh settingsDescriptor sd)
        as (_ & _ & _ & _ & ->).
    + rewrite filter_cons_False
        by (intros H; by apply H, newExtensionItem_id).
      rewrite list_filter_filter. apply list_filter_iff. tauto.
Qed.

Lemma settings_item_single_and_first_witness :
  settingsFirst
    (selectAll (addSettingsItem (Some (JNum 2))
       (addSettingsItem (Some (JNum 1)) sampleCollection))).
Proof.
  apply settings_item_single_and_first.
  apply reach_selectAll, reach_addSettingsItem, reach_addSettingsItem,
    reach_loadExtensions; [|apply reach_new].
  repeat constructor; vm_compute; discriminate.
Defined.

(** ** The [loadFile] command *)

(** C8, as stated: every parsed value that is neither a list nor the
    full object shape would be rejected. A number (or an object without
    [extensions]) has no such property, [data.extensions || []] is then
    the empty list, and the command loads it: no error is shown and the
    three items of the collection are gone. *)
Lemma loadFile_accepts_value_without_extensions :
  loadFileCommand (ReadOk (DValue None None)) sampleCollection
    = ([], [ShowInformationMessage "Loaded 0 extensions."]) ∧
  length sampleCollection = 3.
Proof. split; reflexivity. Qed.

(** C8, amended. The parsed values the command rejects are [undefined],
    [null] and the non-arrays whose [extensions] property is truthy
    without being an array; for those, and when the file cannot be read,
    an error message is shown and the collection is left as it was. A
    non-array whose [extensions] is missing or falsy is not rejected: it
    is loaded as an empty list of extensions. *)
Theorem loadFile_format_error (data : FileData) (this : list ExtensionItem) :
  ((∃ e, extensionsOf data = inl e) ↔
     data = DUndefined ∨ data = DNull ∨
     ∃ s, data = DValue (Some (XOther true)) s) ∧
  (∀ e, extensionsOf data = inl e →
     loadFileCommand (ReadOk data) this
       = (this, [ShowErrorMessage ("Error loading file: " +:+ e)])) ∧
  (∀ e, loadFileCommand (ReadThrows e) this
          = (this, [ShowErrorMessage ("Error loading file: " +:+ e)])) ∧
  (∀ x s, data = DValue x s → x = None ∨ x = Some (XOther false) →
     (loadFileCommand (ReadOk data) this).1
       = if json_truthy s then addSettingsItem s [] else []).
Proof.
  split_and!.
  - split.
    + intros [e He].
      destruct data as [| | l | [[l | []] |] s]; simpl in He;
        try discriminate He; eauto.
    + intros [-> | [-> | [s ->]]]; simpl; eauto.
  - intros e He. unfold loadFileCommand. by rewrite He.
  - done.
  - intros x s -> [-> | ->]; simpl; by destruct (json_truthy s).
Qed.

Lemma loadFile_format_error_witness :
  loadFileCommand (ReadOk DNull) sampleCollection
    = (sampleCollection,
       [ShowErrorMessage
          ("Error loading file: " +:+ typeErrorText "null")]).
Proof.
  destruct (loadFile_format_error DNull sampleCollection) as (_ & H & _).
  apply H. reflexivity.
Defined.

(** ** The settings phase *)

Lemma cancelChecksOf_app (a b : list Event) :
  cancelChecksOf (a ++ b) = cancelChecksOf a ++ cancelChecksOf b.
Proof. unfold cancelChecksOf. apply omap_app. Qed.

Lemma execsOf_app (a b : list Event) :
  execsOf (a ++ b) = execsOf a ++ execsOf b.
Proof. unfold execsOf. apply omap_app. Qed.

Lemma summaryOf_app (a b : list Event) :
  summaryOf (a ++ b) = summaryOf a ++ summaryOf b.
Proof. unfold summaryOf. apply omap_app. Qed.

Lemma outputOf_app (a b : list Event) :
  outputOf (a ++ b) = outputOf a ++ outputOf b.
Proof. unfold outputOf. apply omap_app. Qed.

Lemma writesOf_app (a b : list Event) :
  writesOf (a ++ b) = writesOf a ++ writesOf b.
Proof. unfold writesOf. apply omap_app. Qed.

Lemma readCurrentSettings_writes_nothing (h : Host) (p : string) :
  writesOf (readCurrentSettings h p).2 = [].
Proof.
  unfold readCurrentSettings.
  destruct (existsSync h p); [|done]. by destruct (readJsonc h p).
Qed.

(** ** The CLI resolver *)

Lemma isKnownEditor_spec (lower : string → string) (f : string) :
  isKnownEditor lower f
  = bool_decide (lower (Js.parse_name f) ∈ ["code"; "cursor"; "codium"]).
Proof.
  unfold isKnownEditor.
  generalize (lower (Js.parse_name f)). intros name.
  destruct (decide (name = "code")) as [->|H1]; [done|].
  destruct (decide (name = "cursor")) as [->|H2]; [done|].
  destruct (decide (name = "codium")) as [->|H3]; [done|].
  rewrite (bool_decide_false (name = "code")) by done.
  rewrite (bool_decide_false (name = "cursor")) by done.
  rewrite (bool_decide_false (name = "codium")) by done.
  symmetry. apply bool_decide_false. intros H.
  repeat (apply elem_of_cons in H as [H|H]; [done|]).
  by apply elem_of_nil in H.
Qed.

Lemma find_ext {A} (f g : A → bool) (l : list A) :
  (∀ x, f x = g x) → List.find f l = List.find g l.
Proof.
  intros H. induction l as [|x l IH]; simpl; [done|]. by rewrite H, IH.
Qed.

Lemma truthy_nonempty (s : string) : s ≠ EmptyString → Js.truthy s = true.
Proof. intros H. unfold Js.truthy. by rewrite bool_decide_false. Qed.

Lemma bestMatch_spec (lower : string → string) (files : list string)
  (appName : string) :
  EmptyString ∉ files →
  bestMatch lower (List.filter isCandidate files) appName
  = default EmptyString (spec_resolve lower files appName) ∧
  (Js.truthy (bestMatch lower (List.filter isCandidate files) appName)
   = bool_decide (is_Some (spec_resolve lower files appName))).
Proof.
  intros Hne. unfold spec_resolve. fold isCandidate.
  change (List.filter (λ f, negb (Js.startsWith f ".")
                            && negb (Js.includes f "tunnel")) files)
    with (List.filter isCandidate files).
  assert (∀ c, In c (List.filter isCandidate files) → c ≠ EmptyString)
    as Hcand.
  { intros c Hc ->. apply filter_In in Hc as [Hc _].
    by apply Hne, list_elem_of_In. }
  set (cands := List.filter isCandidate files) in *.
  rewrite <- (find_ext (isKnownEditor lower) _ cands
                (isKnownEditor_spec lower)).
  change (List.find (λ f, Js.includes (lower appName)
                            (lower (Js.parse_name f))) cands)
    with (List.find (matchesAppName lower appName) cands).
  unfold bestMatch.
  destruct cands as [|first rest] eqn:Hc; [done|].
  destruct (List.find (matchesAppName lower appName) (first :: rest))
    as [c|] eqn:Hfind.
  - apply find_some in Hfind as [Hin _]. apply Hcand in Hin.
    simpl. rewrite !(truthy_nonempty c Hin).
    by rewrite ?bool_decide_true.
  - destruct (List.find (isKnownEditor lower) (first :: rest))
      as [c|] eqn:Hknown.
    + apply find_some in Hknown as [Hin _]. apply Hcand in Hin.
      simpl. rewrite !(truthy_nonempty c Hin). by rewrite ?bool_decide_true.
    + simpl. rewrite truthy_nonempty by (apply Hcand; by left).
      by rewrite ?bool_decide_true.
Qed.

(** C3, as stated: the resolver would return the chosen name, and would
    fall back on the override only when no candidate remains. It returns
    the quoted path of the chosen name in the bin directory, and it looks
    at the directory only when the override is unset or "auto": any other
    override is returned whatever the directory holds. *)
Lemma getCLIPath_returns_quoted_path :
  getCLIPath (plainHost None ["code"; "code-tunnel"; ".hidden"; "cursor"]
                "Cursor")
    = Js.dquote +:+ "/app/bin/cursor" +:+ Js.dquote ∧
  getCLIPath (plainHost None ["code"; "code-tunnel"; ".hidden"; "cursor"]
                "Cursor") ≠ "cursor" ∧
  getCLIPath (plainHost (Some "auto") ["code.cmd"] "Foo") ≠ "code.cmd" ∧
  getCLIPath (plainHost (Some "my-editor") ["code"] "Code") = "my-editor".
Proof.
  split_and!; [reflexivity | | | reflexivity]; vm_compute; discriminate.
Qed.

(** C3, amended. [getCLIPath] is a function of the override, the
    directory listing, the host name and the location of the bin
    directory. An override other than "auto" (or unset) is returned
    unchanged without looking at the directory. Otherwise the listing is
    resolved by the stated algorithm, names and host name lowered by the
    runtime's [toLowerCase], and the result is the chosen name's path in
    the bin directory, in double quotes; with no candidate left, no bin
    directory or an unreadable one, the override "auto" is returned
    unchanged. With a lowering that lowers ASCII text as ASCII, as the
    runtime's does, the algorithm chooses "cursor" among
    ["code"; "code-tunnel"; ".hidden"; "cursor"] for host "Cursor" and
    "code.cmd" in ["code.cmd"] for host "Foo". *)
Theorem getCLIPath_resolution (h : Host) :
  let override := Js.or_else (cliCommand h) "auto" in
  let binDir := path_join h (appRoot h) "bin" in
  (override ≠ "auto" → getCLIPath h = override) ∧
  (override = "auto" →
   existsSync h binDir = false ∨ readdirSync h binDir = None →
   getCLIPath h = "auto") ∧
  (∀ files, override = "auto" → existsSync h binDir = true →
     readdirSync h binDir = Some files → EmptyString ∉ files →
     getCLIPath h
       = match spec_resolve (toLowerCase h) files
                 (Js.or_else (appName h) EmptyString) with
         | Some f => Js.dquote +:+ path_join h binDir f +:+ Js.dquote
         | None => "auto"
         end) ∧
  (∀ lower : string → string,
     (∀ s, Js.isAscii s = true → lower s = Js.toLowerCase s) →
     spec_resolve lower ["code"; "code-tunnel"; ".hidden"; "cursor"]
       "Cursor" = Some "cursor" ∧
     spec_resolve lower ["code.cmd"] "Foo" = Some "code.cmd") ∧
  (∀ lower hostName, spec_resolve lower [] hostName = None).
Proof.
  intros override binDir. split_and!; try reflexivity.
  - intros Hov. unfold getCLIPath. fold override.
    by rewrite bool_decide_false.
  - intros Hov Hdir. unfold getCLIPath. fold override binDir.
    rewrite bool_decide_true by done.
    destruct Hdir as [-> | Hread]; [by rewrite Hov|].
    rewrite Hread. by destruct (existsSync h binDir).
  - intros files Hov Hex Hread Hne. unfold getCLIPath.
    fold override binDir. rewrite bool_decide_true by done.
    rewrite Hex, Hread.
    destruct (bestMatch_spec (toLowerCase h) files
                (Js.or_else (appName h) EmptyString) Hne)
      as [Hbest Htruthy].
    rewrite Htruthy, Hbest, Hov.
    by destruct (spec_resolve (toLowerCase h) files
                   (Js.or_else (appName h) EmptyString)).
  - intros lower Hlower.
    assert (lower "Cursor" = "cursor") as HCursor by by rewrite Hlower.
    assert (lower "Foo" = "foo") as HFoo by by rewrite Hlower.
    assert (lower "code" = "code") as Hcode by by rewrite Hlower.
    assert (lower "cursor" = "cursor") as Hcursor by by rewrite Hlower.
    unfold spec_resolve.
    change (List.filter _ ["code"; "code-tunnel"; ".hidden"; "cursor"])
      with ["code"; "cursor"].
    change (List.filter _ ["code.cmd"]) with ["code.cmd"].
    cbn [List.find].
    change (Js.parse_name "code") with "code".
    change (Js.parse_name "cursor") with "cursor".
    change (Js.parse_name "code.cmd") with "code".
    rewrite HCursor, HFoo, Hcode, Hcursor. split; reflexivity.
Qed.

Lemma getCLIPath_resolution_witness :
  getCLIPath (plainHost None ["code"; "code-tunnel"; ".hidden"; "cursor"]
                "Cursor")
  = match spec_resolve Js.toLowerCase
            ["code"; "code-tunnel"; ".hidden"; "cursor"] "Cursor" with
    | Some f => Js.dquote +:+ posix_join "/app/bin" f +:+ Js.dquote
    | None => "auto"
    end ∧
  spec_resolve Js.toLowerCase ["code"; "code-tunnel"; ".hidden"; "cursor"]
    "Cursor" = Some "cursor".
Proof.
  destruct (getCLIPath_resolution
              (plainHost None ["code"; "code-tunnel"; ".hidden"; "cursor"]
                 "Cursor")) as (_ & _ & H & Hexamples & _).
  split.
  - apply H; try reflexivity.
    intros Hin.
    repeat (apply elem_of_cons in Hin as [Hin|Hin]; [discriminate Hin|]).
    by apply elem_of_nil in Hin.
  - destruct (Hexamples Js.toLowerCase) as [Hfirst _]; [|exact Hfirst].
    intros s _. reflexivity.
Defined.

(** ** The installer workflow *)

Section Touch.

Implicit Types (this : list ExtensionItem) (e : ExtensionItem).
Implicit Types (f g : ExtensionItem → ExtensionItem).

Lemma touch_absent f i this :
  i ∉ item_id <$> this → touch f i this = this.
Proof.
  unfold touch. induction this as [|e rest IH]; csimpl; [done|].
  intros Hno. apply not_elem_of_cons in Hno as [Hne Hno].
  rewrite bool_decide_false by congruence. by rewrite IH.
Qed.

Lemma updateExtensionStatus_touch i s m this :
  NoDup (item_id <$> this) →
  updateExtensionStatus i s m this = touch (markStatus s m) i this.
Proof.
  induction this as [|e rest IH]; csimpl; [done|].
  intros Hnd. apply NoDup_cons in Hnd as [Hnotin Hnd].
  unfold touch. csimpl. case_bool_decide as He.
  - f_equal. symmetry. apply touch_absent. by rewrite <- He.
  - f_equal. by apply IH.
Qed.

Lemma touch_ids f i this :
  keeps_identity f → item_id <$> touch f i this = item_id <$> this.
Proof.
  intros Hf. unfold touch. rewrite <- list_fmap_compose.
  apply list_fmap_ext. intros n e _. simpl.
  case_bool_decide; [apply Hf | done].
Qed.

Lemma touch_touch f g i this :
  keeps_identity g →
  touch f i (touch g i this) = touch (f ∘ g) i this.
Proof.
  intros Hg. unfold touch. rewrite <- list_fmap_compose.
  apply list_fmap_ext. intros n e _. simpl.
  destruct (decide (item_id e = i)) as [He|He].
  - rewrite !(bool_decide_true (item_id e = i)) by done.
    by rewrite bool_decide_true by (by rewrite (proj1 (Hg e))).
  - by rewrite !(bool_decide_false (item_id e = i)) by done.
Qed.

Lemma touch_extensionItemsOf f i this :
  keeps_identity f →
  extensionItemsOf (touch f i this) = touch f i (extensionItemsOf this).
Proof.
  intros Hf. unfold extensionItemsOf, getSelectedExtensions, touch.
  induction this as [|e rest IH]; [done|]. csimpl.
  assert (selected (if bool_decide (item_id e = i) then f e else e)
          = selected e) as Hsel by (case_bool_decide; [apply Hf | done]).
  assert (item_id (if bool_decide (item_id e = i) then f e else e)
          = item_id e) as Hid by (case_bool_decide; [apply Hf | done]).
  rewrite !filter_cons, Hsel.
  destruct (decide (selected e = true)) as [Hs|Hs]; [|apply IH].
  rewrite !filter_cons, Hid.
  destruct (decide (item_id e ≠ SETTINGS)); [|apply IH].
  csimpl. f_equal. apply IH.
Qed.

Lemma touch_middle f a e b :
  NoDup (item_id <$> (a ++ e :: b)) →
  touch f (item_id e) (a ++ e :: b) = a ++ f e :: b.
Proof.
  rewrite fmap_app, fmap_cons. intros Hnd.
  apply NoDup_app in Hnd as (_ & Ha & Hb).
  apply NoDup_cons in Hb as [Hb _].
  unfold touch. rewrite fmap_app, fmap_cons.
  rewrite bool_decide_true by done. f_equal; [|f_equal].
  - apply (touch_absent f (item_id e) a). intros Hin.
    apply (Ha _ Hin). by left.
  - by apply (touch_absent f (item_id e) b).
Qed.

Lemma touch_keeps_others f i (P : ExtensionItem → Prop)
  `{∀ e, Decision (P e)} this :
  (∀ e, P e → item_id e ≠ i) → (∀ e, item_id e = i → ¬ P (f e)) →
  filter P (touch f i this) = filter P this.
Proof.
  intros HP Hf. unfold touch.
  induction this as [|e rest IH]; [done|]. csimpl.
  rewrite !filter_cons. case_bool_decide as He.
  - rewrite decide_False by by apply Hf.
    rewrite decide_False by (intros Hp; by apply (HP e)). apply IH.
  - destruct (decide (P e)); by rewrite IH.
Qed.

Lemma markStatus_keeps_identity s m : keeps_identity (markStatus s m).
Proof.
  intros e. split; [apply markStatus_id | apply markStatus_selected].
Qed.

Lemma outcomeFor_keeps_identity h cliPath i :
  keeps_identity (outcomeFor h cliPath i).
Proof.
  intros e. unfold outcomeFor.
  destruct (getExtension h i); [apply markStatus_keeps_identity|].
  destruct (execError _);
    by rewrite !markStatus_id, !markStatus_selected.
Qed.

Lemma NoDup_extensionItemsOf this :
  NoDup (item_id <$> this) → NoDup (item_id <$> extensionItemsOf this).
Proof.
  intros Hnd. eapply sublist_NoDup; [exact Hnd|].
  apply fmap_sublist. unfold extensionItemsOf, getSelectedExtensions.
  etrans; apply sublist_filter.
Qed.

End Touch.

#[global] Arguments stepEvents : simpl never.

Section Loop.

Variables (h : Host) (cliPath : string) (total : nat).

Implicit Types (s : RunState) (items : list ExtensionItem).

Lemma installExtension_success i :
  success (installExtension h i cliPath).2
  = bool_decide (execError (exec h (installCommand cliPath i)) = None) ∧
  error (installExtension h i cliPath).2
  = execError (exec h (installCommand cliPath i)).
Proof. unfold installExtension. by destruct (execError _). Qed.

Lemma installStep_exts i ext s :
  NoDup (item_id <$> exts s) →
  exts (installStep h cliPath total i ext s)
  = touch (outcomeFor h cliPath (item_id ext)) (item_id ext) (exts s).
Proof.
  intros Hnd. unfold installStep, outcomeFor. fold (item_id ext).
  destruct (getExtension h (item_id ext)); simpl.
  { by apply updateExtensionStatus_touch. }
  destruct (installExtension_success (item_id ext)) as [Hs He].
  destruct (installExtension h (item_id ext) cliPath) as [evs result].
  simpl in Hs, He. rewrite Hs.
  assert (NoDup (item_id <$> updateExtensionStatus (item_id ext) Installing
                               None (exts s))) as Hnd'
    by by rewrite updateExtensionStatus_ids.
  destruct (execError _) as [message|] eqn:Hexec; simpl.
  - rewrite He. rewrite updateExtensionStatus_touch by done.
    rewrite updateExtensionStatus_touch by done.
    apply touch_touch, markStatus_keeps_identity.
  - rewrite updateExtensionStatus_touch by done.
    rewrite updateExtensionStatus_touch by done.
    apply touch_touch, markStatus_keeps_identity.
Qed.

Lemma installStep_trace i ext s :
  trace (installStep h cliPath total i ext s)
  = trace s ++ stepEvents h cliPath total i ext.
Proof.
  unfold installStep, stepEvents. fold (item_id ext).
  destruct (getExtension h (item_id ext)); simpl; [done|].
  destruct (installExtension h (item_id ext) cliPath) as [evs result].
  simpl. destruct (success result); simpl; by rewrite <- !app_assoc.
Qed.

Lemma installStep_installedCount i ext s :
  installedCount (installStep h cliPath total i ext s)
  = installedCount s + (if installs h cliPath ext then 1 else 0).
Proof.
  unfold installStep, installs. fold (item_id ext).
  destruct (getExtension h (item_id ext)); simpl; [lia|].
  destruct (installExtension_success (item_id ext)) as [Hs _].
  destruct (installExtension h (item_id ext) cliPath) as [evs result].
  simpl in Hs. rewrite Hs. case_bool_decide; simpl; lia.
Qed.

Lemma installLoop_exts items : ∀ i s done,
  NoDup (item_id <$> exts s) →
  extensionItemsOf (exts s) = done ++ items →
  let k := iterationsRun (isCancellationRequested h) i (length items) in
  let r := installLoop h cliPath total i items s in
  NoDup (item_id <$> exts r) ∧
  extensionItemsOf (exts r)
  = done ++ (outcome h cliPath <$> take k items) ++ drop k items ∧
  filter (λ e, item_id e = SETTINGS) (exts r)
  = filter (λ e, item_id e = SETTINGS) (exts s).
Proof.
  induction items as [|ext rest IH]; intros i s done Hnd Hitems; simpl.
  { by rewrite app_nil_r in *. }
  destruct (isCancellationRequested h i); simpl; [done|].
  assert (item_id ext ≠ SETTINGS) as Hext.
  { assert (ext ∈ extensionItemsOf (exts s)) as Hin
      by (rewrite Hitems; apply elem_of_app; right; by left).
    unfold extensionItemsOf in Hin.
    by apply list_elem_of_filter in Hin as [Hin _]. }
  pose proof (outcomeFor_keeps_identity h cliPath (item_id ext)) as Hkeep.
  assert (exts (installStep h cliPath total i ext
                  (emit [CancelCheck i] s))
          = touch (outcomeFor h cliPath (item_id ext)) (item_id ext)
              (exts s)) as Hstep by by rewrite installStep_exts.
  destruct (IH (S i) (installStep h cliPath total i ext
                        (emit [CancelCheck i] s))
              (done ++ [outcome h cliPath ext])) as (Hnd' & Hres & Hset).
  - by rewrite Hstep, touch_ids.
  - rewrite Hstep, touch_extensionItemsOf, Hitems by done.
    rewrite touch_middle.
    + by rewrite <- app_assoc.
    + rewrite <- Hitems. by apply NoDup_extensionItemsOf.
  - split_and!; [done| |].
    + rewrite Hres. by rewrite <- app_assoc.
    + rewrite Hset, Hstep. apply touch_keeps_others.
      * intros e ->. done.
      * intros e He. rewrite (proj1 (Hkeep e)), He. done.
Qed.

Lemma installLoop_installedCount items : ∀ i s,
  let k := iterationsRun (isCancellationRequested h) i (length items) in
  installedCount (installLoop h cliPath total i items s)
  = installedCount s
    + length (List.filter (installs h cliPath) (take k items)).
Proof.
  induction items as [|ext rest IH]; intros i s; simpl; [lia|].
  destruct (isCancellationRequested h i); simpl; [lia|].
  rewrite IH, installStep_installedCount. simpl.
  destruct (installs h cliPath ext); simpl; lia.
Qed.

Lemma installLoop_trace items : ∀ i s,
  let k := iterationsRun (isCancellationRequested h) i (length items) in
  trace (installLoop h cliPath total i items s)
  = trace s ++ iterationEvents h cliPath total i (take k items)
    ++ (if bool_decide (k < length items)
        then [CancelCheck (i + k); AppendLine "Operation cancelled."]
        else []).
Proof.
  induction items as [|ext rest IH]; intros i s; simpl.
  { by rewrite app_nil_r. }
  destruct (isCancellationRequested h i); simpl.
  { rewrite Nat.add_0_r. by rewrite <- app_assoc. }
  rewrite IH, installStep_trace. simpl.
  rewrite <- !app_assoc. simpl. do 4 f_equal.
  rewrite Nat.add_succ_r.
  rewrite (bool_decide_ext (S (iterationsRun (isCancellationRequested h)
                                 (S i) (length rest)) < S (length rest))
             (iterationsRun (isCancellationRequested h) (S i)
                (length rest) < length rest)) by lia.
  done.
Qed.

Lemma stepEvents_no_check i ext :
  cancelChecksOf (stepEvents h cliPath total i ext) = [].
Proof.
  unfold stepEvents, installExtension, cancelChecksOf.
  destruct (getExtension h (item_id ext)); [done|].
  destruct (execError _); simpl;
    [destruct (Js.truthy (stderr _)) | destruct (Js.truthy (stdout _))];
    done.
Qed.

Lemma stepEvents_execs i ext :
  execsOf (stepEvents h cliPath total i ext)
  = option_list (installOf h cliPath ext).
Proof.
  unfold stepEvents, installExtension, execsOf, installOf.
  destruct (getExtension h (item_id ext)); [done|].
  destruct (execError _); simpl;
    [destruct (Js.truthy (stderr _)) | destruct (Js.truthy (stdout _))];
    done.
Qed.

Lemma iterationEvents_checks items : ∀ i,
  cancelChecksOf (iterationEvents h cliPath total i items)
  = seq i (length items).
Proof.
  induction items as [|ext rest IH]; intros i; [done|].
  cbn [iterationEvents length seq].
  rewrite cancelChecksOf_app, IH.
  change (cancelChecksOf (CancelCheck i :: stepEvents h cliPath total i ext))
    with (i :: cancelChecksOf (stepEvents h cliPath total i ext)).
  by rewrite stepEvents_no_check.
Qed.

Lemma iterationEvents_execs items : ∀ i,
  execsOf (iterationEvents h cliPath total i items)
  = omap (installOf h cliPath) items.
Proof.
  induction items as [|ext rest IH]; intros i; [done|].
  cbn [iterationEvents omap list_omap].
  rewrite execsOf_app, IH.
  change (execsOf (CancelCheck i :: stepEvents h cliPath total i ext))
    with (execsOf (stepEvents h cliPath total i ext)).
  rewrite stepEvents_execs.
  by destruct (installOf h cliPath ext).
Qed.

End Loop.

Section Command.

Variable h : Host.

Implicit Types (s : RunState) (this : list ExtensionItem).

Lemma settingsPhase_exts_cases si s :
  exts (settingsPhase h si s) = exts s ∨
  ∃ st m, exts (settingsPhase h si s)
          = updateExtensionStatus SETTINGS st m (exts s).
Proof.
  unfold settingsPhase. destruct si as [item|]; [|by left].
  destruct (json_truthy (settingsData item)); [|by left].
  destruct (readCurrentSettings h (getSettingsPath h)) as [cur warn].
  destruct (writeFileSync h _ _); right; eauto.
Qed.

Lemma settingsPhase_trace si s :
  trace (settingsPhase h si s) = trace s ++ settingsEvents h si.
Proof.
  unfold settingsPhase, settingsEvents.
  destruct si as [item|]; [|by rewrite app_nil_r].
  destruct (json_truthy (settingsData item)); [|by rewrite app_nil_r].
  destruct (readCurrentSettings h (getSettingsPath h)) as [cur warn].
  simpl. destruct (writeFileSync h _ _); simpl;
    by rewrite <- !app_assoc.
Qed.

Lemma settingsPhase_installedCount si s :
  installedCount (settingsPhase h si s) = installedCount s.
Proof.
  unfold settingsPhase. destruct si as [item|]; [|done].
  destruct (json_truthy (settingsData item)); [|done].
  destruct (readCurrentSettings h (getSettingsPath h)) as [cur warn].
  by destruct (writeFileSync h _ _).
Qed.

Lemma settingsPhase_failed item s message :
  json_truthy (settingsData item) = true →
  writeFileSync h (getSettingsPath h)
    (spread2 (readCurrentSettings h (getSettingsPath h)).1
       (settingsData item)) = Some message →
  exts (settingsPhase h (Some item) s)
  = updateExtensionStatus SETTINGS Failed (Some message) (exts s).
Proof.
  intros Htruthy Hw. unfold settingsPhase. rewrite Htruthy.
  destruct (readCurrentSettings h (getSettingsPath h)) as [cur warn].
  simpl in Hw. by rewrite Hw.
Qed.

Lemma extensionItemsOf_update_settings st m this :
  extensionItemsOf (updateExtensionStatus SETTINGS st m this)
  = extensionItemsOf this.
Proof.
  unfold extensionItemsOf, getSelectedExtensions.
  induction this as [|e rest IH]; [done|]. csimpl.
  case_bool_decide as He.
  - rewrite !filter_cons, markStatus_selected.
    destruct (decide (selected e = true)); [|done].
    rewrite !filter_cons, markStatus_id.
    by rewrite !decide_False by (intros Hne; by apply Hne).
  - rewrite !filter_cons.
    destruct (decide (selected e = true)); [|done].
    rewrite !filter_cons. by rewrite IH.
Qed.

Lemma settingsPhase_extensionItems si s :
  extensionItemsOf (exts (settingsPhase h si s))
  = extensionItemsOf (exts s).
Proof.
  destruct (settingsPhase_exts_cases si s) as [-> | (st & m & ->)];
    [done | apply extensionItemsOf_update_settings].
Qed.

Lemma settingsPhase_ids si s :
  item_id <$> exts (settingsPhase h si s) = item_id <$> exts s.
Proof.
  destruct (settingsPhase_exts_cases si s) as [-> | (st & m & ->)];
    [done | apply updateExtensionStatus_ids].
Qed.

Lemma settingsEvents_quiet si :
  cancelChecksOf (settingsEvents h si) = [] ∧
  execsOf (settingsEvents h si) = [] ∧
  summaryOf (settingsEvents h si) = [].
Proof.
  unfold settingsEvents. destruct si as [item|]; [|done].
  destruct (json_truthy (settingsData item)); [|done].
  unfold readCurrentSettings.
  destruct (existsSync h (getSettingsPath h)); [|done].
  by destruct (readJsonc h (getSettingsPath h)).
Qed.

Lemma iterationsRun_le cancel : ∀ n i, iterationsRun cancel i n ≤ n.
Proof.
  induction n as [|n IH]; intros i; simpl; [done|].
  destruct (cancel i); [lia|]. specialize (IH (S i)). lia.
Qed.

Lemma iterationsRun_all cancel : ∀ n i,
  (∀ j, j < n → cancel (i + j) = false) → iterationsRun cancel i n = n.
Proof.
  induction n as [|n IH]; intros i Hc; simpl; [done|].
  rewrite <- (Nat.add_0_r i) at 1. rewrite Hc by lia.
  f_equal. apply IH. intros j Hj.
  replace (S i + j) with (i + S j) by lia. apply Hc. lia.
Qed.

Lemma iterationsRun_first cancel : ∀ n i k,
  k < n → (∀ j, j < k → cancel (i + j) = false) →
  cancel (i + k) = true → iterationsRun cancel i n = k.
Proof.
  induction n as [|n IH]; intros i k Hk Hbefore Hat; [lia|]. simpl.
  destruct k as [|k].
  - rewrite Nat.add_0_r in Hat. by rewrite Hat.
  - rewrite <- (Nat.add_0_r i) at 1. rewrite Hbefore by lia.
    f_equal. apply IH; [lia| |].
    + intros j Hj. replace (S i + j) with (i + S j) by lia.
      apply Hbefore. lia.
    + by replace (S i + k) with (i + S k) by lia.
Qed.

(** The extension items after the run: the iterations that ran left
    their outcome, the others left their item alone. *)
Lemma installSelected_items this :
  NoDup (item_id <$> this) →
  let items := extensionItemsOf this in
  let k := iterationsRun (isCancellationRequested h) 0 (length items) in
  extensionItemsOf (exts (installSelectedCommand h this))
  = (outcome h (getCLIPath h) <$> take k items) ++ drop k items.
Proof.
  intros Hnd items k. unfold installSelectedCommand.
  case_bool_decide as Hsel.
  - simpl. apply length_zero_iff_nil in Hsel.
    assert (items = []) as Hnil
      by (unfold items, extensionItemsOf; by rewrite Hsel).
    subst k. by rewrite Hnil.
  - simpl. fold (extensionItemsOf this). fold items.
    set (s0 := mkRunState this _ 0 0).
    set (s1 := settingsPhase h _ s0).
    destruct (installLoop_exts h (getCLIPath h) (length items) items 0
                s1 []) as (_ & Hres & _).
    + unfold s1. by rewrite settingsPhase_ids.
    + unfold s1. by rewrite settingsPhase_extensionItems.
    + exact Hres.
Qed.


Lemma installSelected_installedCount this :
  let items := extensionItemsOf this in
  let k := iterationsRun (isCancellationRequested h) 0 (length items) in
  installedCount (installSelectedCommand h this)
  = length (List.filter (installs h (getCLIPath h)) (take k items)).
Proof.
  intros items k. unfold installSelectedCommand.
  case_bool_decide as Hsel.
  - simpl. apply length_zero_iff_nil in Hsel.
    assert (items = []) as Hnil
      by (unfold items, extensionItemsOf; by rewrite Hsel).
    subst k. by rewrite Hnil.
  - simpl. fold (extensionItemsOf this). fold items.
    by rewrite installLoop_installedCount, settingsPhase_installedCount.
Qed.

(** The trace of a run that found something selected. *)
Lemma installSelected_trace this :
  getSelectedExtensions this ≠ [] →
  let items := extensionItemsOf this in
  let k := iterationsRun (isCancellationRequested h) 0 (length items) in
  trace (installSelectedCommand h this)
  = [AppendLine "Starting installation..."]
    ++ settingsEvents h (List.find isSettings (getSelectedExtensions this))
    ++ iterationEvents h (getCLIPath h) (length items) 0 (take k items)
    ++ (if bool_decide (k < length items)
        then [CancelCheck k; AppendLine "Operation cancelled."]
        else [])
    ++ [ShowInformationMessage
          (summaryMessage
             (length (List.filter (installs h (getCLIPath h))
                        (take k items)))
             (bool_decide
                (is_Some (List.find isSettings
                            (getSelectedExtensions this)))))].
Proof.
  intros Hsel items k.
  pose proof (installSelected_installedCount this) as Hcount.
  simpl in Hcount. fold items k in Hcount. rewrite <- Hcount.
  unfold installSelectedCommand.
  rewrite bool_decide_false by (by rewrite length_zero_iff_nil).
  simpl. fold (extensionItemsOf this). fold items.
  rewrite installLoop_trace, settingsPhase_trace. simpl. fold k.
  by rewrite <- !app_assoc.
Qed.

End Command.

Section Summary.

Variable h : Host.

Lemma stepEvents_no_summary cliPath total i ext :
  summaryOf (stepEvents h cliPath total i ext) = [].
Proof.
  unfold stepEvents, installExtension, summaryOf.
  destruct (getExtension h (item_id ext)); [done|].
  destruct (execError _); simpl;
    [destruct (Js.truthy (stderr _)) | destruct (Js.truthy (stdout _))];
    done.
Qed.

Lemma iterationEvents_no_summary cliPath total items : ∀ i,
  summaryOf (iterationEvents h cliPath total i items) = [].
Proof.
  induction items as [|ext rest IH]; intros i; [done|].
  cbn [iterationEvents]. rewrite summaryOf_app, IH.
  change (summaryOf (CancelCheck i :: stepEvents h cliPath total i ext))
    with (summaryOf (stepEvents h cliPath total i ext)).
  by rewrite stepEvents_no_summary.
Qed.

(** The one notification of a run that found something selected. *)
Lemma installSelected_summary this :
  getSelectedExtensions this ≠ [] →
  let items := extensionItemsOf this in
  let k := iterationsRun (isCancellationRequested h) 0 (length items) in
  summaryOf (trace (installSelectedCommand h this))
  = [summaryMessage
       (length (List.filter (installs h (getCLIPath h)) (take k items)))
       (bool_decide
          (is_Some (List.find isSettings (getSelectedExtensions this))))].
Proof.
  intros Hsel items k. rewrite installSelected_trace by done.
  fold items k. rewrite !summaryOf_app.
  rewrite iterationEvents_no_summary.
  destruct (settingsEvents_quiet h
              (List.find isSettings (getSelectedExtensions this)))
    as (_ & _ & ->).
  by case_bool_decide.
Qed.

Lemma installSelected_checks this :
  let items := extensionItemsOf this in
  let k := iterationsRun (isCancellationRequested h) 0 (length items) in
  cancelChecksOf (trace (installSelectedCommand h this))
  = seq 0 (S k `min` length items).
Proof.
  intros items k.
  destruct (decide (getSelectedExtensions this = [])) as [Hsel|Hsel].
  - assert (items = []) as Hnil
      by (unfold items, extensionItemsOf; by rewrite Hsel).
    subst k. rewrite Hnil. unfold installSelectedCommand.
    by rewrite Hsel.
  - rewrite installSelected_trace by done. fold items k.
    rewrite !cancelChecksOf_app, iterationEvents_checks.
    destruct (settingsEvents_quiet h
                (List.find isSettings (getSelectedExtensions this)))
      as (-> & _ & _).
    pose proof (iterationsRun_le (isCancellationRequested h)
                  (length items) 0) as Hle. fold k in Hle.
    assert (S k `min` length items
            = if bool_decide (k < length items) then S k else k) as ->
      by (case_bool_decide; lia).
    rewrite length_take, (Nat.min_l k) by lia.
    case_bool_decide as Hk.
    + rewrite seq_S. simpl. by rewrite ?app_nil_r.
    + simpl. by rewrite ?app_nil_r.
Qed.

Lemma installSelected_execs this :
  let items := extensionItemsOf this in
  let k := iterationsRun (isCancellationRequested h) 0 (length items) in
  execsOf (trace (installSelectedCommand h this))
  = omap (installOf h (getCLIPath h)) (take k items).
Proof.
  intros items k.
  destruct (decide (getSelectedExtensions this = [])) as [Hsel|Hsel].
  - assert (items = []) as Hnil
      by (unfold items, extensionItemsOf; by rewrite Hsel).
    subst k. rewrite Hnil. unfold installSelectedCommand.
    by rewrite Hsel.
  - rewrite installSelected_trace by done. fold items k.
    rewrite !execsOf_app, iterationEvents_execs.
    destruct (settingsEvents_quiet h
                (List.find isSettings (getSelectedExtensions this)))
      as (_ & -> & _).
    simpl. case_bool_decide; simpl; by rewrite app_nil_r.
Qed.

Lemma outcome_terminal cliPath e : terminal (status (outcome h cliPath e)).
Proof.
  unfold terminal, outcome, outcomeFor.
  destruct (getExtension h (item_id e)).
  - right; right. apply markStatus_status.
  - destruct (execError _).
    + right; left. apply markStatus_status.
    + left. apply markStatus_status.
Qed.

Lemma outcome_failed cliPath e message :
  getExtension h (item_id e) = false →
  execError (exec h (installCommand cliPath (item_id e))) = Some message →
  outcome h cliPath e = markStatus Failed (Some message) e.
Proof.
  intros Hg He. unfold outcome, outcomeFor. rewrite Hg, He.
  apply markStatus_after_Installing.
Qed.

Lemma outcome_success cliPath e :
  getExtension h (item_id e) = false →
  execError (exec h (installCommand cliPath (item_id e))) = None →
  outcome h cliPath e = markStatus Success None e.
Proof.
  intros Hg He. unfold outcome, outcomeFor. rewrite Hg, He.
  apply markStatus_after_Installing.
Qed.

Lemma outcome_already cliPath e :
  getExtension h (item_id e) = true →
  outcome h cliPath e = markStatus AlreadyInstalled None e.
Proof. intros Hg. unfold outcome, outcomeFor. by rewrite Hg. Qed.

End Summary.

(** ** Properties of the installer workflow *)

Lemma selected_all_extensions (this sel : list ExtensionItem) :
  getSelectedExtensions this = sel →
  Forall (λ e, item_id e ≠ SETTINGS) sel →
  extensionItemsOf this = sel ∧ List.find isSettings sel = None.
Proof.
  intros Hsel Hall. unfold extensionItemsOf. rewrite Hsel. clear Hsel.
  induction Hall as [|e rest He Hrest [IH1 IH2]]; [done|]. split.
  - rewrite filter_cons_True by done. by rewrite IH1.
  - simpl. unfold isSettings at 1. by rewrite bool_decide_false.
Qed.

(** C1, as stated: the summary would also report the already-installed
    and the failed counts. The summary of that run, one installed, one
    already there and one failed, is word for word the
    summary of a run with one installed, none already there and two
    failed: no reading of the summary gives the two counts. The statuses
    are the stated ones when the ids are distinct:
    [updateExtensionStatus] finds an item by its id, and with a
    deselected [pub.a] in front of the selected one it is the deselected
    item that is marked. *)
Lemma summary_omits_already_and_failed :
  let r1 := installSelectedCommand (scriptedHost ["pub.b"] ["pub.c"] None)
              sampleCollection in
  let r2 := installSelectedCommand
              (scriptedHost [] ["pub.b"; "pub.c"] None) sampleCollection in
  let r3 := installSelectedCommand (scriptedHost ["pub.b"] ["pub.c"] None)
              shadowedCollection in
  status <$> exts r1 = [Success; AlreadyInstalled; Failed] ∧
  status <$> exts r2 = [Success; Failed; Failed] ∧
  summaryOf (trace r1)
    = ["Process complete. Installed: 1 extensions. Settings applied: No."] ∧
  summaryOf (trace r2) = summaryOf (trace r1) ∧
  (¬ ∃ report : string → nat * nat,
       ∀ h this m,
         summaryOf (trace (installSelectedCommand h this)) = [m] →
         report m
         = (countStatus AlreadyInstalled
              (exts (installSelectedCommand h this)),
            countStatus Failed (exts (installSelectedCommand h this)))) ∧
  item_id <$> getSelectedExtensions shadowedCollection
    = ["pub.a"; "pub.b"; "pub.c"] ∧
  status <$> getSelectedExtensions (exts r3)
    = [Pending; AlreadyInstalled; Failed].
Proof.
  split_and!; [reflexivity.. | | reflexivity | reflexivity].
  intros [report Hreport].
  pose proof (Hreport (scriptedHost ["pub.b"] ["pub.c"] None)
                sampleCollection (summaryMessage 1 false) eq_refl) as H1.
  pose proof (Hreport (scriptedHost [] ["pub.b"; "pub.c"] None)
                sampleCollection (summaryMessage 1 false) eq_refl) as H2.
  vm_compute in H1, H2. rewrite H1 in H2. discriminate H2.
Qed.

(** C1, amended. A run over a collection with distinct ids whose
    selected items are three extensions, the second already installed,
    the install succeeding for the first and failing for the third, and
    the token never cancelled, leaves the three items [Success],
    [AlreadyInstalled] and [Failed], the last with the error text; the
    summary reports one installed extension and that no settings were
    applied, and nothing else. *)
Theorem three_items_run (h : Host) (this : list ExtensionItem)
  (a b c : ExtensionItem) (message : string) :
  NoDup (item_id <$> this) →
  getSelectedExtensions this = [a; b; c] →
  item_id a ≠ SETTINGS → item_id b ≠ SETTINGS →
  item_id c ≠ SETTINGS →
  getExtension h (item_id a) = false →
  getExtension h (item_id b) = true →
  getExtension h (item_id c) = false →
  execError (exec h (installCommand (getCLIPath h) (item_id a))) = None →
  execError (exec h (installCommand (getCLIPath h) (item_id c)))
    = Some message →
  (∀ i, i < 3 → isCancellationRequested h i = false) →
  let r := installSelectedCommand h this in
  extensionItemsOf (exts r)
    = [markStatus Success None a; markStatus AlreadyInstalled None b;
       markStatus Failed (Some message) c] ∧
  status <$> extensionItemsOf (exts r)
    = [Success; AlreadyInstalled; Failed] ∧
  errorMessage <$> extensionItemsOf (exts r) = [None; None; Some message] ∧
  installedCount r = 1 ∧
  summaryOf (trace r)
    = ["Process complete. Installed: 1 extensions. Settings applied: No."].
Proof.
  intros Hnd Hsel Ha Hb Hc Hga Hgb Hgc Hea Hec Hcancel r.
  destruct (selected_all_extensions this [a; b; c] Hsel) as [Hitems Hfind];
    [by repeat constructor|].
  assert (iterationsRun (isCancellationRequested h) 0 3 = 3) as Hk
    by (apply iterationsRun_all; intros j Hj; by apply Hcancel).
  assert (extensionItemsOf (exts r)
          = [markStatus Success None a; markStatus AlreadyInstalled None b;
             markStatus Failed (Some message) c]) as Hres.
  { unfold r. rewrite installSelected_items by done.
    rewrite Hitems. change (length [a; b; c]) with 3. rewrite Hk. simpl.
    by rewrite (outcome_success h _ a), (outcome_already h _ b),
      (outcome_failed h _ c message). }
  assert (length (List.filter (installs h (getCLIPath h)) [a; b; c]) = 1)
    as Hcount.
  { unfold installs. simpl. rewrite Hga, Hgb, Hgc, Hea, Hec. done. }
  split_and!.
  - done.
  - rewrite Hres. cbn [fmap list_fmap]. by rewrite !markStatus_status.
  - rewrite Hres. cbn [fmap list_fmap].
    by rewrite !markStatus_errorMessage.
  - unfold r. rewrite installSelected_installedCount.
    rewrite Hitems. change (length [a; b; c]) with 3. rewrite Hk. exact Hcount.
  - unfold r. rewrite installSelected_summary by (by rewrite Hsel).
    rewrite Hitems, Hsel, Hfind. change (length [a; b; c]) with 3. rewrite Hk.
    simpl take. rewrite Hcount. reflexivity.
Qed.

Lemma three_items_run_witness :
  let r := installSelectedCommand (scriptedHost ["pub.b"] ["pub.c"] None)
             sampleCollection in
  extensionItemsOf (exts r)
    = [markStatus Success None (newExtensionItem (descriptor "pub.a") None);
       markStatus AlreadyInstalled None
         (newExtensionItem (descriptor "pub.b") None);
       markStatus Failed (Some "boom")
         (newExtensionItem (descriptor "pub.c") None)] ∧
  status <$> extensionItemsOf (exts r)
    = [Success; AlreadyInstalled; Failed] ∧
  errorMessage <$> extensionItemsOf (exts r) = [None; None; Some "boom"] ∧
  installedCount r = 1 ∧
  summaryOf (trace r)
    = ["Process complete. Installed: 1 extensions. Settings applied: No."].
Proof.
  apply (three_items_run (scriptedHost ["pub.b"] ["pub.c"] None)
           sampleCollection
           (newExtensionItem (descriptor "pub.a") None)
           (newExtensionItem (descriptor "pub.b") None)
           (newExtensionItem (descriptor "pub.c") None) "boom");
    try reflexivity; try (vm_compute; discriminate).
  - vm_compute. repeat constructor; intros H;
      repeat (apply elem_of_cons in H as [H|H]; [discriminate H|]);
      by apply elem_of_nil in H.
Defined.

Lemma ran_items_split (h : Host) (items final : list ExtensionItem)
  (cliPath : string) (k : nat) :
  k ≤ length items →
  final = (outcome h cliPath <$> take k items) ++ drop k items →
  take k final = outcome h cliPath <$> take k items ∧
  drop k final = drop k items ∧ length final = length items.
Proof.
  intros Hk ->.
  assert (length (outcome h cliPath <$> take k items) = k) as Hlen
    by (rewrite length_fmap, length_take; lia).
  split_and!.
  - by apply take_app_length'.
  - by apply drop_app_length'.
  - rewrite length_app, Hlen, length_drop. lia.
Qed.

(** C2, as stated: the summary of a cancelled run would say so. The run
    over five items cancelled before the third leaves two installed and
    three [Pending] and logs "Operation cancelled."; its summary is word
    for word that of a run that was not cancelled and found the last
    three already installed: no reading of the summary tells whether the
    run was cancelled. The items before the cancellation are the ones
    marked when the ids are distinct: with [pub.a] loaded twice, both
    iterations mark the first and the second stays [Pending]. *)
Lemma summary_has_no_cancellation_marker :
  let r1 := installSelectedCommand (scriptedHost [] [] (Some 2))
              fiveItems in
  let r2 := installSelectedCommand
              (scriptedHost ["pub.c"; "pub.d"; "pub.e"] [] None)
              fiveItems in
  let r3 := installSelectedCommand (scriptedHost [] [] (Some 2))
              repeatedItems in
  status <$> exts r1 = [Success; Success; Pending; Pending; Pending] ∧
  wasCancelled (scriptedHost [] [] (Some 2)) 5 = true ∧
  wasCancelled (scriptedHost ["pub.c"; "pub.d"; "pub.e"] [] None) 5
    = false ∧
  "Operation cancelled." ∈ outputOf (trace r1) ∧
  summaryOf (trace r1)
    = ["Process complete. Installed: 2 extensions. Settings applied: No."] ∧
  summaryOf (trace r2) = summaryOf (trace r1) ∧
  (¬ ∃ marks : string → bool,
       ∀ h this m,
         summaryOf (trace (installSelectedCommand h this)) = [m] →
         marks m = wasCancelled h (length (extensionItemsOf this))) ∧
  status <$> exts r3 = [Success; Pending; Pending; Pending; Pending].
Proof.
  split_and!; [reflexivity.. | | reflexivity | reflexivity | | reflexivity].
  - vm_compute.
    repeat (first [apply list_elem_of_here | apply list_elem_of_further]).
  - intros [marks Hmarks].
    pose proof (Hmarks (scriptedHost [] [] (Some 2)) fiveItems
                  (summaryMessage 2 false) eq_refl) as H1.
    pose proof (Hmarks (scriptedHost ["pub.c"; "pub.d"; "pub.e"] [] None)
                  fiveItems (summaryMessage 2 false) eq_refl) as H2.
    vm_compute in H1, H2. rewrite H1 in H2. discriminate H2.
Qed.

(** C2, amended. In every run the token is read once at the head of each
    iteration the loop enters and nowhere inside a step. In a collection
    with distinct ids, when it reads cancelled at iteration [k] (counted
    from 0) and not before, the [k] extension items before it have their
    outcome, a terminal status; the items from [k] on are exactly as they
    were; the install commands run are those of the first [k] items;
    "Operation cancelled." is appended to the output channel, and the
    summary is the usual one, without a cancellation marker. *)
Theorem cancellation_between_steps (h : Host) (this : list ExtensionItem) :
  let items := extensionItemsOf this in
  let cli := getCLIPath h in
  let n := length items in
  let ran := iterationsRun (isCancellationRequested h) 0 n in
  let r := installSelectedCommand h this in
  let settingsItem := List.find isSettings (getSelectedExtensions this) in
  cancelChecksOf (trace r) = seq 0 (S ran `min` n) ∧
  (getSelectedExtensions this ≠ [] →
   trace r
   = [AppendLine "Starting installation..."]
     ++ settingsEvents h settingsItem
     ++ iterationEvents h cli n 0 (take ran items)
     ++ (if bool_decide (ran < n)
         then [CancelCheck ran; AppendLine "Operation cancelled."]
         else [])
     ++ [ShowInformationMessage
           (summaryMessage (installedCount r)
              (bool_decide (is_Some settingsItem)))]) ∧
  cancelChecksOf (settingsEvents h settingsItem) = [] ∧
  (∀ total i ext, cancelChecksOf (stepEvents h cli total i ext) = []) ∧
  (∀ k, NoDup (item_id <$> this) → k < n →
     (∀ j, j < k → isCancellationRequested h j = false) →
     isCancellationRequested h k = true →
     ran = k ∧
     take k (extensionItemsOf (exts r)) = outcome h cli <$> take k items ∧
     Forall (λ e, terminal (status e)) (take k (extensionItemsOf (exts r))) ∧
     drop k (extensionItemsOf (exts r)) = drop k items ∧
     length (extensionItemsOf (exts r)) = n ∧
     execsOf (trace r) = omap (installOf h cli) (take k items) ∧
     "Operation cancelled." ∈ outputOf (trace r) ∧
     summaryOf (trace r)
     = [summaryMessage (installedCount r)
          (bool_decide (is_Some settingsItem))]).
Proof.
  intros items cli n ran r settingsItem.
  pose proof (installSelected_installedCount h this) as Hcount.
  simpl in Hcount. fold items n ran cli r in Hcount.
  split_and!.
  - apply installSelected_checks.
  - intros Hsel. rewrite Hcount. by apply installSelected_trace.
  - apply settingsEvents_quiet.
  - intros. apply stepEvents_no_check.
  - intros k Hnd Hk Hbefore Hat.
    assert (ran = k) as Hran
      by (apply iterationsRun_first; [done | by simpl | by simpl]).
    assert (getSelectedExtensions this ≠ []) as Hsel.
    { intros Hnil. unfold n, items, extensionItemsOf in Hk.
      rewrite Hnil in Hk. simpl in Hk. lia. }
    pose proof (installSelected_items h this Hnd) as Hitems.
    simpl in Hitems. fold items n ran cli r in Hitems. rewrite Hran in Hitems.
    destruct (ran_items_split h items _ cli k ltac:(unfold n in Hk; lia)
                Hitems) as (Htake & Hdrop & Hlen).
    split_and!; try done.
    + rewrite Htake. apply Forall_fmap, Forall_forall.
      intros e _. apply outcome_terminal.
    + pose proof (installSelected_execs h this) as Hex. simpl in Hex.
      fold items n ran cli r in Hex. by rewrite Hran in Hex.
    + unfold r. rewrite installSelected_trace by done.
      fold items n ran cli. rewrite bool_decide_true by lia.
      rewrite !outputOf_app. apply elem_of_app. right.
      apply elem_of_app. right. apply elem_of_app. right.
      apply elem_of_app. left. simpl. apply list_elem_of_here.
    + rewrite Hcount. by apply installSelected_summary.
Qed.

Lemma cancellation_between_steps_witness :
  let h := scriptedHost [] [] (Some 2) in
  let r := installSelectedCommand h fiveItems in
  iterationsRun (isCancellationRequested h) 0
    (length (extensionItemsOf fiveItems)) = 2 ∧
  take 2 (extensionItemsOf (exts r))
    = outcome h (getCLIPath h) <$> take 2 (extensionItemsOf fiveItems) ∧
  Forall (λ e, terminal (status e)) (take 2 (extensionItemsOf (exts r))) ∧
  drop 2 (extensionItemsOf (exts r)) = drop 2 (extensionItemsOf fiveItems) ∧
  length (extensionItemsOf (exts r)) = length (extensionItemsOf fiveItems) ∧
  execsOf (trace r)
    = omap (installOf h (getCLIPath h))
        (take 2 (extensionItemsOf fiveItems)) ∧
  "Operation cancelled." ∈ outputOf (trace r) ∧
  summaryOf (trace r)
    = [summaryMessage (installedCount r)
         (bool_decide
            (is_Some (List.find isSettings
                        (getSelectedExtensions fiveItems))))].
Proof.
  intros h r.
  destruct (cancellation_between_steps h fiveItems) as (_ & _ & _ & _ & H).
  apply (H 2).
  - vm_compute. repeat constructor; intros Hin;
      repeat (apply elem_of_cons in Hin as [Hin|Hin]; [discriminate Hin|]);
      by apply elem_of_nil in Hin.
  - vm_compute. lia.
  - intros j Hj. destruct j as [|[|j]]; [reflexivity | reflexivity | lia].
  - reflexivity.
Defined.

Section SettingsFailure.

Implicit Types (this : list ExtensionItem) (e : ExtensionItem).




Lemma find_settings_selected this item :
  List.find isSettings (getSelectedExtensions this) = Some item →
  item ∈ this ∧ item_id item = SETTINGS.
Proof.
  intros Hfind. apply find_some in Hfind as [Hin His].
  apply list_elem_of_In in Hin. unfold getSelectedExtensions in Hin.
  apply list_elem_of_filter in Hin as [_ Hin]. split; [done|].
  unfold isSettings in His. by apply bool_decide_eq_true in His.
Qed.


End SettingsFailure.

Section ById.

Variables (h : Host) (cliPath : string) (total : nat).

Implicit Types (this : list ExtensionItem) (e : ExtensionItem).

Lemma itemById_update_same i s m this :
  itemById i (updateExtensionStatus i s m this)
  = markStatus s m <$> itemById i this.
Proof.
  unfold itemById. induction this as [|e rest IH]; [done|]. simpl.
  case_bool_decide as He; simpl.
  - by rewrite bool_decide_true by (by rewrite markStatus_id).
  - by rewrite bool_decide_false.
Qed.

Lemma itemById_update_other i i' s m this :
  i' ≠ i →
  itemById i' (updateExtensionStatus i s m this) = itemById i' this.
Proof.
  intros Hne. unfold itemById.
  induction this as [|e rest IH]; [done|]. simpl.
  case_bool_decide as He; simpl.
  - rewrite bool_decide_false by (rewrite markStatus_id; congruence).
    by rewrite bool_decide_false by congruence.
  - by rewrite IH.
Qed.

Lemma itemById_is_Some e this :
  e ∈ this → is_Some (itemById (item_id e) this).
Proof.
  intros Hin. unfold itemById.
  destruct (List.find _ this) as [x|] eqn:Hfind; [by eexists|].
  exfalso. apply list_elem_of_In in Hin.
  pose proof (find_none _ _ Hfind e Hin) as Hno. simpl in Hno.
  by rewrite bool_decide_true in Hno.
Qed.

Lemma itemById_NoDup e this :
  NoDup (item_id <$> this) → e ∈ this →
  itemById (item_id e) this = Some e.
Proof.
  intros Hnd Hin. unfold itemById.
  induction this as [|x rest IH]; [by apply elem_of_nil in Hin|].
  csimpl in Hnd. apply NoDup_cons in Hnd as [Hx Hnd]. simpl.
  apply elem_of_cons in Hin as [-> | Hin].
  - by rewrite bool_decide_true.
  - rewrite bool_decide_false; [by apply IH|].
    intros Heq. apply Hx. rewrite Heq.
    apply list_elem_of_fmap. by exists e.
Qed.

Lemma marks_outcomeFor i e :
  marks (outcomeFor h cliPath i e) = outcomeMarks h cliPath i.
Proof.
  unfold marks, outcomeFor, outcomeMarks.
  destruct (getExtension h i);
    [by rewrite markStatus_status, markStatus_errorMessage|].
  destruct (execError _);
    by rewrite markStatus_status, markStatus_errorMessage.
Qed.


Lemma installStep_itemById_same i ext (s : RunState) :
  itemById (item_id ext) (exts (installStep h cliPath total i ext s))
  = outcomeFor h cliPath (item_id ext) <$> itemById (item_id ext) (exts s).
Proof.
  unfold installStep, outcomeFor. fold (item_id ext).
  destruct (getExtension h (item_id ext)); simpl.
  { apply itemById_update_same. }
  destruct (installExtension_success h cliPath (item_id ext)) as [Hs He].
  destruct (installExtension h (item_id ext) cliPath) as [evs result].
  simpl in Hs, He. rewrite Hs.
  destruct (execError _) as [message|]; simpl.
  - rewrite He, !itemById_update_same.
    by destruct (itemById (item_id ext) (exts s)).
  - rewrite !itemById_update_same.
    by destruct (itemById (item_id ext) (exts s)).
Qed.

Lemma installStep_itemById_other i ext (s : RunState) i' :
  i' ≠ item_id ext →
  itemById i' (exts (installStep h cliPath total i ext s))
  = itemById i' (exts s).
Proof.
  intros Hne. unfold installStep. fold (item_id ext).
  destruct (getExtension h (item_id ext)); simpl.
  { by apply itemById_update_other. }
  destruct (installExtension h (item_id ext) cliPath) as [evs result].
  destruct (success result); simpl; by rewrite !itemById_update_other.
Qed.

(** Under an id the loop handled, the store holds the marks of the
    outcome; under any other id, the item it held. *)
Lemma installLoop_itemById items : ∀ i (s : RunState) i',
  let ran := iterationsRun (isCancellationRequested h) i (length items) in
  let r := installLoop h cliPath total i items s in
  (i' ∈ item_id <$> take ran items →
   marks <$> itemById i' (exts r)
   = (λ _, outcomeMarks h cliPath i') <$> itemById i' (exts s)) ∧
  (i' ∉ item_id <$> take ran items →
   itemById i' (exts r) = itemById i' (exts s)).
Proof.
  induction items as [|ext rest IH]; intros i s i'; simpl.
  { split; [intros Hin; by apply elem_of_nil in Hin | done]. }
  destruct (isCancellationRequested h i); simpl.
  { split; [intros Hin; by apply elem_of_nil in Hin | done]. }
  destruct (IH (S i) (installStep h cliPath total i ext
                        (emit [CancelCheck i] s)) i') as [IHin IHout].
  set (s' := installStep h cliPath total i ext (emit [CancelCheck i] s)) in *.
  assert (marks <$> itemById i' (exts s')
          = (λ _, outcomeMarks h cliPath i') <$> itemById i' (exts s)
          ∨ itemById i' (exts s') = itemById i' (exts s)) as Hstep.
  { destruct (decide (i' = item_id ext)) as [->|Hne].
    - left. unfold s'. rewrite installStep_itemById_same. simpl.
      destruct (itemById (item_id ext) (exts s)); [|done]. simpl.
      by rewrite marks_outcomeFor.
    - right. unfold s'. by rewrite installStep_itemById_other. }
  split.
  - intros Hin.
    destruct (decide (i' ∈ item_id <$> take
                (iterationsRun (isCancellationRequested h) (S i)
                   (length rest)) rest)) as [Hrest|Hrest].
    + rewrite IHin by done.
      destruct Hstep as [Hstep | ->]; [|done].
      destruct (itemById i' (exts s')), (itemById i' (exts s)); done.
    + rewrite IHout by done.
      apply elem_of_cons in Hin as [-> | Hin]; [|done].
      unfold s'. rewrite installStep_itemById_same. simpl.
      destruct (itemById (item_id ext) (exts s)); [|done]. simpl.
      by rewrite marks_outcomeFor.
  - intros Hout. apply not_elem_of_cons in Hout as [Hne Hout].
    rewrite IHout by done. unfold s'.
    by rewrite installStep_itemById_other.
Qed.


Lemma queriesOf_app (a b : list Event) :
  queriesOf (a ++ b) = queriesOf a ++ queriesOf b.
Proof. unfold queriesOf. apply omap_app. Qed.


End ById.

Section RunById.

Variable h : Host.

Implicit Types (this : list ExtensionItem) (e : ExtensionItem).

Lemma extensionItemsOf_elem this e :
  e ∈ extensionItemsOf this → e ∈ this ∧ item_id e ≠ SETTINGS.
Proof.
  unfold extensionItemsOf, getSelectedExtensions. intros Hin.
  apply list_elem_of_filter in Hin as [Hid Hin].
  by apply list_elem_of_filter in Hin as [_ Hin].
Qed.

Lemma settingsPhase_itemById_other si (s : RunState) i' :
  i' ≠ SETTINGS →
  itemById i' (exts (settingsPhase h si s)) = itemById i' (exts s).
Proof.
  intros Hne.
  destruct (settingsPhase_exts_cases h si s) as [-> | (st & m & ->)];
    [done | by apply itemById_update_other].
Qed.




(** A settings write that failed leaves the item held under the reserved
    id [Failed], with the message; the extension loop does not touch it. *)
Lemma installSelected_settings_marks this item message :
  List.find isSettings (getSelectedExtensions this) = Some item →
  json_truthy (settingsData item) = true →
  writeFileSync h (getSettingsPath h)
    (spread2 (readCurrentSettings h (getSettingsPath h)).1
       (settingsData item)) = Some message →
  ∃ e', itemById SETTINGS (exts (installSelectedCommand h this)) = Some e'
        ∧ status e' = Failed ∧ errorMessage e' = Some message.
Proof.
  intros Hfind Htruthy Hw.
  destruct (find_settings_selected this item Hfind) as [Hin Hid].
  destruct (itemById_is_Some item this Hin) as [x Hx]. rewrite Hid in Hx.
  unfold installSelectedCommand.
  rewrite bool_decide_false
    by (rewrite length_zero_iff_nil; intros Hnil; by rewrite Hnil in Hfind).
  simpl. fold (extensionItemsOf this). rewrite Hfind.
  set (items := extensionItemsOf this).
  set (s1 := settingsPhase h _ _).
  destruct (installLoop_itemById h (getCLIPath h) (length items) items 0 s1
              SETTINGS) as [_ Hout].
  rewrite Hout.
  - unfold s1. rewrite (settingsPhase_failed h item _ message) by done.
    simpl. rewrite itemById_update_same, Hx. simpl.
    eexists. split; [done|].
    by rewrite markStatus_status, markStatus_errorMessage.
  - intros Hel. apply list_elem_of_fmap in Hel as (e & He & Hel).
    apply list_elem_of_lookup in Hel as (j & Hj).
    apply lookup_take_Some in Hj as [Hj _].
    apply list_elem_of_lookup_2 in Hj.
    by destruct (extensionItemsOf_elem this e Hj) as [_ Hne].
Qed.

End RunById.



(** ** More about items and the store *)

Section MoreStore.

Implicit Types (this : list ExtensionItem) (e : ExtensionItem).

Lemma string_length_app (s1 s2 : string) :
  String.length (s1 +:+ s2) = String.length s1 + String.length s2.
Proof.
  induction s1 as [|a s1 IH]; [done|].
  change (String a s1 +:+ s2) with (String a (s1 +:+ s2)).
  simpl. by rewrite IH.
Qed.

Lemma string_length_take (n : nat) (s : string) :
  String.length (Js.take n s) = n `min` String.length s.
Proof.
  revert s. induction n as [|n IH]; intros [|a s]; simpl; try done.
  by rewrite IH.
Qed.

Lemma newExtensionItem_display d sd :
  itemDescription (newExtensionItem d sd) = shortDescription d ∧
  label (newExtensionItem d sd) = Js.or_else (displayName d) (id d) ∧
  iconPath (newExtensionItem d sd)
  = (if bool_decide (id d = SETTINGS)
     then mkThemeIcon "settings-gear" None
     else mkThemeIcon "extensions" None) ∧
  itemCommand (newExtensionItem d sd) = None.
Proof. unfold newExtensionItem. by case_bool_decide. Qed.

Lemma getSelected_selectAll this :
  getSelectedExtensions (selectAll this) = selectAll this.
Proof.
  unfold getSelectedExtensions, selectAll.
  induction this as [|e rest IH]; [done|]. csimpl.
  rewrite filter_cons_True by done. by rewrite IH.
Qed.

Lemma getSelected_deselectAll this :
  getSelectedExtensions (deselectAll this) = [].
Proof.
  unfold getSelectedExtensions, deselectAll.
  induction this as [|e rest IH]; [done|]. csimpl.
  by rewrite filter_cons_False by done.
Qed.

Lemma iconInSync_new d sd : iconInSync (newExtensionItem d sd).
Proof.
  destruct (newExtensionItem_display d sd) as (_ & _ & Hicon & Hcmd).
  destruct (newExtensionItem_fresh d sd) as (_ & Hst & _).
  unfold iconInSync. rewrite Hcmd, Hst. split_and!; [|done|by left].
  unfold updateIcon. rewrite Hst. simpl. rewrite Hicon.
  unfold item_id. by rewrite newExtensionItem_extensionData.
Qed.

Lemma iconInSync_markStatus s m e :
  iconInSync e → iconInSync (markStatus s m e).
Proof.
  intros (_ & _ & Hcmd). unfold iconInSync.
  destruct s; simpl; (split_and!; [done | done | auto]).
Qed.

Lemma iconInSync_selection b e :
  iconInSync e → iconInSync (updateCheckbox (set_selected b e)).
Proof.
  unfold iconInSync. intros (Hicon & Hfailed & Hcmd).
  split_and!; [|done|done].
  unfold updateIcon, item_id in *. simpl.
  destruct (status e); simpl in *; done.
Qed.

Lemma reachable_iconInSync this :
  reachable anyDescriptor this → Forall iconInSync this.
Proof.
  induction 1 as [|l this _ _ _|sd this _ IH|this _ IH|this _ IH
                  |i s m this _ IH|n state this _ IH].
  - constructor.
  - unfold loadExtensions. apply Forall_fmap, Forall_forall.
    intros d _. apply iconInSync_new.
  - unfold addSettingsItem. constructor; [apply iconInSync_new|].
    rewrite Forall_forall in IH |- *. intros x Hx.
    apply list_elem_of_filter in Hx as [_ Hx]. auto.
  - unfold selectAll. apply Forall_fmap. eapply Forall_impl; [exact IH|].
    intros e He. by apply iconInSync_selection.
  - unfold deselectAll. apply Forall_fmap. eapply Forall_impl; [exact IH|].
    intros e He. by apply iconInSync_selection.
  - induction IH as [|e rest He Hrest IHrest]; simpl; [constructor|].
    case_bool_decide; constructor; auto using iconInSync_markStatus.
  - unfold handleCheckboxChangeAt.
    destruct (this !! n) as [item|] eqn:Hn; [|done].
    apply Forall_insert; [done|].
    apply iconInSync_selection.
    rewrite Forall_forall in IH. apply IH.
    by apply list_elem_of_lookup_2 in Hn.
Qed.

End MoreStore.

(** X1. After [deselectAll] nothing is selected; after [selectAll]
    every item is, in the order of the collection. Both keep the length,
    the descriptors, the statuses, the error messages and the payloads,
    and the later of two calls decides. *)
Theorem selection_toggles (this : list ExtensionItem) :
  let kept e := (extensionData e, status e, errorMessage e,
                 settingsData e, iconPath e) in
  getSelectedExtensions (deselectAll this) = [] ∧
  getSelectedExtensions (selectAll this) = selectAll this ∧
  length (selectAll this) = length this ∧
  length (deselectAll this) = length this ∧
  kept <$> selectAll this = kept <$> this ∧
  kept <$> deselectAll this = kept <$> this ∧
  selectAll (deselectAll this) = selectAll this ∧
  deselectAll (selectAll this) = deselectAll this.
Proof.
  intros kept. split_and!.
  - apply getSelected_deselectAll.
  - apply getSelected_selectAll.
  - unfold selectAll. by rewrite length_fmap.
  - unfold deselectAll. by rewrite length_fmap.
  - unfold selectAll. rewrite <- list_fmap_compose. by apply list_fmap_ext.
  - unfold deselectAll. rewrite <- list_fmap_compose.
    by apply list_fmap_ext.
  - unfold selectAll, deselectAll. rewrite <- list_fmap_compose.
    by apply list_fmap_ext.
  - unfold selectAll, deselectAll. rewrite <- list_fmap_compose.
    by apply list_fmap_ext.
Qed.

(** X2. The secondary text of a new item is never longer than 50
    characters when the descriptor has a description of ASCII
    characters: such a description of at most 50 characters is shown as
    it is, a longer one is cut to its first 47 characters followed by
    "...". Without a description (or with an empty one) the item shows
    its id. *)
Theorem item_description_bound (d : ExtensionData) (sd : option json) :
  (∀ s, Js.if_truthy (description d) = Some s → Js.isAscii s = true →
     String.length (itemDescription (newExtensionItem d sd)) ≤ 50 ∧
     (String.length s ≤ 50 →
      itemDescription (newExtensionItem d sd) = s) ∧
     (50 < String.length s →
      itemDescription (newExtensionItem d sd) = Js.take 47 s +:+ "..." ∧
      String.length (itemDescription (newExtensionItem d sd)) = 50)) ∧
  (Js.if_truthy (description d) = None →
   itemDescription (newExtensionItem d sd) = id d).
Proof.
  destruct (newExtensionItem_display d sd) as (-> & _).
  unfold shortDescription. split.
  - intros s -> _.
    destruct (50 <? String.length s) eqn:Hlen.
    + apply Nat.ltb_lt in Hlen.
      assert (String.length (Js.take 47 s +:+ "...") = 50) as H50.
      { rewrite string_length_app, string_length_take.
        change (String.length "...") with 3. lia. }
      split_and!; [lia | intros; lia | done].
    + apply Nat.ltb_ge in Hlen. split_and!; [done | done | intros; lia].
  - by intros ->.
Qed.

Lemma item_description_bound_witness :
  let d := mkExtensionData "pub.long" None
             (Some ("A description that is clearly longer than fifty "
                    +:+ "characters in all"))
             None None in
  String.length (itemDescription (newExtensionItem d None)) ≤ 50 ∧
  itemDescription (newExtensionItem d None)
  = "A description that is clearly longer than fifty...".
Proof.
  intros d.
  destruct (item_description_bound d None) as [H _].
  destruct (H _ eq_refl eq_refl) as (Hle & _ & Hcut).
  split; [exact Hle|].
  destruct Hcut as [-> _]; [vm_compute; lia | reflexivity].
Defined.

(** X3. In every reachable collection the icon of each item is the one
    [updateIcon] draws for its status, a [Failed] item carries the
    show-error click command, and no item carries any other command. *)
Theorem icon_follows_status (this : list ExtensionItem) :
  reachable anyDescriptor this →
  Forall iconInSync this ∧
  ∀ e, e ∈ this →
    iconId (iconPath e)
    = match status e with
      | Pending =>
          if bool_decide (item_id e = SETTINGS)
          then "settings-gear" else "extensions"
      | Installing => "sync~spin"
      | Success => "check"
      | Failed => "error"
      | AlreadyInstalled => "verified"
      end.
Proof.
  intros Hreach. pose proof (reachable_iconInSync this Hreach) as Hall.
  split; [done|]. intros e He.
  rewrite Forall_forall in Hall. destruct (Hall e He) as (-> & _).
  unfold updateIcon. destruct (status e); try done.
  simpl. by case_bool_decide.
Qed.

Lemma icon_follows_status_witness :
  Forall iconInSync
    (updateExtensionStatus "pub.a" Success None
       (updateExtensionStatus "pub.a" Failed (Some "boom")
          (addSettingsItem (Some (JObj ∅)) sampleCollection))).
Proof.
  apply icon_follows_status.
  apply reach_updateExtensionStatus, reach_updateExtensionStatus,
    reach_addSettingsItem, reach_loadExtensions; [|apply reach_new].
  repeat constructor.
Defined.

(** X4. A checkbox event on the item in slot [n] sets the selection of
    that item to the state of the box and changes nothing else of it and
    no other item; the later of two events on a slot decides; an event
    for a slot the collection does not have changes nothing. *)
Theorem checkbox_change_frame (n : nat) (state : TreeItemCheckboxState)
  (this : list ExtensionItem) :
  length (handleCheckboxChangeAt n state this) = length this ∧
  (∀ k, k ≠ n → handleCheckboxChangeAt n state this !! k = this !! k) ∧
  (∀ e, this !! n = Some e →
     ∃ e', handleCheckboxChangeAt n state this !! n = Some e' ∧
           selected e' = bool_decide (state = Checked) ∧
           checkboxState e' = state ∧
           extensionData e' = extensionData e ∧ status e' = status e ∧
           errorMessage e' = errorMessage e ∧
           settingsData e' = settingsData e ∧ iconPath e' = iconPath e ∧
           itemCommand e' = itemCommand e) ∧
  (this !! n = None → handleCheckboxChangeAt n state this = this) ∧
  (∀ state', handleCheckboxChangeAt n state
               (handleCheckboxChangeAt n state' this)
             = handleCheckboxChangeAt n state this).
Proof.
  unfold handleCheckboxChangeAt. split_and!.
  - destruct (this !! n); [by rewrite length_insert | done].
  - intros k Hk. destruct (this !! n); [|done].
    by rewrite list_lookup_insert_ne.
  - intros e He. rewrite He.
    exists (handleCheckboxChange e state). split_and!; try done.
    + apply list_lookup_insert_eq. by apply lookup_lt_Some in He.
    + by destruct state.
  - by intros ->.
  - intros state'. destruct (this !! n) as [e|] eqn:He.
    + rewrite list_lookup_insert_eq by (by apply lookup_lt_Some in He).
      by rewrite list_insert_insert_eq.
    + by rewrite He.
Qed.

Lemma checkbox_change_frame_witness :
  ∃ e', handleCheckboxChangeAt 1 Unchecked sampleCollection !! 1 = Some e' ∧
        selected e' = false ∧ checkboxState e' = Unchecked ∧
        item_id e' = "pub.b".
Proof.
  destruct (checkbox_change_frame 1 Unchecked sampleCollection)
    as (_ & _ & H & _).
  destruct (H (newExtensionItem (descriptor "pub.b") None) eq_refl)
    as (e' & He' & Hsel & Hbox & Hdata & _).
  exists e'. split_and!; [done | done | done |].
  unfold item_id. rewrite Hdata. reflexivity.
Defined.

(** X5. Looking an id up after [updateExtensionStatus] wrote under it
    gives the item that was there with the new status and message, its
    descriptor and selection untouched; under every other id the lookup
    gives what it gave before; an id that was absent stays absent and the
    collection is unchanged; of two writes under one id the later
    decides the status and the message. *)
Theorem status_lookup_after_update (i : string) (s : ExtensionStatus)
  (m : option string) (this : list ExtensionItem) :
  (∀ e, itemById i this = Some e →
     ∃ e', itemById i (updateExtensionStatus i s m this) = Some e' ∧
           status e' = s ∧ errorMessage e' = m ∧
           extensionData e' = extensionData e ∧
           selected e' = selected e) ∧
  (itemById i this = None →
   updateExtensionStatus i s m this = this) ∧
  (∀ i', i' ≠ i →
     itemById i' (updateExtensionStatus i s m this) = itemById i' this) ∧
  (∀ s' m',
     marks <$> itemById i (updateExtensionStatus i s m
                             (updateExtensionStatus i s' m' this))
     = marks <$> itemById i (updateExtensionStatus i s m this)).
Proof.
  split_and!.
  - intros e He. rewrite itemById_update_same, He. simpl.
    eexists. split; [done|].
    by rewrite markStatus_status, markStatus_errorMessage,
      markStatus_extensionData, markStatus_selected.
  - intros Hnone. apply updateExtensionStatus_absent.
    intros Hin. apply list_elem_of_fmap in Hin as (e & -> & He).
    destruct (itemById_is_Some e this He) as [x Hx]. congruence.
  - intros i' Hne. by apply itemById_update_other.
  - intros s' m'. rewrite !itemById_update_same.
    destruct (itemById i this); [|done]. simpl. unfold marks.
    by rewrite !markStatus_status, !markStatus_errorMessage.
Qed.

Lemma status_lookup_after_update_witness :
  ∃ e', itemById "pub.b"
          (updateExtensionStatus "pub.b" Failed (Some "boom")
             sampleCollection) = Some e' ∧
        status e' = Failed ∧ errorMessage e' = Some "boom".
Proof.
  destruct (status_lookup_after_update "pub.b" Failed (Some "boom")
              sampleCollection) as (H & _).
  destruct (H (newExtensionItem (descriptor "pub.b") None) eq_refl)
    as (e' & He' & Hs & Hm & _).
  by exists e'.
Defined.

(** ** More about the installer workflow *)

Section MoreRun.

Variable h : Host.

Implicit Types (this : list ExtensionItem) (e : ExtensionItem).
Implicit Types (s : RunState).

Lemma frameOf_markStatus st m e : frameOf (markStatus st m e) = frameOf e.
Proof. by destruct st. Qed.

Lemma frameOf_update i st m this :
  frameOf <$> updateExtensionStatus i st m this = frameOf <$> this.
Proof.
  induction this as [|e rest IH]; csimpl; [done|].
  case_bool_decide; csimpl; by rewrite ?IH, ?frameOf_markStatus.
Qed.

Lemma frameOf_installStep cliPath total i ext s :
  frameOf <$> exts (installStep h cliPath total i ext s)
  = frameOf <$> exts s.
Proof.
  unfold installStep.
  destruct (getExtension h _); simpl; [apply frameOf_update|].
  destruct (installExtension h _ cliPath) as [evs result].
  destruct (success result); simpl; by rewrite !frameOf_update.
Qed.

Lemma frameOf_installLoop cliPath total items : ∀ i s,
  frameOf <$> exts (installLoop h cliPath total i items s)
  = frameOf <$> exts s.
Proof.
  induction items as [|ext rest IH]; intros i s; simpl; [done|].
  destruct (isCancellationRequested h i); simpl; [done|].
  by rewrite IH, frameOf_installStep.
Qed.

Lemma frameOf_settingsPhase si s :
  frameOf <$> exts (settingsPhase h si s) = frameOf <$> exts s.
Proof.
  destruct (settingsPhase_exts_cases h si s) as [-> | (st & m & ->)];
    [done | apply frameOf_update].
Qed.

Lemma frameOf_installSelected this :
  frameOf <$> exts (installSelectedCommand h this) = frameOf <$> this.
Proof.
  unfold installSelectedCommand. case_bool_decide; [done|]. simpl.
  by rewrite frameOf_installLoop, frameOf_settingsPhase.
Qed.

Lemma frame_ids (l1 l2 : list ExtensionItem) :
  frameOf <$> l1 = frameOf <$> l2 → item_id <$> l1 = item_id <$> l2.
Proof.
  intros H.
  assert (∀ l : list ExtensionItem,
            item_id <$> l = (λ f, id f.1.1.1.1) <$> (frameOf <$> l)) as Hid.
  { intros l. rewrite <- list_fmap_compose. by apply list_fmap_ext. }
  by rewrite !Hid, H.
Qed.

Lemma frame_selected (l1 l2 : list ExtensionItem) :
  frameOf <$> l1 = frameOf <$> l2 → selected <$> l1 = selected <$> l2.
Proof.
  intros H.
  assert (∀ l : list ExtensionItem,
            selected <$> l = (λ f, f.1.1.1.2) <$> (frameOf <$> l)) as Hsel.
  { intros l. rewrite <- list_fmap_compose. by apply list_fmap_ext. }
  by rewrite !Hsel, H.
Qed.

Lemma installStep_errorCount cliPath total i ext s :
  errorCount (installStep h cliPath total i ext s)
  = errorCount s + (if fails h cliPath ext then 1 else 0).
Proof.
  unfold installStep, fails. fold (item_id ext).
  destruct (getExtension h (item_id ext)); simpl; [lia|].
  destruct (installExtension_success h cliPath (item_id ext)) as [Hs _].
  destruct (installExtension h (item_id ext) cliPath) as [evs result].
  simpl in Hs. rewrite Hs. case_bool_decide; simpl; lia.
Qed.

Lemma installLoop_errorCount cliPath total items : ∀ i s,
  let k := iterationsRun (isCancellationRequested h) i (length items) in
  errorCount (installLoop h cliPath total i items s)
  = errorCount s + length (List.filter (fails h cliPath) (take k items)).
Proof.
  induction items as [|ext rest IH]; intros i s; simpl; [lia|].
  destruct (isCancellationRequested h i); simpl; [lia|].
  rewrite IH, installStep_errorCount. simpl.
  destruct (fails h cliPath ext); simpl; lia.
Qed.

Lemma settingsPhase_errorCount si s :
  errorCount (settingsPhase h si s) = errorCount s.
Proof.
  unfold settingsPhase. destruct si as [item|]; [|done].
  destruct (json_truthy (settingsData item)); [|done].
  destruct (readCurrentSettings h (getSettingsPath h)) as [cur warn].
  by destruct (writeFileSync h _ _).
Qed.

Lemma installSelected_errorCount this :
  let items := extensionItemsOf this in
  let k := iterationsRun (isCancellationRequested h) 0 (length items) in
  errorCount (installSelectedCommand h this)
  = length (List.filter (fails h (getCLIPath h)) (take k items)).
Proof.
  intros items k. unfold installSelectedCommand.
  case_bool_decide as Hsel.
  - simpl. apply length_zero_iff_nil in Hsel.
    assert (items = []) as Hnil
      by (unfold items, extensionItemsOf; by rewrite Hsel).
    subst k. by rewrite Hnil.
  - simpl. fold (extensionItemsOf this). fold items.
    by rewrite installLoop_errorCount, settingsPhase_errorCount.
Qed.

Lemma outcomes_partition cliPath (l : list ExtensionItem) :
  length (List.filter (installs h cliPath) l)
  + length (List.filter (fails h cliPath) l)
  + length (List.filter (present h) l) = length l ∧
  length (omap (installOf h cliPath) l)
  = length (List.filter (installs h cliPath) l)
    + length (List.filter (fails h cliPath) l).
Proof.
  induction l as [|e rest [IH1 IH2]]; [done|].
  cbn [List.filter omap list_omap].
  destruct (getExtension h (item_id e)) eqn:Hg.
  - assert (installs h cliPath e = false) as ->
      by (unfold installs; by rewrite Hg).
    assert (fails h cliPath e = false) as ->
      by (unfold fails; by rewrite Hg).
    assert (present h e = true) as -> by done.
    assert (installOf h cliPath e = None) as ->
      by (unfold installOf; by rewrite Hg).
    simpl. split; lia.
  - assert (present h e = false) as -> by done.
    assert (installOf h cliPath e
            = Some (installCommand cliPath (item_id e))) as ->
      by (unfold installOf; by rewrite Hg).
    destruct (execError (exec h (installCommand cliPath (item_id e))))
      as [message|] eqn:He.
    + assert (installs h cliPath e = false) as ->
        by (unfold installs; by rewrite Hg, He).
      assert (fails h cliPath e = true) as ->
        by (unfold fails; by rewrite Hg, He).
      simpl. split; lia.
    + assert (installs h cliPath e = true) as ->
        by (unfold installs; by rewrite Hg, He).
      assert (fails h cliPath e = false) as ->
        by (unfold fails; by rewrite Hg, He).
      simpl. split; lia.
Qed.

Lemma stepEvents_no_write cliPath total i ext :
  writesOf (stepEvents h cliPath total i ext) = [].
Proof.
  unfold stepEvents, installExtension, writesOf.
  destruct (getExtension h (item_id ext)); [done|].
  destruct (execError _); simpl;
    [destruct (Js.truthy (stderr _)) | destruct (Js.truthy (stdout _))];
    done.
Qed.

Lemma iterationEvents_no_write cliPath total items : ∀ i,
  writesOf (iterationEvents h cliPath total i items) = [].
Proof.
  induction items as [|ext rest IH]; intros i; [done|].
  cbn [iterationEvents]. rewrite writesOf_app, IH.
  change (writesOf (CancelCheck i :: stepEvents h cliPath total i ext))
    with (writesOf (stepEvents h cliPath total i ext)).
  by rewrite stepEvents_no_write.
Qed.

Lemma settingsEvents_writes si :
  writesOf (settingsEvents h si)
  = match si with
    | Some item =>
        if json_truthy (settingsData item)
        then [(getSettingsPath h,
               spread2 (readCurrentSettings h (getSettingsPath h)).1
                 (settingsData item))]
        else []
    | None => []
    end.
Proof.
  unfold settingsEvents. destruct si as [item|]; [|done].
  destruct (json_truthy (settingsData item)); [|done].
  rewrite !writesOf_app, readCurrentSettings_writes_nothing. done.
Qed.

Lemma installSelected_writes this :
  writesOf (trace (installSelectedCommand h this))
  = writesOf (settingsEvents h
                (List.find isSettings (getSelectedExtensions this))).
Proof.
  destruct (decide (getSelectedExtensions this = [])) as [Hsel|Hsel].
  - unfold installSelectedCommand. by rewrite Hsel.
  - rewrite installSelected_trace by done.
    rewrite !writesOf_app, iterationEvents_no_write. simpl.
    case_bool_decide; simpl; by rewrite !app_nil_r.
Qed.

Lemma same_id_same_item this e x :
  NoDup (item_id <$> this) → e ∈ this → x ∈ this →
  item_id e = item_id x → e = x.
Proof.
  intros Hnd He Hx Hid.
  pose proof (itemById_NoDup e this Hnd He) as H1.
  pose proof (itemById_NoDup x this Hnd Hx) as H2.
  rewrite Hid in H1. congruence.
Qed.

Lemma lookup_by_id (l1 l2 : list ExtensionItem) n e2 :
  NoDup (item_id <$> l1) → item_id <$> l1 = item_id <$> l2 →
  l2 !! n = Some e2 → l1 !! n = itemById (item_id e2) l1.
Proof.
  intros Hnd Hids Hn.
  assert ((item_id <$> l1) !! n = Some (item_id e2)) as Hn1
    by (by rewrite Hids, list_lookup_fmap, Hn).
  rewrite list_lookup_fmap in Hn1.
  destruct (l1 !! n) as [e1|] eqn:He1; [|done].
  simpl in Hn1. injection Hn1 as Hid. rewrite <- Hid.
  symmetry. apply itemById_NoDup; [done|].
  by apply list_elem_of_lookup_2 in He1.
Qed.

(** A deselected item of a collection with distinct ids is held under
    its id after the run as it was before. *)
Lemma installSelected_deselected_byId this e :
  NoDup (item_id <$> this) → e ∈ this → selected e = false →
  itemById (item_id e) (exts (installSelectedCommand h this)) = Some e.
Proof.
  intros Hnd He Hsel.
  rewrite <- (itemById_NoDup e this Hnd He).
  unfold installSelectedCommand. case_bool_decide; [done|]. simpl.
  fold (extensionItemsOf this).
  set (items := extensionItemsOf this).
  set (s1 := settingsPhase h _ _).
  destruct (installLoop_itemById h (getCLIPath h) (length items) items 0 s1
              (item_id e)) as [_ Hout].
  rewrite Hout.
  - unfold s1.
    destruct (List.find isSettings (getSelectedExtensions this))
      as [item|] eqn:Hfind; [|done].
    apply settingsPhase_itemById_other.
    destruct (find_settings_selected this item Hfind) as [Hin Hid].
    intros Heq. rewrite <- Hid in Heq.
    pose proof (same_id_same_item this e item Hnd He Hin Heq) as ->.
    apply find_some in Hfind as [Hin' _].
    apply list_elem_of_In in Hin'. unfold getSelectedExtensions in Hin'.
    apply list_elem_of_filter in Hin' as [Hs _]. congruence.
  - intros Hel. apply list_elem_of_fmap in Hel as (x & Hid & Hel).
    apply list_elem_of_lookup in Hel as (j & Hj).
    apply lookup_take_Some in Hj as [Hj _].
    apply list_elem_of_lookup_2 in Hj.
    unfold items, extensionItemsOf, getSelectedExtensions in Hj.
    apply list_elem_of_filter in Hj as [_ Hj].
    apply list_elem_of_filter in Hj as [Hs Hx].
    pose proof (same_id_same_item this e x Hnd He Hx Hid) as ->.
    congruence.
Qed.

End MoreRun.

(** X6. With nothing selected the command only shows the warning "No
    items selected.": the collection is left as it is and nothing is
    asked, installed or written. In particular a run right after
    [deselectAll] does nothing. *)
Theorem nothing_selected_nothing_done (h : Host)
  (this : list ExtensionItem) :
  (getSelectedExtensions this = [] →
   installSelectedCommand h this
   = mkRunState this [ShowWarningMessage "No items selected."] 0 0) ∧
  exts (installSelectedCommand h (deselectAll this)) = deselectAll this ∧
  trace (installSelectedCommand h (deselectAll this))
  = [ShowWarningMessage "No items selected."] ∧
  installedCount (installSelectedCommand h (deselectAll this)) = 0.
Proof.
  assert (∀ l, getSelectedExtensions l = [] →
            installSelectedCommand h l
            = mkRunState l [ShowWarningMessage "No items selected."] 0 0)
    as Hnone.
  { intros l Hl. unfold installSelectedCommand. by rewrite Hl. }
  split; [apply Hnone|].
  by rewrite (Hnone (deselectAll this) (getSelected_deselectAll this)).
Qed.

Lemma nothing_selected_nothing_done_witness :
  installSelectedCommand (scriptedHost [] [] None)
    (handleCheckboxChangeAt 0 Unchecked
       (loadExtensions [descriptor "pub.a"] []))
  = mkRunState
      (handleCheckboxChangeAt 0 Unchecked
         (loadExtensions [descriptor "pub.a"] []))
      [ShowWarningMessage "No items selected."] 0 0.
Proof.
  apply (nothing_selected_nothing_done (scriptedHost [] [] None)).
  reflexivity.
Defined.

(** X7. Whatever the host answers, a run keeps the length and the order
    of the collection and, of every item, the descriptor, the selection,
    the checkbox, the payload and the label, description, tooltip and
    context value: it writes statuses, error messages, icons and click
    commands only. *)
Theorem run_keeps_frame (h : Host) (this : list ExtensionItem) :
  let r := installSelectedCommand h this in
  frameOf <$> exts r = frameOf <$> this ∧
  length (exts r) = length this ∧
  item_id <$> exts r = item_id <$> this ∧
  selected <$> exts r = selected <$> this.
Proof.
  intros r. subst r.
  pose proof (frameOf_installSelected h this) as Hframe.
  split_and!.
  - done.
  - rewrite <- (length_fmap frameOf this), <- Hframe.
    by rewrite length_fmap.
  - by apply frame_ids.
  - by apply frame_selected.
Qed.

(** X8. Every install command a run issues is counted exactly once, as
    installed or as failed: the two counters add up to the number of
    commands run, and with the items found already installed they add up
    to the number of iterations the loop completed. *)
Theorem run_counts_installs (h : Host) (this : list ExtensionItem) :
  let items := extensionItemsOf this in
  let cli := getCLIPath h in
  let ran := iterationsRun (isCancellationRequested h) 0 (length items) in
  let r := installSelectedCommand h this in
  installedCount r + errorCount r = length (execsOf (trace r)) ∧
  installedCount r = length (List.filter (installs h cli) (take ran items)) ∧
  errorCount r = length (List.filter (fails h cli) (take ran items)) ∧
  installedCount r + errorCount r
  + length (List.filter (present h) (take ran items)) = ran ∧
  ran ≤ length items.
Proof.
  intros items cli ran r.
  pose proof (installSelected_installedCount h this) as Hi.
  pose proof (installSelected_errorCount h this) as He.
  pose proof (installSelected_execs h this) as Hx.
  simpl in Hi, He, Hx. fold items cli ran r in Hi, He, Hx.
  pose proof (iterationsRun_le (isCancellationRequested h)
                (length items) 0) as Hle. fold ran in Hle.
  destruct (outcomes_partition h cli (take ran items)) as [Hsum Hlen].
  rewrite length_take in Hsum.
  split_and!; [| done | done | | done].
  - by rewrite Hx, Hlen, Hi, He.
  - rewrite Hi, He. lia.
Qed.

(** X9. A run writes the settings file at most once, before any install
    command, and only when a settings item with a truthy payload is
    selected; what it writes then is the merge of that payload over the
    current settings, to the settings path. *)
Theorem run_writes_settings_once (h : Host) (this : list ExtensionItem) :
  let r := installSelectedCommand h this in
  let settingsItem := List.find isSettings (getSelectedExtensions this) in
  writesOf (trace r)
  = match settingsItem with
    | Some item =>
        if json_truthy (settingsData item)
        then [(getSettingsPath h,
               spread2 (readCurrentSettings h (getSettingsPath h)).1
                 (settingsData item))]
        else []
    | None => []
    end ∧
  length (writesOf (trace r)) ≤ 1 ∧
  ∃ pre post, trace r = pre ++ post ∧ execsOf pre = [] ∧ writesOf post = [].
Proof.
  intros r settingsItem.
  assert (writesOf (trace r)
          = writesOf (settingsEvents h settingsItem)) as Hw
    by apply installSelected_writes.
  rewrite settingsEvents_writes in Hw. split_and!.
  - done.
  - rewrite Hw. destruct settingsItem as [item|]; [|simpl; lia].
    destruct (json_truthy (settingsData item)); simpl; lia.
  - destruct (decide (getSelectedExtensions this = [])) as [Hsel|Hsel].
    + exists [], (trace r). split_and!; [done | done |].
      unfold r, installSelectedCommand. by rewrite Hsel.
    + eexists ([AppendLine "Starting installation..."]
               ++ settingsEvents h settingsItem), _.
      split_and!.
      * unfold r. rewrite installSelected_trace by done.
        rewrite <- app_assoc. reflexivity.
      * rewrite execsOf_app.
        by destruct (settingsEvents_quiet h settingsItem) as (_ & -> & _).
      * rewrite !writesOf_app, iterationEvents_no_write. simpl.
        by case_bool_decide.
Qed.

(** X10. The summary says "Settings applied: Yes" as soon as a settings
    item is selected: also when its payload is falsy, in which case
    nothing is written and the item is not marked, and also when the
    write failed. *)
Theorem summary_says_yes_when_selected (h : Host)
  (this : list ExtensionItem) (item : ExtensionItem) :
  List.find isSettings (getSelectedExtensions this) = Some item →
  let r := installSelectedCommand h this in
  summaryOf (trace r) = [summaryMessage (installedCount r) true] ∧
  (json_truthy (settingsData item) = false →
   writesOf (trace r) = [] ∧
   itemById SETTINGS (exts r) = itemById SETTINGS this) ∧
  (∀ message,
     json_truthy (settingsData item) = true →
     writeFileSync h (getSettingsPath h)
       (spread2 (readCurrentSettings h (getSettingsPath h)).1
          (settingsData item)) = Some message →
     ∃ e', itemById SETTINGS (exts r) = Some e' ∧ status e' = Failed).
Proof.
  intros Hfind r.
  assert (getSelectedExtensions this ≠ []) as Hsel
    by (intros Hnil; by rewrite Hnil in Hfind).
  split_and!.
  - unfold r. rewrite installSelected_summary by done.
    rewrite Hfind, installSelected_installedCount.
    by rewrite bool_decide_true.
  - intros Hfalsy. split.
    + unfold r. rewrite installSelected_writes, settingsEvents_writes.
      by rewrite Hfind, Hfalsy.
    + unfold r, installSelectedCommand.
      rewrite bool_decide_false by (by rewrite length_zero_iff_nil).
      simpl. fold (extensionItemsOf this). rewrite Hfind.
      set (items := extensionItemsOf this).
      destruct (installLoop_itemById h (getCLIPath h) (length items) items
                  0 (settingsPhase h (Some item)
                       (mkRunState this
                          [AppendLine "Starting installation..."] 0 0))
                  SETTINGS) as [_ Hout].
      rewrite Hout.
      * unfold settingsPhase. by rewrite Hfalsy.
      * intros Hel. apply list_elem_of_fmap in Hel as (e & He & Hel).
        apply list_elem_of_lookup in Hel as (j & Hj).
        apply lookup_take_Some in Hj as [Hj _].
        apply list_elem_of_lookup_2 in Hj.
        by destruct (extensionItemsOf_elem this e Hj) as [_ Hne].
  - intros message Htruthy Hw.
    destruct (installSelected_settings_marks h this item message Hfind
                Htruthy Hw) as (e' & He' & Hs & _).
    by exists e'.
Qed.

Lemma summary_says_yes_when_selected_witness :
  let r := installSelectedCommand failingHost collectionWithSettings in
  summaryOf (trace r) = [summaryMessage (installedCount r) true] ∧
  ∃ e', itemById SETTINGS (exts r) = Some e' ∧ status e' = Failed.
Proof.
  intros r.
  destruct (summary_says_yes_when_selected failingHost
              collectionWithSettings exampleSettingsItem eq_refl)
    as (Hsum & _ & Hfail).
  split; [exact Hsum|].
  apply (Hfail "EACCES"); reflexivity.
Defined.

(** X11. A run installs for selected items only: every command it runs
    is the install command of a selected extension item the host does
    not have. In a collection with distinct ids a deselected item is,
    after the run, exactly the item it was. *)
Theorem run_skips_deselected (h : Host) (this : list ExtensionItem) :
  let r := installSelectedCommand h this in
  (∀ c, c ∈ execsOf (trace r) →
     ∃ x, x ∈ this ∧ selected x = true ∧ item_id x ≠ SETTINGS ∧
          getExtension h (item_id x) = false ∧
          c = installCommand (getCLIPath h) (item_id x)) ∧
  (NoDup (item_id <$> this) →
   ∀ n e, this !! n = Some e → selected e = false →
     exts r !! n = Some e).
Proof.
  intros r. split.
  - intros c Hc. unfold r in Hc. rewrite installSelected_execs in Hc.
    apply list_elem_of_omap in Hc as (x & Hx & Hcmd).
    apply list_elem_of_lookup in Hx as (j & Hj).
    apply lookup_take_Some in Hj as [Hj _].
    apply list_elem_of_lookup_2 in Hj.
    unfold extensionItemsOf, getSelectedExtensions in Hj.
    apply list_elem_of_filter in Hj as [Hid Hj].
    apply list_elem_of_filter in Hj as [Hsel Hin].
    unfold installOf in Hcmd.
    destruct (getExtension h (item_id x)) eqn:Hg; [done|].
    exists x. split_and!; try done. by injection Hcmd.
  - intros Hnd n e Hn Hsel.
    pose proof (frameOf_installSelected h this) as Hframe.
    apply frame_ids in Hframe. fold r in Hframe.
    rewrite (lookup_by_id (exts r) this n e); [|by rewrite Hframe|done..].
    apply installSelected_deselected_byId; [done| |done].
    by apply list_elem_of_lookup_2 in Hn.
Qed.

Lemma run_skips_deselected_witness :
  exts (installSelectedCommand (scriptedHost [] [] None)
          (handleCheckboxChangeAt 1 Unchecked sampleCollection)) !! 1
  = Some (handleCheckboxChange
            (newExtensionItem (descriptor "pub.b") None) Unchecked).
Proof.
  destruct (run_skips_deselected (scriptedHost [] [] None)
              (handleCheckboxChangeAt 1 Unchecked sampleCollection))
    as [_ H].
  apply H; [|reflexivity|reflexivity].
  vm_compute. repeat constructor; intros Hin;
    repeat (apply elem_of_cons in Hin as [Hin|Hin]; [discriminate Hin|]);
    by apply elem_of_nil in Hin.
Defined.

Section MoreLoad.

Implicit Types (this : list ExtensionItem) (e : ExtensionItem).

Lemma loadExtensions_ids l this :
  item_id <$> loadExtensions l this = id <$> l.
Proof.
  unfold loadExtensions. rewrite <- list_fmap_compose.
  apply list_fmap_ext. intros n d _. apply newExtensionItem_id.
Qed.

Lemma loadExtensions_all_fresh l this :
  Forall (λ e, selected e = true ∧ status e = Pending)
    (loadExtensions l this).
Proof.
  unfold loadExtensions. apply Forall_fmap, Forall_forall. intros d _.
  simpl. by destruct (newExtensionItem_fresh d None) as (-> & -> & _).
Qed.

Lemma extensionItemsOf_all this :
  Forall (λ e, selected e = true ∧ item_id e ≠ SETTINGS) this →
  extensionItemsOf this = this.
Proof.
  unfold extensionItemsOf, getSelectedExtensions.
  induction 1 as [|e rest [Hs Hid] _ IH]; [done|].
  rewrite filter_cons_True by done. rewrite filter_cons_True by done.
  by rewrite IH.
Qed.

Lemma frame_all_extensions (l1 l2 : list ExtensionItem) :
  frameOf <$> l1 = frameOf <$> l2 →
  Forall (λ e, selected e = true ∧ item_id e ≠ SETTINGS) l2 →
  Forall (λ e, selected e = true ∧ item_id e ≠ SETTINGS) l1.
Proof.
  intros Hframe H2.
  assert (∀ l : list ExtensionItem,
            Forall (λ e, selected e = true ∧ item_id e ≠ SETTINGS) l
            ↔ Forall (λ f, f.1.1.1.2 = true ∧ id f.1.1.1.1 ≠ SETTINGS)
                (frameOf <$> l)) as Hiff
    by (intros l; by rewrite Forall_fmap).
  apply Hiff. rewrite Hframe. by apply Hiff.
Qed.

End MoreLoad.

(** X12. A file holding a bare list loads as one fresh item per
    descriptor, in order and none with a payload; no item is added for
    settings, so that an item has the reserved id only when a descriptor
    of the list has it. A file holding an object with a list and truthy
    settings loads as the settings item followed by the items of the
    list, those with the reserved id left out; an empty settings object
    is truthy and gives a settings item too. After a successful load
    every item is selected and [Pending], and what the collection held
    before plays no part. *)
Theorem load_file_shapes (this : list ExtensionItem) :
  (∀ l, loadFileCommand (ReadOk (DArray l)) this
        = (loadExtensions l [],
           [ShowInformationMessage
              ("Loaded " +:+ pretty (length l) +:+ " extensions.")])) ∧
  (∀ l, extensionData <$> (loadFileCommand (ReadOk (DArray l)) this).1 = l ∧
        Forall (λ e, settingsData e = None)
          (loadFileCommand (ReadOk (DArray l)) this).1 ∧
        (Forall notReserved l →
         Forall (λ e, item_id e ≠ SETTINGS)
           (loadFileCommand (ReadOk (DArray l)) this).1)) ∧
  (∀ l s, json_truthy (Some s) = true →
     loadFileCommand (ReadOk (DValue (Some (XArray l)) (Some s))) this
     = (newExtensionItem settingsDescriptor (Some s)
          :: filter (λ e, item_id e ≠ SETTINGS) (loadExtensions l []),
        [ShowInformationMessage
           ("Loaded " +:+ pretty (length l)
            +:+ " extensions and settings.")])) ∧
  json_truthy (Some (JObj ∅)) = true ∧
  (∀ data l, extensionsOf data = inr l →
     Forall (λ e, selected e = true ∧ status e = Pending)
       (loadFileCommand (ReadOk data) this).1 ∧
     loadFileCommand (ReadOk data) this = loadFileCommand (ReadOk data) []).
Proof.
  split_and!.
  - done.
  - intros l.
    change (loadFileCommand (ReadOk (DArray l)) this).1
      with (loadExtensions l []).
    unfold loadExtensions. split_and!.
    + rewrite <- list_fmap_compose. etrans; [|apply list_fmap_id].
      apply list_fmap_ext. intros n d _.
      apply newExtensionItem_extensionData.
    + apply Forall_fmap, Forall_forall. intros d _. simpl.
      by destruct (newExtensionItem_fresh d None) as (_ & _ & _ & _ & ->).
    + intros Hres. apply Forall_fmap. eapply Forall_impl; [exact Hres|].
      intros d Hd. simpl. by rewrite newExtensionItem_id.
  - intros l s Hs. unfold loadFileCommand.
    cbn [extensionsOf settingsOf]. by rewrite Hs.
  - done.
  - intros data l Hl. unfold loadFileCommand. rewrite Hl. split; [|done].
    simpl. destruct (json_truthy (settingsOf data)).
    + unfold addSettingsItem. constructor.
      * by destruct (newExtensionItem_fresh settingsDescriptor
                       (settingsOf data)) as (-> & -> & _).
      * pose proof (loadExtensions_all_fresh l this) as Hall.
        rewrite Forall_forall in Hall |- *. intros x Hx.
        apply list_elem_of_filter in Hx as [_ Hx]. auto.
    + apply loadExtensions_all_fresh.
Qed.

Lemma load_file_shapes_witness :
  loadFileCommand
    (ReadOk (DValue (Some (XArray [descriptor "pub.a"; descriptor "settings"]))
               (Some (JObj ∅)))) sampleCollection
  = (newExtensionItem settingsDescriptor (Some (JObj ∅))
       :: filter (λ e, item_id e ≠ SETTINGS)
            (loadExtensions [descriptor "pub.a"; descriptor "settings"] []),
     [ShowInformationMessage
        ("Loaded " +:+ pretty 2 +:+ " extensions and settings.")]).
Proof.
  destruct (load_file_shapes sampleCollection) as (_ & _ & H & _).
  apply (H [descriptor "pub.a"; descriptor "settings"] (JObj ∅)).
  reflexivity.
Defined.

(** X13. Loading a bare list of descriptors with distinct ids, none of
    them the reserved one, and running the install without cancelling
    leaves every item of the collection with its outcome: a terminal
    status each, the descriptors unchanged and in order, and installed,
    failed and already-installed items adding up to the length of the
    list. *)
Theorem load_then_install_all (h : Host) (l : list ExtensionData)
  (old : list ExtensionItem) :
  NoDup (id <$> l) → Forall notReserved l →
  (∀ j, j < length l → isCancellationRequested h j = false) →
  let this := (loadFileCommand (ReadOk (DArray l)) old).1 in
  let r := installSelectedCommand h this in
  exts r = outcome h (getCLIPath h) <$> this ∧
  Forall (λ e, terminal (status e)) (exts r) ∧
  extensionData <$> exts r = l ∧
  installedCount r + errorCount r
  + length (List.filter (present h) this) = length l.
Proof.
  intros Hnd Hres Hcancel this r.
  assert (this = loadExtensions l []) as Hthis by done.
  assert (Forall (λ e, selected e = true ∧ item_id e ≠ SETTINGS) this)
    as Hall.
  { rewrite Hthis. unfold loadExtensions. apply Forall_fmap.
    eapply Forall_impl; [exact Hres|]. intros d Hd. simpl.
    rewrite newExtensionItem_id.
    by destruct (newExtensionItem_fresh d None) as (-> & _). }
  assert (NoDup (item_id <$> this)) as Hnd'
    by (by rewrite Hthis, loadExtensions_ids).
  assert (length this = length l) as Hlen
    by (rewrite Hthis; unfold loadExtensions; by rewrite length_fmap).
  pose proof (extensionItemsOf_all this Hall) as Hitems.
  assert (iterationsRun (isCancellationRequested h) 0 (length this)
          = length this) as Hran.
  { apply iterationsRun_all. intros j Hj. apply Hcancel. simpl. lia. }
  assert (exts r = outcome h (getCLIPath h) <$> this) as Hexts.
  { pose proof (installSelected_items h this Hnd') as Hres'.
    simpl in Hres'. rewrite Hitems, Hran in Hres'.
    rewrite firstn_all, drop_all, app_nil_r in Hres'.
    rewrite <- Hres'. symmetry. apply extensionItemsOf_all.
    eapply frame_all_extensions; [|exact Hall].
    apply frameOf_installSelected. }
  split_and!.
  - done.
  - rewrite Hexts. apply Forall_fmap, Forall_forall.
    intros e _. apply outcome_terminal.
  - rewrite Hexts, <- list_fmap_compose.
    rewrite Hthis. unfold loadExtensions. rewrite <- list_fmap_compose.
    etrans; [|apply list_fmap_id].
    apply list_fmap_ext. intros n d _. simpl.
    unfold outcome.
    assert (∀ i e, extensionData (outcomeFor h (getCLIPath h) i e)
                   = extensionData e) as Hkeep.
    { intros i e. unfold outcomeFor. destruct (getExtension h i);
        [apply markStatus_extensionData|].
      destruct (execError _); by rewrite !markStatus_extensionData. }
    by rewrite Hkeep, newExtensionItem_extensionData.
  - unfold r. rewrite installSelected_installedCount,
      installSelected_errorCount.
    rewrite Hitems, Hran, firstn_all.
    destruct (outcomes_partition h (getCLIPath h) this) as [Hsum _].
    lia.
Qed.

Lemma load_then_install_all_witness :
  let h := scriptedHost ["pub.b"] ["pub.c"] None in
  let l := [descriptor "pub.a"; descriptor "pub.b"; descriptor "pub.c"] in
  let this := (loadFileCommand (ReadOk (DArray l)) fiveItems).1 in
  let r := installSelectedCommand h this in
  exts r = outcome h (getCLIPath h) <$> this ∧
  Forall (λ e, terminal (status e)) (exts r) ∧
  extensionData <$> exts r = l ∧
  installedCount r + errorCount r
  + length (List.filter (present h) this) = length l.
Proof.
  apply (load_then_install_all (scriptedHost ["pub.b"] ["pub.c"] None)
           [descriptor "pub.a"; descriptor "pub.b"; descriptor "pub.c"]
           fiveItems).
  - vm_compute. repeat constructor; intros Hin;
      repeat (apply elem_of_cons in Hin as [Hin|Hin]; [discriminate Hin|]);
      by apply elem_of_nil in Hin.
  - repeat constructor; vm_compute; discriminate.
  - intros j _. reflexivity.
Defined.

(** X14. An item marked [Failed] with a non-empty message carries the
    show-error click command, and the command shows "Error: " followed
    by that message. Marking the item [Success] afterwards leaves the
    click command in place, and the command then shows nothing. *)
Theorem failed_click_shows_error (i message : string)
  (this : list ExtensionItem) (e : ExtensionItem) :
  message ≠ EmptyString → itemById i this = Some e →
  let failed := updateExtensionStatus i Failed (Some message) this in
  (∃ e', itemById i failed = Some e' ∧
         itemCommand e' = Some showErrorCommand ∧
         showErrorHandler e'
         = [ShowErrorMessage ("Error: " +:+ message)]) ∧
  (∃ e', itemById i (updateExtensionStatus i Success None failed) = Some e' ∧
         itemCommand e' = Some showErrorCommand ∧
         showErrorHandler e' = []).
Proof.
  intros Hne He failed. unfold failed. split.
  - rewrite itemById_update_same, He. simpl. eexists. split; [done|].
    split; [done|]. unfold showErrorHandler.
    rewrite markStatus_errorMessage. simpl.
    by rewrite (truthy_nonempty message Hne).
  - rewrite !itemById_update_same, He. simpl. eexists. split; [done|].
    split; [done|]. unfold showErrorHandler.
    by rewrite markStatus_errorMessage.
Qed.

Lemma failed_click_shows_error_witness :
  ∃ e', itemById "pub.b"
          (updateExtensionStatus "pub.b" Failed (Some "boom")
             sampleCollection) = Some e' ∧
        itemCommand e' = Some showErrorCommand ∧
        showErrorHandler e' = [ShowErrorMessage ("Error: " +:+ "boom")].
Proof.
  destruct (failed_click_shows_error "pub.b" "boom" sampleCollection
              (newExtensionItem (descriptor "pub.b") None)) as [H _].
  - discriminate.
  - reflexivity.
  - exact H.
Defined.

(** ** The batches of the first import *)

Section Batches.

Implicit Types (xs : list ExtensionData).

Lemma batchesFrom_spec : ∀ fuel i xs,
  length xs ≤ i + fuel * BATCH_SIZE →
  concat (batchesFrom fuel i xs) = drop i xs ∧
  Forall (λ b, 0 < length b ≤ BATCH_SIZE) (batchesFrom fuel i xs) ∧
  length (batchesFrom fuel i xs) = (length xs - i + 9) / 10.
Proof.
  unfold BATCH_SIZE.
  induction fuel as [|fuel IH]; intros i xs Hlen.
  - cbn [batchesFrom]. rewrite drop_ge by lia.
    split_and!; [done|constructor|].
    replace (length xs - i) with 0 by lia. done.
  - cbn [batchesFrom]. unfold BATCH_SIZE.
    destruct (Nat.ltb_spec i (length xs)) as [Hlt|Hge].
    + destruct (IH (i + 10) xs) as (Hc & Hf & Hl); [lia|].
      split_and!.
      * cbn [concat]. rewrite Hc, <- drop_drop. apply take_drop.
      * constructor; [|done]. rewrite length_take, length_drop. lia.
      * cbn [length]. rewrite Hl.
        destruct (decide (length xs - i < 10)) as [Hs|Hs].
        -- replace (length xs - (i + 10)) with 0 by lia.
           rewrite (Nat.div_small (0 + 9) 10) by lia.
           apply (Nat.div_unique _ 10 1 (length xs - i - 1)); lia.
        -- replace (length xs - i + 9)
             with (length xs - (i + 10) + 9 + 1 * 10) by lia.
           rewrite Nat.div_add by lia. lia.
    + rewrite drop_ge by lia. split_and!; [done|constructor|].
      replace (length xs - i) with 0 by lia. done.
Qed.

Lemma batchesFrom_lookup : ∀ fuel i xs k b,
  batchesFrom fuel i xs !! k = Some b →
  b = take BATCH_SIZE (drop (i + k * BATCH_SIZE) xs).
Proof.
  induction fuel as [|fuel IH]; intros i xs k b; cbn [batchesFrom]; [done|].
  destruct (i <? length xs); [|done].
  destruct k as [|k]; cbn [lookup list_lookup].
  - intros [= <-]. by rewrite Nat.add_0_r.
  - intros Hk. apply IH in Hk. rewrite Hk. do 2 f_equal. unfold BATCH_SIZE.
    lia.
Qed.

Lemma string_app_assoc (a b c : string) :
  (a +:+ b) +:+ c = a +:+ b +:+ c.
Proof.
  induction a as [|x a IH]; [done|].
  change (String x ((a +:+ b) +:+ c) = String x (a +:+ b +:+ c)).
  by rewrite IH.
Qed.

Lemma batchCommand_app cliPath (b1 b2 : list ExtensionData) :
  batchCommand cliPath (b1 ++ b2) = batchCommand (batchCommand cliPath b1) b2.
Proof. unfold batchCommand. by rewrite bind_app, foldl_app. Qed.

End Batches.

(** X20. The batched import of the first version cuts the list of
    extensions to install into consecutive slices: the slices put
    together give the list back, each slice holds between one and ten
    extensions, slice [k] starts at index [10 k], and there are as many
    slices as the length divided by ten, rounded up. The line sent for a
    slice of one extension is the install command of the later
    versions, and the line for two slices put together is the line of
    the second with the line of the first as its program. *)
Theorem batches_partition (xs : list ExtensionData) :
  concat (batches xs) = xs ∧
  Forall (λ b, 0 < length b ≤ BATCH_SIZE) (batches xs) ∧
  length (batches xs) = (length xs + 9) / 10 ∧
  (∀ k b, batches xs !! k = Some b →
          b = take BATCH_SIZE (drop (k * BATCH_SIZE) xs)) ∧
  (∀ cliPath ext,
     batchCommand cliPath [ext] = installCommand cliPath (id ext)) ∧
  (∀ cliPath b1 b2,
     batchCommand cliPath (b1 ++ b2)
     = batchCommand (batchCommand cliPath b1) b2).
Proof.
  unfold batches.
  destruct (batchesFrom_spec (length xs) 0 xs) as (Hc & Hf & Hl);
    [unfold BATCH_SIZE; lia|].
  split_and!.
  - by rewrite Hc.
  - done.
  - rewrite Hl. by rewrite Nat.sub_0_r.
  - intros k b Hk. by apply batchesFrom_lookup in Hk.
  - intros cliPath ext. unfold batchCommand, installCommand.
    cbn [mbind list_bind foldl app]. csimpl.
    by rewrite !string_app_assoc.
  - apply batchCommand_app.
Qed.

Lemma batches_partition_witness :
  [descriptor "p.k"; descriptor "p.l"]
  = take BATCH_SIZE (drop (1 * BATCH_SIZE) twelveExtensions).
Proof.
  destruct (batches_partition twelveExtensions) as (_ & _ & _ & H & _).
  apply H. reflexivity.
Defined.

(** ** The import command *)

Section ImportFacts.

Variables (h : Host) (cliPath : string) (total : nat).

Implicit Types (s : ImportState) (items : list ExtensionData).

Lemma installExtension_events i :
  execsOf (installExtension h i cliPath).1 = [installCommand cliPath i] ∧
  queriesOf (installExtension h i cliPath).1 = [] ∧
  writesOf (installExtension h i cliPath).1 = [] ∧
  summaryOf (installExtension h i cliPath).1 = [].
Proof.
  unfold installExtension.
  destruct (execError _); cbn [fst]; by destruct (Js.truthy _).
Qed.

Lemma importStep_facts i ext s :
  let r := importStep h cliPath total i ext s in
  execsOf (importTrace r)
  = execsOf (importTrace s) ++ [installCommand cliPath (id ext)] ∧
  queriesOf (importTrace r) = queriesOf (importTrace s) ∧
  writesOf (importTrace r) = writesOf (importTrace s) ∧
  summaryOf (importTrace r) = summaryOf (importTrace s) ∧
  importInstalled r
  = importInstalled s + (if importOk h cliPath ext then 1 else 0) ∧
  importFailed r
  = importFailed s + (if importOk h cliPath ext then 0 else 1).
Proof.
  unfold importStep, importOk.
  destruct (installExtension_events (id ext)) as (He & Hq & Hw & Hs).
  destruct (installExtension_success h cliPath (id ext)) as [Hok _].
  destruct (installExtension h (id ext) cliPath) as [evs result].
  cbn [fst snd] in He, Hq, Hw, Hs, Hok. rewrite <- Hok.
  destruct (success result); unfold importEmit;
    cbn [importTrace importInstalled importFailed];
    rewrite !execsOf_app, !queriesOf_app, !writesOf_app, !summaryOf_app,
      He, Hq, Hw, Hs; cbn [execsOf queriesOf writesOf summaryOf omap];
    csimpl; rewrite ?app_nil_r; split_and!; try done; lia.
Qed.

Lemma importLoop_facts items : ∀ i s,
  let k := iterationsRun (isCancellationRequested h) i (length items) in
  let r := importLoop h cliPath total i items s in
  execsOf (importTrace r)
  = execsOf (importTrace s)
    ++ ((λ ext, installCommand cliPath (id ext)) <$> take k items) ∧
  queriesOf (importTrace r) = queriesOf (importTrace s) ∧
  writesOf (importTrace r) = writesOf (importTrace s) ∧
  summaryOf (importTrace r) = summaryOf (importTrace s) ∧
  importInstalled r
  = importInstalled s
    + length (List.filter (importOk h cliPath) (take k items)) ∧
  importFailed r
  = importFailed s
    + length (List.filter (λ ext, negb (importOk h cliPath ext))
                (take k items)).
Proof.
  induction items as [|ext rest IH]; intros i s.
  { cbn. rewrite app_nil_r. split_and!; try done; lia. }
  cbn [importLoop length iterationsRun].
  destruct (isCancellationRequested h i).
  { unfold importEmit; cbn [importTrace importInstalled importFailed take].
    rewrite !execsOf_app, !queriesOf_app, !writesOf_app, !summaryOf_app.
    csimpl. rewrite !app_nil_r. split_and!; try done; cbn; lia. }
  destruct (IH (S i) (importStep h cliPath total i ext
                        (importEmit [CancelCheck i] s)))
    as (He & Hq & Hw & Hs & Hi & Hf).
  destruct (importStep_facts i ext (importEmit [CancelCheck i] s))
    as (He' & Hq' & Hw' & Hs' & Hi' & Hf').
  cbv zeta in He, Hq, Hw, Hs, Hi, Hf, He', Hq', Hw', Hs', Hi', Hf'.
  cbv zeta. rewrite He, Hq, Hw, Hs, Hi, Hf, He', Hq', Hw', Hs', Hi', Hf'.
  unfold importEmit; cbn [importTrace importInstalled importFailed].
  rewrite !execsOf_app, !queriesOf_app, !writesOf_app, !summaryOf_app.
  cbn [take List.filter fmap list_fmap].
  csimpl. rewrite !app_nil_r, <- !app_assoc.
  split_and!; try done.
  - destruct (importOk h cliPath ext); cbn [negb length]; lia.
  - destruct (importOk h cliPath ext); cbn [negb length]; lia.
Qed.

Lemma extensionsToInstall_missing items :
  Forall (λ ext, getExtension h (id ext) = false)
    (extensionsToInstall h items).
Proof.
  unfold extensionsToInstall. apply Forall_forall. intros ext Hin.
  apply list_elem_of_In, filter_In in Hin as [_ Hin].
  by apply negb_true_iff in Hin.
Qed.

Lemma extensionsToInstall_none items :
  Forall (λ ext, getExtension h (id ext) = true) items →
  extensionsToInstall h items = [].
Proof.
  unfold extensionsToInstall. induction 1 as [|ext rest Hext _ IH]; [done|].
  cbn [List.filter]. by rewrite Hext.
Qed.

End ImportFacts.

(** X18. A confirmed import of a well-formed file asks the host once
    about every listed extension, in order, and runs the install command
    for the extensions the host does not have, in order, up to the
    iteration where the token reads cancelled and for no other. A failed
    install does not stop the loop: the installed and the failed counters
    add up to the number of iterations run. Nothing is written, and the
    one notification is the summary with the two counters, or the
    already-installed message when nothing was left to install. *)
Theorem import_counts (h : Host) (data : FileData)
  (l : list ExtensionData) :
  extensionsOf data = inr l →
  let todo := extensionsToInstall h l in
  let ran := iterationsRun (isCancellationRequested h) 0 (length todo) in
  let s := importCommand h (ReadOk data) (Some "Yes") in
  queriesOf (importTrace s) = id <$> l ∧
  Forall (λ ext, getExtension h (id ext) = false) todo ∧
  importExecsOf s
  = (λ ext, installCommand (getCLIPath h) (id ext)) <$> take ran todo ∧
  importInstalled s
  = length (List.filter (importOk h (getCLIPath h)) (take ran todo)) ∧
  importInstalled s + importFailed s = ran ∧
  writesOf (importTrace s) = [] ∧
  summaryOf (importTrace s)
  = [if bool_decide (todo = [])
     then "All extensions are already installed."
     else importSummary (importInstalled s) (importFailed s)].
Proof.
  intros Hl todo ran s.
  assert (∀ l' : list ExtensionData,
            queriesOf ((λ ext, GetExtension (id ext)) <$> l') = id <$> l'
            ∧ execsOf ((λ ext, GetExtension (id ext)) <$> l') = []
            ∧ writesOf ((λ ext, GetExtension (id ext)) <$> l') = []
            ∧ summaryOf ((λ ext, GetExtension (id ext)) <$> l') = [])
    as Hasked.
  { induction l' as [|x l' (IH1 & IH2 & IH3 & IH4)]; [done|].
    csimpl. unfold queriesOf, execsOf, writesOf, summaryOf in *.
    csimpl. by rewrite IH1, IH2, IH3, IH4. }
  destruct (Hasked l) as (Hq & He & Hw & Hs).
  pose proof (extensionsToInstall_missing h l) as Hmiss.
  pose proof (iterationsRun_le (isCancellationRequested h)
                (length todo) 0) as Hle.
  fold ran in Hle.
  destruct (decide (todo = [])) as [Hnil|Hne].
  - assert (s = mkImportState
                  (((λ ext, GetExtension (id ext)) <$> l)
                   ++ [ShowInformationMessage
                         "All extensions are already installed."]) 0 0)
      as Hs_eq.
    { unfold s, importCommand. rewrite Hl.
      rewrite bool_decide_true by done. fold todo. rewrite Hnil.
      by rewrite bool_decide_true by done. }
    assert (ran = 0) as Hran by (unfold ran; by rewrite Hnil).
    rewrite Hs_eq, Hran, bool_decide_true by done.
    unfold importExecsOf. cbn [importTrace importInstalled importFailed].
    rewrite queriesOf_app, execsOf_app, writesOf_app, summaryOf_app,
      Hq, He, Hw, Hs.
    split_and!; try done. by rewrite app_nil_r.
  - set (s0 := mkImportState
                 (((λ ext, GetExtension (id ext)) <$> l) ++
                  [AppendLine ("Starting installation of "
                               +:+ pretty (length todo)
                               +:+ " extensions...");
                   AppendLine ("CLI Command: " +:+ getCLIPath h)]) 0 0).
    set (s1 := importLoop h (getCLIPath h) (length todo) 0 todo s0).
    assert (s = importEmit
                  [ShowInformationMessage
                     (importSummary (importInstalled s1) (importFailed s1))]
                  s1) as Hs_eq.
    { unfold s, importCommand. rewrite Hl.
      rewrite bool_decide_true by done. fold todo.
      rewrite bool_decide_false; [done|].
      intros Hlen. by apply nil_length_inv in Hlen. }
    destruct (importLoop_facts h (getCLIPath h) (length todo) todo 0 s0)
      as (He' & Hq' & Hw' & Hs' & Hi' & Hf').
    cbv zeta in He', Hq', Hw', Hs', Hi', Hf'.
    fold s1 in He', Hq', Hw', Hs', Hi', Hf'. fold ran in He', Hi', Hf'.
    unfold s0 in He', Hq', Hw', Hs', Hi', Hf'.
    cbn [importTrace importInstalled importFailed] in He', Hq', Hw', Hs',
      Hi', Hf'.
    rewrite execsOf_app, He in He'. rewrite queriesOf_app, Hq in Hq'.
    rewrite writesOf_app, Hw in Hw'. rewrite summaryOf_app, Hs in Hs'.
    rewrite Hs_eq, bool_decide_false by done.
    unfold importExecsOf, importEmit.
    cbn [importTrace importInstalled importFailed].
    rewrite queriesOf_app, execsOf_app, writesOf_app, summaryOf_app,
      Hq', He', Hw', Hs'.
    pose proof (List.filter_length (importOk h (getCLIPath h))
                  (take ran todo)) as Hsum.
    rewrite length_take in Hsum.
    split_and!; try done.
    + by rewrite !app_nil_r.
    + by rewrite app_nil_r.
    + lia.
Qed.

Lemma import_counts_witness :
  let h := scriptedHost ["pub.b"] ["pub.c"] None in
  let s := importCommand h
             (ReadOk (DArray [descriptor "pub.a"; descriptor "pub.b";
                              descriptor "pub.c"])) (Some "Yes") in
  importInstalled s + importFailed s = 2.
Proof.
  destruct (import_counts (scriptedHost ["pub.b"] ["pub.c"] None)
              (DArray [descriptor "pub.a"; descriptor "pub.b";
                       descriptor "pub.c"])
              [descriptor "pub.a"; descriptor "pub.b"; descriptor "pub.c"]
              eq_refl) as (_ & _ & _ & _ & H & _).
  exact H.
Defined.

(** X19. The import installs nothing before it is confirmed: with any
    answer other than "Yes" no extension is looked up, no command is
    run and no summary is shown. A file that is not well formed is
    reported with its reason whatever the answer would have been. A
    confirmed import of a list the host has in full, the empty list in
    particular, looks every extension up and shows the
    already-installed message, and nothing else. *)
Theorem import_asks_first (h : Host) (picked : Picked)
  (confirmation : option string) :
  let s := importCommand h picked confirmation in
  (confirmation ≠ Some "Yes" →
   importExecsOf s = [] ∧ queriesOf (importTrace s) = [] ∧
   summaryOf (importTrace s) = [] ∧
   importInstalled s = 0 ∧ importFailed s = 0) ∧
  (∀ data e, picked = ReadOk data → extensionsOf data = inl e →
     importTrace s
     = [ShowErrorMessage ("Error importing extensions: " +:+ e)]) ∧
  (∀ data l, picked = ReadOk data → extensionsOf data = inr l →
     confirmation = Some "Yes" →
     Forall (λ ext, getExtension h (id ext) = true) l →
     importTrace s
     = ((λ ext, GetExtension (id ext)) <$> l)
       ++ [ShowInformationMessage "All extensions are already installed."]).
Proof.
  intros s. unfold s, importExecsOf, importCommand. split_and!.
  - intros Hno. destruct picked as [|e|data]; [done|done|].
    destruct (extensionsOf data); [done|].
    by rewrite bool_decide_false by done.
  - intros data e -> He. by rewrite He.
  - intros data l -> Hl -> Hall. rewrite Hl.
    rewrite bool_decide_true by done.
    rewrite (extensionsToInstall_none h l Hall).
    by rewrite bool_decide_true by done.
Qed.

Lemma import_asks_first_witness :
  importExecsOf
    (importCommand (plainHost None [] "Code")
       (ReadOk (DArray [descriptor "pub.a"])) (Some "No")) = [].
Proof.
  destruct (import_asks_first (plainHost None [] "Code")
              (ReadOk (DArray [descriptor "pub.a"])) (Some "No"))
    as [H _].
  destruct H as [H _]; [discriminate|exact H].
Defined.

(** ** The export command *)

Section ExportFacts.

Variables (h : Host) (env : ExportEnv).

Lemma isExported_exportedId ext : isExported ext = exportedId (extId ext).
Proof. done. Qed.

Lemma extensionList_ids all :
  id <$> extensionList all = List.filter exportedId (extId <$> all).
Proof.
  unfold extensionList. induction all as [|ext all IH]; [done|].
  cbn [List.filter fmap list_fmap]. rewrite isExported_exportedId.
  change (extId ext) with (id (toDescriptor ext)).
  destruct (exportedId (id (toDescriptor ext))); csimpl; by rewrite <- IH.
Qed.

Lemma extensionList_withBuiltin flag all :
  extensionList (withBuiltin flag <$> all) = extensionList all.
Proof.
  unfold extensionList. induction all as [|ext all IH]; [done|].
  cbn [List.filter fmap list_fmap].
  rewrite !isExported_exportedId.
  change (extId (withBuiltin flag ext)) with (extId ext).
  destruct (exportedId (extId ext)); csimpl; by rewrite <- IH.
Qed.

Lemma exportSettings_quiet : writesOf (exportSettings h).2 = [].
Proof.
  unfold exportSettings. destruct (existsSync h _); [|done].
  destruct (readJsonc h _) as [e|v]; [done|]. by destruct (keyCount v).
Qed.

Lemma exportCommand_writes :
  writesOf (exportCommand h env)
  = match keyCount (exportSettings h).1, (exportSettings h).1,
          saveDialog env with
    | Some _, Some settings, Some file =>
        [(file, exportData h env settings)]
    | _, _, _ => []
    end.
Proof.
  unfold exportCommand. pose proof exportSettings_quiet as Hq.
  destruct (exportSettings h) as [settingsData evs]. cbn [fst snd] in *.
  destruct (keyCount settingsData) as [n|];
    [|by rewrite writesOf_app, Hq].
  destruct settingsData as [settings|]; [|by rewrite writesOf_app, Hq].
  destruct (saveDialog env) as [file|]; [|done].
  rewrite !writesOf_app, Hq.
  by destruct (writeFileSync h file _).
Qed.

Lemma readDescriptor_descriptorJson d :
  readDescriptor (descriptorJson d) = Some d.
Proof.
  destruct d as [i dn de ve pu].
  destruct dn, de, ve, pu; vm_compute; reflexivity.
Qed.

Lemma readBack_exportData settings :
  readBack (exportData h env settings)
  = Some (DValue (Some (XArray (extensionList (allExtensions env))))
            (Some settings)).
Proof.
  unfold readBack, exportData.
  rewrite !lookup_insert_ne by done. rewrite !lookup_insert_eq.
  rewrite (mapM_fmap_Some readDescriptor descriptorJson)
    by apply readDescriptor_descriptorJson.
  done.
Qed.

Lemma loaded_descriptors l this :
  extensionData <$> loadExtensions l this = l.
Proof.
  unfold loadExtensions. rewrite <- list_fmap_compose.
  etrans; [|apply list_fmap_id]. apply list_fmap_ext.
  intros n d _. apply newExtensionItem_extensionData.
Qed.

Lemma loaded_descriptors_filter l this :
  extensionData <$> filter (λ e, item_id e ≠ SETTINGS) (loadExtensions l this)
  = filter (λ d, id d ≠ SETTINGS) l.
Proof.
  unfold loadExtensions. induction l as [|d l IH]; [done|]. csimpl.
  rewrite !filter_cons, newExtensionItem_id.
  destruct (decide (id d ≠ SETTINGS)); csimpl;
    by rewrite ?newExtensionItem_extensionData, IH.
Qed.

End ExportFacts.

(** X15. What the export lists depends on the ids only: the descriptors
    exported are those of the host's extensions whose id starts with
    none of "vscode.", "ms-vscode.js-debug" and
    "ms-vscode.references-view", in the host's order, and changing the
    [isBuiltin] flags of the host's extensions in any way changes
    nothing. *)
Theorem export_ignores_builtin_flag (all : list HostExtension)
  (flag : HostExtension → bool) :
  extensionList (withBuiltin flag <$> all) = extensionList all ∧
  id <$> extensionList all = List.filter exportedId (extId <$> all).
Proof.
  split.
  - apply extensionList_withBuiltin.
  - apply extensionList_ids.
Qed.

(** X16. When the settings file exists and parses to [null] or to
    nothing, the export is given up with a type error before the save
    dialog: no file is written and no success is reported. When the
    settings file is missing or cannot be read, the export goes on and
    the file picked in the dialog is written once, with an empty
    settings object. *)
Theorem export_settings_edge_cases (h : Host) (env : ExportEnv) :
  (∀ v, existsSync h (getSettingsPath h) = true →
        readJsonc h (getSettingsPath h) = inr v → keyCount v = None →
        writesOf (exportCommand h env) = [] ∧
        summaryOf (exportCommand h env) = [] ∧
        last (exportCommand h env)
        = Some (ShowErrorMessage
                  ("Error exporting extensions: " +:+ keysTypeError))) ∧
  (∀ file,
     existsSync h (getSettingsPath h) = false
     ∨ (∃ e, readJsonc h (getSettingsPath h) = inl e) →
     saveDialog env = Some file →
     writesOf (exportCommand h env)
     = [(file, exportData h env (JObj ∅))]).
Proof.
  split.
  - intros v Hex Hread Hkeys.
    assert (exportSettings h
            = (v, [AppendLine ("Found settings.json at: "
                               +:+ getSettingsPath h);
                   AppendLine ("Error reading settings.json: "
                               +:+ keysTypeError);
                   ShowErrorMessage ("Error reading settings.json: "
                                     +:+ keysTypeError)])) as Hset.
    { unfold exportSettings. by rewrite Hex, Hread, Hkeys. }
    rewrite exportCommand_writes. unfold exportCommand.
    rewrite Hset. cbn [fst snd]. rewrite Hkeys. done.
  - intros file Hmiss Hfile. rewrite exportCommand_writes, Hfile.
    assert ((exportSettings h).1 = Some (JObj ∅)) as ->; [|done].
    unfold exportSettings. destruct Hmiss as [Hex|[e He]].
    + by rewrite Hex.
    + destruct (existsSync h _); [|done]. by rewrite He.
Qed.

Lemma export_settings_edge_cases_witness :
  writesOf (exportCommand nullSettingsHost sampleExportEnv) = [].
Proof.
  destruct (export_settings_edge_cases nullSettingsHost sampleExportEnv)
    as [H _].
  destruct (H (Some JNull)) as [Hw _]; [reflexivity..|exact Hw].
Defined.

(** X17. A file the export wrote reads back as what was exported: it was
    written to the path picked in the dialog, its [extensions] are the
    exported descriptors with every field they had, and its [settings]
    are the settings the export read, which are not [null]. Loading it
    gives one item per exported descriptor, in order, behind a settings
    item that carries those settings; a descriptor with the reserved id
    is left out. When the settings read were a falsy value, no settings
    item is made and every descriptor is kept. *)
Theorem export_load_round_trip (h : Host) (env : ExportEnv)
  (file : string) (data : gmap string json) (this : list ExtensionItem) :
  (file, data) ∈ writesOf (exportCommand h env) →
  saveDialog env = Some file ∧
  ∃ settings d,
    (exportSettings h).1 = Some settings ∧
    keyCount (Some settings) ≠ None ∧
    readBack data = Some d ∧
    extensionsOf d = inr (extensionList (allExtensions env)) ∧
    settingsOf d = Some settings ∧
    let loaded := (loadFileCommand (ReadOk d) this).1 in
    (json_truthy (Some settings) = true →
     extensionData <$> loaded
     = settingsDescriptor
         :: filter (λ x, id x ≠ SETTINGS) (extensionList (allExtensions env))
     ∧ settingsData <$> head loaded = Some (Some settings)) ∧
    (json_truthy (Some settings) = false →
     extensionData <$> loaded = extensionList (allExtensions env)).
Proof.
  rewrite exportCommand_writes.
  destruct (keyCount (exportSettings h).1) as [n|] eqn:Hkeys;
    [|by intros ?%elem_of_nil].
  destruct (exportSettings h).1 as [settings|] eqn:Hset;
    [|by intros ?%elem_of_nil].
  destruct (saveDialog env) as [file'|]; [|by intros ?%elem_of_nil].
  intros Hin. apply list_elem_of_singleton in Hin.
  injection Hin as -> ->. split; [done|].
  exists settings,
    (DValue (Some (XArray (extensionList (allExtensions env))))
       (Some settings)).
  split_and!; try done.
  - by rewrite Hkeys.
  - apply readBack_exportData.
  - intros loaded. unfold loaded, loadFileCommand.
    cbn [extensionsOf settingsOf]. split.
    + intros Htrue. rewrite Htrue. cbn [fst].
      unfold addSettingsItem. split.
      * csimpl. by rewrite loaded_descriptors_filter.
      * cbn [head fmap option_fmap option_map].
        by destruct (newExtensionItem_fresh settingsDescriptor
                       (Some settings)) as (_ & _ & _ & _ & ->).
    + intros Hfalse. rewrite Hfalse. cbn [fst].
      apply loaded_descriptors.
Qed.

Lemma export_load_round_trip_witness :
  saveDialog sampleExportEnv = Some "/home/me/vscode-extensions.json".
Proof.
  destruct (export_load_round_trip (plainHost None [] "Code")
              sampleExportEnv "/home/me/vscode-extensions.json"
              (exportData (plainHost None [] "Code") sampleExportEnv
                 (JObj ∅)) []) as [H _].
  - vm_compute. apply list_elem_of_here.
  - exact H.
Defined.

(** ** More on the CLI path and on the settings written *)

Section MoreResolver.

Lemma bestMatch_candidate (lower : string → string)
  (candidates : list string) (appName : string) :
  Js.truthy (bestMatch lower candidates appName) = true →
  bestMatch lower candidates appName ∈ candidates.
Proof.
  unfold bestMatch. destruct candidates as [|first rest]; [done|].
  set (cands := first :: rest).
  assert (∀ o d, found_or o d = d
                 ∨ (o = Some (found_or o d)
                    ∧ Js.truthy (found_or o d) = true)) as Hfound.
  { intros [s|] d; cbn [found_or]; [|by left].
    destruct (Js.truthy s) eqn:Hs; [right|by left]. by rewrite Hs. }
  assert (∀ (f : string → bool) s, List.find f cands = Some s → s ∈ cands)
    as Hin.
  { intros f s Hs. apply find_some in Hs as [Hs _].
    by apply list_elem_of_In. }
  destruct (Js.truthy (found_or (List.find (matchesAppName lower appName) cands)
                         EmptyString)) eqn:Hfirst.
  - intros _.
    destruct (Hfound (List.find (matchesAppName lower appName) cands)
                EmptyString)
      as [Hd|[Hsome _]].
    + by rewrite Hd in Hfirst.
    + by apply Hin in Hsome.
  - intros _.
    destruct (Hfound (List.find (isKnownEditor lower) cands) first)
      as [Hd|[Hsome _]].
    + rewrite Hd. by left.
    + by apply Hin in Hsome.
Qed.

Lemma spread2_again (cur payload : option json) :
  spread2 (Some (JObj (spread2 cur payload))) payload = spread2 cur payload.
Proof.
  unfold spread2. cbn [own_props].
  by rewrite (assoc_L (∪)), (idemp_L (∪)).
Qed.

Lemma settingsItem_frame (l1 l2 : list ExtensionItem) :
  frameOf <$> l1 = frameOf <$> l2 →
  settingsData <$> List.find isSettings (getSelectedExtensions l1)
  = settingsData <$> List.find isSettings (getSelectedExtensions l2).
Proof.
  revert l2. induction l1 as [|e1 l1 IH]; intros [|e2 l2] Hf;
    try done.
  csimpl in Hf. injection Hf as Hd Hsel _ Hsd _ _ _ _ Htail.
  unfold getSelectedExtensions in *. rewrite !filter_cons.
  rewrite Hsel. destruct (decide (selected e2 = true)); [|by apply IH].
  cbn [List.find]. unfold isSettings, item_id. rewrite Hd.
  case_bool_decide; [|by apply IH]. csimpl. by rewrite Hsd.
Qed.

End MoreResolver.

(** X21. The CLI path is never the empty string. It is the configured
    override, or "auto" when none is set or the one set is empty, or
    else the quoted path, in the bin directory, of a name that the
    listing of that directory holds, that is not empty, not hidden and
    has no "tunnel" in it. *)
Theorem getCLIPath_program (h : Host) :
  let binDir := path_join h (appRoot h) "bin" in
  getCLIPath h ≠ EmptyString ∧
  (getCLIPath h = Js.or_else (cliCommand h) "auto" ∨
   ∃ files f,
     readdirSync h binDir = Some files ∧ f ∈ files ∧ f ≠ EmptyString ∧
     Js.startsWith f "." = false ∧ Js.includes f "tunnel" = false ∧
     getCLIPath h = Js.dquote +:+ path_join h binDir f +:+ Js.dquote).
Proof.
  intros binDir.
  assert (Js.or_else (cliCommand h) "auto" ≠ EmptyString) as Hover.
  { unfold Js.or_else. destruct (cliCommand h) as [s|]; [|done].
    unfold Js.truthy. by case_bool_decide. }
  unfold getCLIPath. fold binDir.
  case_bool_decide as Hauto; [|by split; [|left]].
  destruct (existsSync h binDir); [|by split; [|left]].
  destruct (readdirSync h binDir) as [files|] eqn:Hfiles;
    [|by split; [|left]].
  destruct (Js.truthy (bestMatch _ _ _)) eqn:Hbest; [|by split; [|left]].
  split; [done|]. right.
  pose proof (bestMatch_candidate _ _ _ Hbest) as Hin.
  apply list_elem_of_In, filter_In in Hin as [Hin Hcand].
  unfold isCandidate in Hcand.
  apply andb_true_iff in Hcand as [Hdot Htunnel].
  apply negb_true_iff in Hdot, Htunnel.
  exists files,
    (bestMatch (toLowerCase h) (List.filter isCandidate files)
       (Js.or_else (appName h) EmptyString)).
  split_and!; try done.
  - by apply list_elem_of_In.
  - intros Hempty. rewrite Hempty in Hbest. done.
Qed.

(** X22. Applying the same settings twice changes nothing the second
    time: when a run wrote the settings file and the file then holds
    what was written, a second run over the collection the first one
    left writes the same content to the same path. *)
Theorem settings_reapply_same_content (h h' : Host)
  (this : list ExtensionItem) (w : gmap string json) :
  writesOf (trace (installSelectedCommand h this))
  = [(getSettingsPath h, w)] →
  getSettingsPath h' = getSettingsPath h →
  existsSync h' (getSettingsPath h) = true →
  readJsonc h' (getSettingsPath h) = inr (Some (JObj w)) →
  writesOf (trace (installSelectedCommand h'
                     (exts (installSelectedCommand h this))))
  = [(getSettingsPath h, w)].
Proof.
  intros Hfirst Hpath Hex Hread.
  rewrite installSelected_writes, settingsEvents_writes in Hfirst.
  rewrite installSelected_writes, settingsEvents_writes.
  pose proof (settingsItem_frame _ _ (frameOf_installSelected h this))
    as Hsame.
  destruct (List.find isSettings (getSelectedExtensions this))
    as [item|]; [|done].
  destruct (List.find isSettings
              (getSelectedExtensions (exts (installSelectedCommand h this))))
    as [item'|]; [|done].
  csimpl in Hsame. injection Hsame as Hsame. rewrite Hsame.
  destruct (json_truthy (settingsData item)); [|done].
  injection Hfirst as Hw. rewrite Hpath.
  unfold readCurrentSettings. rewrite Hex, Hread. cbn [fst].
  rewrite <- Hw at 1. by rewrite spread2_again, Hw.
Qed.

Lemma settings_reapply_same_content_witness :
  writesOf (trace (installSelectedCommand mergedHost
                     (exts (installSelectedCommand settingsHost
                              collectionWithSettings))))
  = [(getSettingsPath settingsHost, exampleMerged)].
Proof.
  apply (settings_reapply_same_content settingsHost mergedHost
           collectionWithSettings exampleMerged);
    vm_compute; reflexivity.
Defined.

(** X23. An item made from a descriptor with a non-empty id always shows
    something: its label is the display name, or the id when the display
    name is missing or empty, and neither the label nor the secondary
    text is the empty string. *)
Theorem item_never_blank (d : ExtensionData) (sd : option json) :
  id d ≠ EmptyString →
  label (newExtensionItem d sd) ≠ EmptyString ∧
  itemDescription (newExtensionItem d sd) ≠ EmptyString ∧
  (displayName d = None ∨ displayName d = Some EmptyString →
   label (newExtensionItem d sd) = id d).
Proof.
  intros Hid.
  destruct (newExtensionItem_display d sd) as (-> & -> & _).
  assert (∀ s, Js.truthy s = true → s ≠ EmptyString) as Htruthy.
  { intros s Hs ->. done. }
  split_and!.
  - unfold Js.or_else. destruct (displayName d) as [s|]; [|done].
    destruct (Js.truthy s) eqn:Hs; [by apply Htruthy|done].
  - unfold shortDescription, Js.if_truthy.
    destruct (description d) as [s|]; [|done].
    destruct (Js.truthy s) eqn:Hs; [|done].
    destruct (50 <? String.length s); [|by apply Htruthy].
    intros Hempty. apply (f_equal String.length) in Hempty.
    rewrite string_length_app in Hempty.
    change (String.length "...") with 3 in Hempty.
    change (String.length EmptyString) with 0 in Hempty. lia.
  - by intros [->| ->].
Qed.

Lemma item_never_blank_witness :
  label (newExtensionItem
           (mkExtensionData "pub.a" (Some EmptyString) None None None) None)
  ≠ EmptyString.
Proof.
  destruct (item_never_blank
              (mkExtensionData "pub.a" (Some EmptyString) None None None)
              None) as [H _].
  - discriminate.
  - exact H.
Defined.

(** ** The settings phase of a run *)

Section SettingsRun.

Variable h : Host.




End SettingsRun.




